(** * ZvukDownloader: the acquisition pipeline, embedded and verified

    Sources embedded here:
    - [zvuk_multibot.py]: [ZvukMultiBot.make_request], [get_tracks],
      [get_releases], [get_stream_url], [get_lyrics], [download_track],
      [_embed_track_metadata], [download_release], and from
      [ZvukMultiBotCLI] the release selection of [cmd_download_artist]
      and [normalize_quality];
    - [ZvukDownloader.py]: [SberZvukDownloader.download_track],
      [add_metadata], [add_lyrics].

    The file has two parts: the embedding (definitions only), then the
    facts proved about it. *)

From Stdlib Require Import ZArith NArith List Ascii String Lia Bool Permutation Sorted.
From stdpp Require Import base decidable option list gmap.

Set Warnings "-register-all".
Local Open Scope Z_scope.

(* ===================================================================== *)
(** * Part I. The embedding                                              *)
(* ===================================================================== *)

(** ** Python values *)

Module Py.

(** A Python [str] is a sequence of Unicode code points; iterating over
    it yields its characters one at a time. *)
Definition char := N.
Definition str := list char.

(** [lit "flac"] is the [str] written ['flac'] in the source (ASCII
    literals only). *)
Definition lit (s : string) : str :=
  List.map N_of_ascii (list_ascii_of_string s).

Definition str_eqb (a b : str) : bool := bool_decide (a = b).

(** Python [bytes]. *)
Definition bytes := list Byte.byte.

(** *** The ASCII block of the character tables *)

Definition in_range (lo hi c : N) : bool := ((lo <=? c) && (c <=? hi))%N.

Definition ascii_isdigit (c : char) : bool := in_range 48 57 c.
Definition ascii_isalnum (c : char) : bool :=
  in_range 48 57 c || in_range 65 90 c || in_range 97 122 c.
(** [str.isspace] on ASCII: TAB, LF, VT, FF, CR, FS, GS, RS, US, space. *)
Definition ascii_isspace (c : char) : bool :=
  in_range 9 13 c || in_range 28 32 c.
Definition ascii_digit_value (c : char) : option N :=
  if ascii_isdigit c then Some (c - 48)%N else None.
Definition ascii_lower (c : char) : char :=
  if in_range 65 90 c then (c + 32)%N else c.

Definition is_ascii (c : char) : bool := (c <? 128)%N.

(** *** The Unicode character database

    [str.isalnum], [str.isspace], [str.isdigit], [str.lower] and the
    digit values accepted by [int()] are tables of the Python runtime.
    They are taken as a parameter, pinned on the ASCII block where the
    program's own literals live. Everything below is stated for every
    such table. *)
Class UnicodeData := {
  isalnum : char -> bool;
  isspace : char -> bool;
  isdigit : char -> bool;
  (** the value [int()] reads off a decimal digit; [None] for the
      characters [int()] rejects (superscripts and the like, for which
      [isdigit] is nevertheless true) *)
  digit_value : char -> option N;
  (** [s.lower()], on whole strings: lowering is context sensitive *)
  lower : str -> str;
  isalnum_ascii : forall c, is_ascii c = true -> isalnum c = ascii_isalnum c;
  isspace_ascii : forall c, is_ascii c = true -> isspace c = ascii_isspace c;
  isdigit_ascii : forall c, is_ascii c = true -> isdigit c = ascii_isdigit c;
  digit_value_ascii :
    forall c, is_ascii c = true -> digit_value c = ascii_digit_value c;
  lower_ascii :
    forall s, forallb is_ascii s = true -> lower s = List.map ascii_lower s
}.

(** The table that knows the ASCII block only: enough to run the code on
    ASCII inputs. *)
Definition ascii_lower_str (s : str) : str :=
  if forallb is_ascii s then List.map ascii_lower s else s.

#[refine, export] Instance ascii_table : UnicodeData := {
  isalnum := ascii_isalnum;
  isspace := ascii_isspace;
  isdigit := ascii_isdigit;
  digit_value := ascii_digit_value;
  lower := ascii_lower_str
}.
Proof.
  - reflexivity.
  - reflexivity.
  - reflexivity.
  - reflexivity.
  - intros s Hs. unfold ascii_lower_str. now rewrite Hs.
Defined.

(** *** Exceptions and outcomes *)

(** What a Python expression can raise, by the class the [except]
    clauses of the program tell apart.  [CancelledError] stands for the
    [BaseException]s a coroutine can see, which [except Exception] does
    not catch. *)
Inductive exn :=
| TimeoutError
| Exception (name : string)
| CancelledError.

(** [isinstance(e, Exception)] *)
Definition is_Exception (e : exn) : bool :=
  match e with CancelledError => false | _ => true end.

Definition is_TimeoutError (e : exn) : bool :=
  match e with TimeoutError => true | _ => false end.

Inductive outcome (A : Type) :=
| Ret (a : A)
| Raise (e : exn).
Arguments Ret {A} a.
Arguments Raise {A} e.

Definition obind {A B} (o : outcome A) (f : A -> outcome B) : outcome B :=
  match o with Ret a => f a | Raise e => Raise e end.

Section Strings.
Context {U : UnicodeData}.

(** [s.rstrip()]: drop the trailing whitespace. *)
Fixpoint rstrip (s : str) : str :=
  match s with
  | [] => []
  | c :: s' =>
      match rstrip s' with
      | [] => if isspace c then [] else [c]
      | r => c :: r
      end
  end.

(** [s.lstrip()] and [s.strip()]. *)
Fixpoint lstrip (s : str) : str :=
  match s with
  | [] => []
  | c :: s' => if isspace c then lstrip s' else s
  end.

Definition strip (s : str) : str := rstrip (lstrip s).

(** [s.isdigit()]: every character is a digit and there is at least one. *)
Definition str_isdigit (s : str) : bool :=
  match s with [] => false | _ => forallb isdigit s end.

(** [int(s)], base ten: whitespace around, an optional sign, then
    digits, single underscores allowed between two digits. *)
Fixpoint digits_value (s : str) (after_digit : bool) (acc : Z) : option Z :=
  match s with
  | [] => if after_digit then Some acc else None
  | c :: s' =>
      if (c =? 95)%N then
        if after_digit then digits_value s' false acc else None
      else
        match digit_value c with
        | Some d => digits_value s' true (10 * acc + Z.of_N d)
        | None => None
        end
  end.

Definition int_of_str (s : str) : outcome Z :=
  let parsed :=
    match strip s with
    | 43%N :: r => digits_value r false 0
    | 45%N :: r => option_map Z.opp (digits_value r false 0)
    | r => digits_value r false 0
    end in
  match parsed with
  | Some z => Ret z
  | None => Raise (Exception "ValueError")
  end.

End Strings.

(** [sep.join(parts)] *)
Fixpoint join (sep : str) (parts : list str) : str :=
  match parts with
  | [] => []
  | [p] => p
  | p :: rest => p ++ sep ++ join sep rest
  end.

(** [needle in haystack] on strings. *)
Fixpoint starts_with (p s : str) : bool :=
  match p, s with
  | [], _ => true
  | _ :: _, [] => false
  | a :: p', b :: s' => (a =? b)%N && starts_with p' s'
  end.

Fixpoint contains (needle hay : str) : bool :=
  starts_with needle hay ||
  match hay with
  | [] => false
  | _ :: hay' => contains needle hay'
  end.

(** [str(n)] for an [int]. *)
Fixpoint uint_digits (d : Decimal.uint) : str :=
  match d with
  | Decimal.Nil => []
  | Decimal.D0 d => 48%N :: uint_digits d
  | Decimal.D1 d => 49%N :: uint_digits d
  | Decimal.D2 d => 50%N :: uint_digits d
  | Decimal.D3 d => 51%N :: uint_digits d
  | Decimal.D4 d => 52%N :: uint_digits d
  | Decimal.D5 d => 53%N :: uint_digits d
  | Decimal.D6 d => 54%N :: uint_digits d
  | Decimal.D7 d => 55%N :: uint_digits d
  | Decimal.D8 d => 56%N :: uint_digits d
  | Decimal.D9 d => 57%N :: uint_digits d
  end.

Definition str_of_N (n : N) : str := uint_digits (N.to_uint n).

Definition str_of_int (z : Z) : str :=
  if z <? 0 then 45%N :: str_of_N (Z.to_N (- z)) else str_of_N (Z.to_N z).

(** [f"{z:02d}"]: zero-padded to a width of two, sign included. *)
Definition format_02d (z : Z) : str :=
  let s := str_of_int z in
  if (length s <? 2)%nat then 48%N :: s else s.

(** Python slices [l[:n]], negative [n] counting from the end. *)
Definition slice_to {A} (n : Z) (l : list A) : list A :=
  if 0 <=? n then take (Z.to_nat n) l
  else take (length l - Z.to_nat (- n)) l.

(** *** Decoded service payloads

    What [response.json()] and the dictionaries built by the program
    hold; numbers are the integers the service uses for ids, dates,
    positions and flags. [JNull] is Python's [None], [JBytes] the raw
    body [make_request] stores under ['binary_data']. A dictionary keeps
    its insertion order. *)
Inductive json :=
| JNull
| JBool (b : bool)
| JInt (z : Z)
| JStr (s : str)
| JArr (items : list json)
| JObj (fields : list (str * json))
| JBytes (data : bytes).

Definition dict := list (str * json).

Fixpoint assoc (k : str) (d : dict) : option json :=
  match d with
  | [] => None
  | (k', v) :: d' => if str_eqb k k' then Some v else assoc k d'
  end.

(** [bool(v)] *)
Definition truthy (v : json) : bool :=
  match v with
  | JNull => false
  | JBool b => b
  | JInt z => negb (z =? 0)
  | JStr s => negb (bool_decide (s = []))
  | JArr l => match l with [] => false | _ => true end
  | JObj d => match d with [] => false | _ => true end
  | JBytes b => match b with [] => false | _ => true end
  end.

Definition is_JStr (s : str) (v : json) : bool :=
  match v with JStr s' => str_eqb s s' | _ => false end.

(** [key in v] for a string key. *)
Definition py_in (key : str) (v : json) : outcome bool :=
  match v with
  | JObj d => Ret (match assoc key d with Some _ => true | None => false end)
  | JArr l => Ret (existsb (is_JStr key) l)
  | JStr s => Ret (contains key s)
  | _ => Raise (Exception "TypeError")
  end.

(** [v[key]] for a string key. *)
Definition getitem (v : json) (key : str) : outcome json :=
  match v with
  | JObj d =>
      match assoc key d with
      | Some x => Ret x
      | None => Raise (Exception "KeyError")
      end
  | _ => Raise (Exception "TypeError")
  end.

(** [v.get(key, dflt)] *)
Definition get_default (v : json) (key : str) (dflt : json) : outcome json :=
  match v with
  | JObj d => Ret (default dflt (assoc key d))
  | _ => Raise (Exception "AttributeError")
  end.

(** [v.get(key)] *)
Definition get (v : json) (key : str) : outcome json :=
  get_default v key JNull.

(** [v[0]] *)
Definition index0 (v : json) : outcome json :=
  match v with
  | JArr (x :: _) => Ret x
  | JArr [] => Raise (Exception "IndexError")
  | JStr (c :: _) => Ret (JStr [c])
  | JStr [] => Raise (Exception "IndexError")
  | JBytes (b :: _) => Ret (JInt (Z.of_N (Byte.to_N b)))
  | JBytes [] => Raise (Exception "IndexError")
  | JObj _ => Raise (Exception "KeyError")
  | _ => Raise (Exception "TypeError")
  end.

(** [len(v)] *)
Definition len (v : json) : outcome Z :=
  match v with
  | JStr s => Ret (Z.of_nat (length s))
  | JArr l => Ret (Z.of_nat (length l))
  | JObj d => Ret (Z.of_nat (length d))
  | JBytes b => Ret (Z.of_nat (length b))
  | _ => Raise (Exception "TypeError")
  end.

(** [for x in v]: the items the loop visits. *)
Definition iter (v : json) : outcome (list json) :=
  match v with
  | JArr l => Ret l
  | JStr s => Ret (List.map (fun c => JStr [c]) s)
  | JObj d => Ret (List.map (fun kv => JStr (fst kv)) d)
  | JBytes b => Ret (List.map (fun x => JInt (Z.of_N (Byte.to_N x))) b)
  | _ => Raise (Exception "TypeError")
  end.

(** [isinstance(v, int)] with the integer it denotes ([bool] is a
    subclass of [int]). *)
Definition as_int (v : json) : option Z :=
  match v with
  | JInt z => Some z
  | JBool b => Some (if b then 1 else 0)
  | _ => None
  end.

(** [v == 'literal'] *)
Definition eq_str (v : json) (s : str) : bool := is_JStr s v.

(** [str(v)], as in [f"{v}"]. The text Python prints for a container is
    left to [repr], a parameter wherever it is needed. *)
Definition py_str (repr : json -> str) (v : json) : str :=
  match v with
  | JStr s => s
  | JInt z => str_of_int z
  | JNull => lit "None"
  | JBool true => lit "True"
  | JBool false => lit "False"
  | _ => repr v
  end.

End Py.

(** ** Sequential execution with a state and exceptions *)

Module Exec.
Import Py.

(** A statement run from a state either returns or raises; the state it
    leaves behind is kept in both cases. [await] is sequencing. *)
Definition M (S A : Type) : Type := S -> outcome A * S.

Definition ret {S A} (a : A) : M S A := fun s => (Ret a, s).
Definition raise {S A} (e : exn) : M S A := fun s => (Raise e, s).
Definition bind {S A B} (m : M S A) (k : A -> M S B) : M S B :=
  fun s =>
    match m s with
    | (Ret a, s') => k a s'
    | (Raise e, s') => (Raise e, s')
    end.
Definition lift {S A} (o : outcome A) : M S A := fun s => (o, s).
Definition modify {S} (f : S -> S) : M S unit := fun s => (Ret tt, f s).

(** [try: body / except <class>: handler] *)
Definition try_except {S A} (body : M S A) (catches : exn -> bool)
    (handler : exn -> M S A) : M S A :=
  fun s =>
    match body s with
    | (Raise e, s') => if catches e then handler e s' else (Raise e, s')
    | r => r
    end.

(** How the body of a loop iteration ends: it runs off its end, or
    [return]s from the enclosing function. *)
Inductive step (R : Type) :=
| Next
| Break (r : R).
Arguments Next {R}.
Arguments Break {R} r.

(** [for x in items: body]; [Some r] when the body returned [r]. *)
Fixpoint for_loop {S B R} (items : list B) (body : B -> M S (step R))
    : M S (option R) :=
  match items with
  | [] => ret None
  | x :: rest =>
      bind (body x) (fun c =>
        match c with
        | Next => for_loop rest body
        | Break r => ret (Some r)
        end)
  end.

(** [range(n)] *)
Definition range (n : Z) : list Z :=
  List.map Z.of_nat (seq 0 (Z.to_nat n)).

(** [asyncio.gather] over the task list with [return_exceptions=True]:
    every task runs to its end, and what it returned or raised is
    collected at its position. Tasks are run here in list order, one of
    the schedules of the event loop. *)
Fixpoint gather_return_exceptions {S A} (tasks : list (M S A))
    : M S (list (outcome A)) :=
  match tasks with
  | [] => ret []
  | t :: rest =>
      fun s =>
        match t s with
        | (r, s') =>
            bind (gather_return_exceptions rest) (fun rs => ret (r :: rs)) s'
        end
  end.

End Exec.

Declare Scope exec_scope.
Delimit Scope exec_scope with exec.
Notation "x <- c1 ;; c2" := (Exec.bind c1 (fun x => c2))
  (at level 100, c1 at next level, right associativity) : exec_scope.
Notation "c1 ;; c2" := (Exec.bind c1 (fun _ => c2))
  (at level 100, right associativity) : exec_scope.

(** ** zvuk_multibot.py: the bot *)

Module ZvukMultiBot.
Import Py Exec.
Local Open Scope exec_scope.

(** [ZvukConfig] *)
Record ZvukConfig := {
  base_url : str;
  timeout : Z;
  max_retries : Z;
  retry_delay : Z;
  concurrent_requests : Z;
  download_path : str
}.

Definition default_config : ZvukConfig := {|
  base_url := lit "https://zvuk.com";
  timeout := 60;
  max_retries := 5;
  retry_delay := 3;
  concurrent_requests := 2;
  download_path := lit "./downloads"
|}.

(** [self.stats] *)
Record Stats := {
  requests_made : Z;
  successful_downloads : Z;
  failed_downloads : Z;
  total_data_downloaded : Z;
  metadata_embedded : Z;
  covers_downloaded : Z
}.

Definition zero_stats : Stats := {|
  requests_made := 0; successful_downloads := 0; failed_downloads := 0;
  total_data_downloaded := 0; metadata_embedded := 0; covers_downloaded := 0
|}.

(** What the bot does to the outside, in the order it does it. *)
Inductive event :=
| Jitter                                   (* sleep(random.uniform(1.0, 3.0)) *)
| Sleep (seconds : Z)
| Request (method url : str) (kwargs : dict)
| Mkdir (p : str)
| OpenWrite (p : str)
| WriteChunk (p : str) (chunk : bytes)
| WriteText (p : str) (text : str)
| QualityProbe (track_id : json)
| SplitLyrics
| CoverFetch (url : json)
| CoverOptimize
| EmbedTags (p : str)
| LrcToSrt.

Inductive file :=
| Audio (data : bytes)
| Text (text : str).

Record World := {
  stats : Stats;
  clock : nat;                 (* external interactions so far *)
  events : list event;
  files : gmap str file
}.

(** An HTTP response as the bot reads it. *)
Record response := {
  status : Z;
  content_type : option str;         (* response.headers.get('content-type') *)
  json_body : outcome json;          (* await response.json() *)
  raw_body : outcome bytes;          (* await response.read() *)
  text_body : outcome str;           (* await response.text() *)
  chunks : list bytes;               (* response.content.iter_chunked(8192) *)
  chunks_error : option exn          (* raised once the chunks are consumed *)
}.

(** Everything outside the bot: the service, the filesystem, the library
    functions and the module [audio_metadata], whose source is not part
    of the repository files at hand. Each answer may depend on the
    moment ([nat], the clock of the world) it is asked at. *)
Record Env := {
  repr : json -> str;
  urljoin : str -> str -> str;
  path_join : str -> str -> str;                 (* Path(a) / b *)
  with_suffix : str -> str -> str;               (* p.with_suffix(s) *)
  parent : str -> str;                           (* p.parent *)
  stem : str -> str;                             (* p.stem *)
  session_request : nat -> str -> str -> dict -> outcome response;
  fs_error : nat -> str -> option exn;           (* mkdir, open, write_text *)
  check_all_qualities : nat -> json -> outcome json;
  split_lyrics_formats : json -> outcome (option str * option str);
  download_cover_art : nat -> json -> outcome (option bytes);
  optimize_cover_image : bytes -> outcome bytes;
  (** writes the tags into the file; what it does to the bytes of the
      file is not modelled *)
  embed_metadata :
    nat -> str -> json -> json -> option bytes -> option str ->
    outcome bool;
  lrc_to_srt : str -> outcome str
}.

(** *** State primitives *)

Definition with_stats (f : Stats -> Stats) (w : World) : World :=
  {| stats := f (stats w); clock := clock w; events := events w;
     files := files w |}.

Definition emit (e : event) : M World unit :=
  modify (fun w =>
    {| stats := stats w; clock := clock w; events := events w ++ [e];
       files := files w |}).

Definition tick : M World nat :=
  fun w =>
    (Ret (clock w),
     {| stats := stats w; clock := S (clock w); events := events w;
        files := files w |}).

Definition set_file (p : str) (f : file) : M World unit :=
  modify (fun w =>
    {| stats := stats w; clock := clock w; events := events w;
       files := <[p := f]> (files w) |}).

Definition incr_requests_made : M World unit :=
  modify (with_stats (fun s =>
    {| requests_made := requests_made s + 1;
       successful_downloads := successful_downloads s;
       failed_downloads := failed_downloads s;
       total_data_downloaded := total_data_downloaded s;
       metadata_embedded := metadata_embedded s;
       covers_downloaded := covers_downloaded s |})).

Definition incr_successful_downloads : M World unit :=
  modify (with_stats (fun s =>
    {| requests_made := requests_made s;
       successful_downloads := successful_downloads s + 1;
       failed_downloads := failed_downloads s;
       total_data_downloaded := total_data_downloaded s;
       metadata_embedded := metadata_embedded s;
       covers_downloaded := covers_downloaded s |})).

Definition incr_failed_downloads : M World unit :=
  modify (with_stats (fun s =>
    {| requests_made := requests_made s;
       successful_downloads := successful_downloads s;
       failed_downloads := failed_downloads s + 1;
       total_data_downloaded := total_data_downloaded s;
       metadata_embedded := metadata_embedded s;
       covers_downloaded := covers_downloaded s |})).

Definition add_total_data_downloaded (n : Z) : M World unit :=
  modify (with_stats (fun s =>
    {| requests_made := requests_made s;
       successful_downloads := successful_downloads s;
       failed_downloads := failed_downloads s;
       total_data_downloaded := total_data_downloaded s + n;
       metadata_embedded := metadata_embedded s;
       covers_downloaded := covers_downloaded s |})).

Definition incr_metadata_embedded : M World unit :=
  modify (with_stats (fun s =>
    {| requests_made := requests_made s;
       successful_downloads := successful_downloads s;
       failed_downloads := failed_downloads s;
       total_data_downloaded := total_data_downloaded s;
       metadata_embedded := metadata_embedded s + 1;
       covers_downloaded := covers_downloaded s |})).

Definition incr_covers_downloaded : M World unit :=
  modify (with_stats (fun s =>
    {| requests_made := requests_made s;
       successful_downloads := successful_downloads s;
       failed_downloads := failed_downloads s;
       total_data_downloaded := total_data_downloaded s;
       metadata_embedded := metadata_embedded s;
       covers_downloaded := covers_downloaded s + 1 |})).

(** How one pass through the retry loop's [try] block ends. *)
Inductive flow (R : Type) :=
| Pass                 (* falls out of the try statement *)
| Continue             (* continue *)
| Return (r : R).      (* return r *)
Arguments Pass {R}.
Arguments Continue {R}.
Arguments Return {R} r.

(** The waits of the retry loop: [retry_delay * (attempt + 1) * 2] after
    a 418, [retry_delay * (attempt + 1)] after any other failure. *)
Definition teapot_wait_time (config : ZvukConfig) (attempt : Z) : Z :=
  retry_delay config * (attempt + 1) * 2.
Definition retry_wait_time (config : ZvukConfig) (attempt : Z) : Z :=
  retry_delay config * (attempt + 1).

Section Bot.
Context {U : UnicodeData} (env : Env) (config : ZvukConfig).

(** [self.session.request(method, url, **kwargs)] *)
Definition request (method url : str) (kwargs : dict) : M World response :=
  t <- tick ;;
  emit (Request method url kwargs) ;;
  lift (session_request env t method url kwargs).

(** The [try] statement inside the retry loop of [make_request]. *)
Definition try_request (method url : str) (kwargs : dict) (attempt : Z)
    : M World (flow json) :=
  try_except
    (incr_requests_made ;;
     response <- request method url kwargs ;;
     if status response =? 418 then
       let wait_time := teapot_wait_time config attempt in
       emit (Sleep wait_time) ;;
       ret Continue
     else if status response =? 200 then
       let ctype := default [] (content_type response) in
       if contains (lit "application/json") ctype then
         data <- lift (json_body response) ;;
         ret (Return data)
       else
         data <- lift (raw_body response) ;;
         ret (Return (JObj [(lit "binary_data", JBytes data);
                            (lit "content_type", JStr ctype)]))
     else
       _ <- lift (text_body response) ;;
       ret Pass)
    is_Exception
    (fun e => if is_TimeoutError e then ret Pass else ret Pass).

(** One iteration of [for attempt in range(self.config.max_retries)]. *)
Definition retry_iteration (method url : str) (kwargs : dict) (attempt : Z)
    : M World (step json) :=
  c <- try_request method url kwargs attempt ;;
  match c with
  | Return v => ret (Break v)
  | Continue => ret Next
  | Pass =>
      if attempt <? max_retries config - 1 then
        let wait_time := retry_wait_time config attempt in
        emit (Sleep wait_time) ;;
        ret Next
      else ret Next
  end.

(** [make_request]. The semaphore of [async with self.semaphore] bounds
    how many flows are in the block at once and does nothing to a flow
    inside it; logging is left out. [JNull] is the [None] of
    exhaustion. *)
Definition make_request (method endpoint : str) (kwargs : dict)
    : M World json :=
  let url := urljoin env (base_url config) endpoint in
  emit Jitter ;;
  r <- for_loop (range (max_retries config))
         (retry_iteration method url kwargs) ;;
  ret (default JNull r).

(** [get_tracks], [get_releases] *)
Definition ids_params (ids : list json) (include_ : bool) : dict :=
  let ids_str := join (lit ",") (List.map (py_str (repr env)) ids) in
  (lit "ids", JStr ids_str) ::
  (if include_ then [(lit "include", JStr (lit "track"))] else []).

Definition get_tracks (track_ids : list json) (include_details : bool)
    : M World json :=
  make_request (lit "GET") (lit "/api/tiny/tracks")
    [(lit "params", JObj (ids_params track_ids include_details))].

Definition get_releases (release_ids : list json) (include_tracks : bool)
    : M World json :=
  make_request (lit "GET") (lit "/api/tiny/releases")
    [(lit "params", JObj (ids_params release_ids include_tracks))].

(** The shape shared by [get_stream_url] and [get_lyrics]:
    [if response and 'result' in response and field in response['result']:
       return response['result'][field]] and [return None] otherwise. *)
Definition result_field (response : json) (field : str) : outcome json :=
  if truthy response then
    obind (py_in (lit "result") response) (fun has_result =>
      if has_result then
        obind (getitem response (lit "result")) (fun res =>
          obind (py_in field res) (fun has_field =>
            if has_field then getitem res field else Ret JNull))
      else Ret JNull)
  else Ret JNull.

Definition get_stream_url (track_id : json) (quality : str)
    : M World json :=
  let params := [(lit "id", track_id); (lit "quality", JStr quality)] in
  response <- make_request (lit "GET") (lit "/api/tiny/track/stream")
                [(lit "params", JObj params)] ;;
  lift (result_field response (lit "stream")).

Definition get_lyrics (track_id : json) : M World json :=
  let params := [(lit "track_id", track_id)] in
  response <- make_request (lit "GET") (lit "/api/tiny/lyrics")
                [(lit "params", JObj params)] ;;
  lift (result_field response (lit "lyrics")).

(** [check_track_qualities] hands over to the quality checker. *)
Definition check_track_qualities (track_id : json) : M World json :=
  t <- tick ;;
  emit (QualityProbe track_id) ;;
  lift (check_all_qualities env t track_id).

(** [quality_results.get(quality, {}).get('available', False)] *)
Definition reported_available (quality_results : json) (quality : str)
    : outcome json :=
  obind (get_default quality_results quality (JObj [])) (fun q =>
    get_default q (lit "available") (JBool false)).

(** Modelled from the spec: [QualityChecker.get_best_available_quality]
    of the module [audio_metadata], whose source is missing. The spec has
    it return the best tier that is available, degrading in the fixed
    order lossless, high, mid, and report explicitly when no tier is
    obtainable. *)
Definition get_best_available_quality (quality_results : json) : option str :=
  List.find
    (fun q =>
       match reported_available quality_results q with
       | Ret v => truthy v
       | Raise _ => false
       end)
    [lit "flac"; lit "high"; lit "mid"].

(** Modelled from the spec: [get_file_extension_for_quality] of the
    module [audio_metadata], whose source is missing. The spec derives
    the extension from the tier, one for lossless and another for the
    lossy tiers; the result starts with the dot the caller removes. *)
Definition get_file_extension_for_quality (quality : str) : str :=
  if str_eqb quality (lit "flac") then lit ".flac" else lit ".mp3".

(** *** Names *)

(** [c.isalnum() or c in (' ', '-', '_', '.')] *)
Definition filename_char (c : char) : bool :=
  isalnum c || existsb (N.eqb c) (lit " -_.").

(** ["".join(c for c in name if ...).rstrip()] of [download_track] *)
Definition sanitize_filename (name : str) : str :=
  rstrip (List.filter filename_char name).

(** [c.isalnum() or c in (' ', '-', '_', '.', '[', ']')] *)
Definition folder_char (c : char) : bool :=
  isalnum c || existsb (N.eqb c) (lit " -_.[]").

(** ["".join(c for c in folder_name if ...).rstrip()] of
    [download_release] *)
Definition sanitize_folder (name : str) : str :=
  rstrip (List.filter folder_char name).

(** The file name [download_track] computes when no [custom_filename]
    is given. *)
Definition track_filename (track_data : json) (quality : str)
    (position : json) : outcome str :=
  obind (get_default track_data (lit "artist_names")
           (JArr [JStr (lit "Unknown")])) (fun names =>
  obind (index0 names) (fun artist =>
  obind (get_default track_data (lit "title") (JStr (lit "Unknown")))
    (fun title =>
  let extension := drop 1 (get_file_extension_for_quality quality) in
  let base_name :=
    py_str (repr env) artist ++ lit " - " ++ py_str (repr env) title
    ++ lit "." ++ extension in
  let base_name := sanitize_filename base_name in
  match as_int position with
  | Some n =>
      if 0 <? n then Ret (format_02d n ++ lit ". " ++ base_name)
      else Ret base_name
  | None => Ret base_name
  end))).

(** *** Filesystem primitives *)

Definition fs_check (p : str) : M World unit :=
  t <- tick ;;
  match fs_error env t p with
  | Some e => raise e
  | None => ret tt
  end.

(** [p.mkdir(...)] *)
Definition mkdir (p : str) : M World unit :=
  fs_check p ;; emit (Mkdir p).

(** [open(p, 'wb')] *)
Definition open_wb (p : str) : M World unit :=
  fs_check p ;; emit (OpenWrite p) ;; set_file p (Audio []).

(** [f.write(chunk)] on the file opened at [p] *)
Definition write_chunk (p : str) (chunk : bytes) : M World unit :=
  emit (WriteChunk p chunk) ;;
  modify (fun w =>
    {| stats := stats w; clock := clock w; events := events w;
       files :=
         match files w !! p with
         | Some (Audio d) => <[p := Audio (d ++ chunk)]> (files w)
         | _ => <[p := Audio chunk]> (files w)
         end |}).

(** [p.write_text(text, encoding='utf-8')] *)
Definition write_text (p : str) (text : str) : M World unit :=
  fs_check p ;; emit (WriteText p text) ;; set_file p (Text text).

(** Truth value of an optional string or byte string: [None] and the
    empty one are false. *)
Definition nonempty {A} (o : option (list A)) : bool :=
  match o with Some (_ :: _) => true | _ => false end.

(** [not info or 'result' not in info] *)
Definition lacks_result (info : json) : outcome bool :=
  if truthy info then obind (py_in (lit "result") info) (fun b => Ret (negb b))
  else Ret true.

(** [plain_text, lrc_text = self.metadata_manager.split_lyrics_formats(lyrics)] *)
Definition split_lyrics (lyrics : json)
    : M World (option str * option str) :=
  emit SplitLyrics ;;
  lift (split_lyrics_formats env lyrics).

(** [srt_text = lrc_to_srt(lrc_text)] followed by
    [if srt_text: target.write_text(srt_text)] *)
Definition save_srt (target : str) (lrc_text : option str) : M World unit :=
  emit LrcToSrt ;;
  srt_text <- lift (lrc_to_srt env (default [] lrc_text)) ;;
  match srt_text with
  | [] => ret tt
  | _ => write_text target srt_text
  end.

(** [lyrics or ""] as the text given to [write_text], which wants a
    [str]. *)
Definition lyrics_text (lyrics : json) : outcome str :=
  if truthy lyrics then
    match lyrics with
    | JStr s => Ret s
    | _ => Raise (Exception "TypeError")
    end
  else Ret [].

(** [_embed_track_metadata]. An assignment made inside a [try] block
    stays made when a later statement of the block raises: the inner
    [try_except] around the statements that follow the assignment of
    [lyrics] (of [cover_data]) says so. *)
Definition _embed_track_metadata (filepath : str) (track_data track_id : json)
    (download_cover save_lyrics save_subtitles : bool) : M World unit :=
  try_except
    (ll <- try_except
        (lyrics <- get_lyrics track_id ;;
         if truthy lyrics then
           try_except
             (pl <- split_lyrics lyrics ;;
              let '(plain_text, lrc_text) := pl in
              ret (if nonempty plain_text then JStr (default [] plain_text)
                   else lyrics,
                   lrc_text))
             is_Exception (fun _ => ret (lyrics, None))
         else ret (lyrics, None))
        is_Exception (fun _ => ret (JNull, None)) ;;
     let '(lyrics, lrc_text) := ll in
     wants_cover <-
       (if download_cover then
          img <- lift (get_default track_data (lit "image") (JObj [])) ;;
          src <- lift (get img (lit "src")) ;;
          ret (truthy src)
        else ret false) ;;
     cover_data <-
       (if wants_cover then
          try_except
            (img <- lift (getitem track_data (lit "image")) ;;
             cover_url <- lift (getitem img (lit "src")) ;;
             t <- tick ;;
             emit (CoverFetch cover_url) ;;
             cover_data <- lift (download_cover_art env t cover_url) ;;
             if nonempty cover_data then
               try_except
                 (emit CoverOptimize ;;
                  optimized <- lift (optimize_cover_image env
                                       (default [] cover_data)) ;;
                  incr_covers_downloaded ;;
                  ret (Some optimized))
                 is_Exception (fun _ => ret cover_data)
             else ret cover_data)
            is_Exception (fun _ => ret None)
        else ret None) ;;
     t <- tick ;;
     emit (EmbedTags filepath) ;;
     ok <- lift (embed_metadata env t filepath track_data lyrics cover_data
                   lrc_text) ;;
     (if ok then incr_metadata_embedded else ret tt) ;;
     if (save_lyrics || save_subtitles)
        && (truthy lyrics || nonempty lrc_text) then
       try_except
         (let lyrics_dir := parent env filepath in
          let base_name := stem env filepath in
          (if save_lyrics then
             if nonempty lrc_text then
               write_text (path_join env lyrics_dir (base_name ++ lit ".lrc"))
                 (default [] lrc_text)
             else
               text <- lift (lyrics_text lyrics) ;;
               write_text (path_join env lyrics_dir (base_name ++ lit ".txt"))
                 text
           else ret tt) ;;
          if save_subtitles && nonempty lrc_text then
            save_srt (path_join env lyrics_dir (base_name ++ lit ".srt"))
              lrc_text
          else ret tt)
         is_Exception (fun _ => ret tt)
     else ret tt)
    is_Exception (fun _ => ret tt).

(** The branch of [download_track] that stores the lyrics next to the
    file when no metadata is embedded. *)
Definition save_lyrics_beside (filepath : str) (track_id : json)
    (save_lyrics save_subtitles : bool) : M World unit :=
  if save_lyrics || save_subtitles then
    try_except
      (lyrics_raw <- get_lyrics track_id ;;
       if truthy lyrics_raw then
         pl <- split_lyrics lyrics_raw ;;
         let '(plain_text, lrc_text) := pl in
         (if save_lyrics then
            if nonempty lrc_text then
              write_text (with_suffix env filepath (lit ".lrc"))
                (default [] lrc_text)
            else if nonempty plain_text then
              write_text (with_suffix env filepath (lit ".txt"))
                (default [] plain_text)
            else ret tt
          else ret tt) ;;
         if save_subtitles && nonempty lrc_text then
           save_srt (with_suffix env filepath (lit ".srt")) lrc_text
         else ret tt
       else ret tt)
      is_Exception (fun _ => ret tt)
  else ret tt.

(** The chunk loop of [download_track]:
    [async for chunk in response.content.iter_chunked(8192)]. *)
Fixpoint write_chunks (filepath : str) (cs : list bytes) : M World unit :=
  match cs with
  | [] => ret tt
  | chunk :: rest =>
      write_chunk filepath chunk ;;
      add_total_data_downloaded (Z.of_nat (length chunk)) ;;
      write_chunks filepath rest
  end.

(** The body of [async with self.session.get(stream_url) as response]. *)
Definition store_stream (response : response) (filepath : str)
    (track_data track_id : json)
    (embed_metadata_ download_cover save_lyrics save_subtitles : bool)
    : M World (flow bool) :=
  if status response =? 200 then
    open_wb filepath ;;
    write_chunks filepath (chunks response) ;;
    match chunks_error response with
    | Some e => raise e
    | None =>
        incr_successful_downloads ;;
        (if embed_metadata_ then
           _embed_track_metadata filepath track_data track_id download_cover
             save_lyrics save_subtitles
         else save_lyrics_beside filepath track_id save_lyrics save_subtitles) ;;
        ret (Return true)
    end
  else ret Pass.

(** The quality [download_track] settles on when it probes:
    [None] is its [return False] for a track with no tier at all. *)
Definition resolve_quality (track_id : json) (quality : str)
    : M World (option str) :=
  quality_results <- check_track_qualities track_id ;;
  available <- lift (reported_available quality_results quality) ;;
  if negb (truthy available) then
    let best_quality := get_best_available_quality quality_results in
    if nonempty best_quality then ret best_quality else ret None
  else ret (Some quality).

(** [download_track]. [target_dir] is a [Path] when given. *)
Definition download_track (track_id : json) (quality : str)
    (custom_filename : option str) (embed_metadata_ download_cover : bool)
    (target_dir : option str) (position : json)
    (save_lyrics save_subtitles : bool) : M World bool :=
  r <- try_except
    (track_info <- get_tracks [track_id] true ;;
     missing <- lift (lacks_result track_info) ;;
     if missing then ret (Return false) else
     result <- lift (getitem track_info (lit "result")) ;;
     tracks <- lift (getitem result (lit "tracks")) ;;
     track_data <- lift (get tracks (py_str (repr env) track_id)) ;;
     if negb (truthy track_data) then ret (Return false) else
     resolved <-
       (if embed_metadata_ then resolve_quality track_id quality
        else ret (Some quality)) ;;
     match resolved with
     | None => ret (Return false)
     | Some quality =>
         stream_url <- get_stream_url track_id quality ;;
         if negb (truthy stream_url) then ret (Return false) else
         let dest_dir := default (download_path config) target_dir in
         mkdir dest_dir ;;
         filename <-
           (if nonempty custom_filename then ret (default [] custom_filename)
            else lift (track_filename track_data quality position)) ;;
         let filepath := path_join env dest_dir filename in
         url <-
           match stream_url with
           | JStr u => ret u
           | _ => raise (Exception "TypeError")
           end ;;
         response <- request (lit "GET") url [] ;;
         store_stream response filepath track_data track_id embed_metadata_
           download_cover save_lyrics save_subtitles
     end)
    is_Exception (fun _ => ret Pass) ;;
  match r with
  | Return b => ret b
  | _ => incr_failed_downloads ;; ret false
  end.

(** *** Releases *)

(** The year of [download_release]: the first four characters of
    [str(date_val)] when they are digits. *)
Definition release_year (date_val : json) : option str :=
  if truthy date_val then
    let ds := py_str (repr env) date_val in
    if (4 <=? length ds)%nat && str_isdigit (take 4 ds) then Some (take 4 ds)
    else None
  else None.

(** The label of [download_release]: LP, SINGLE, EP or none. *)
Definition release_label (release_type track_ids : json) : option str :=
  if eq_str release_type (lit "album") then Some (lit "LP")
  else
    match track_ids with
    | JArr ids =>
        if (length ids =? 1)%nat then Some (lit "SINGLE")
        else if (2 <=? length ids)%nat && (length ids <=? 6)%nat
        then Some (lit "EP")
        else None
    | _ => None
    end.

(** The parts joined into the folder name. *)
Definition release_name_parts (album_index : option Z) (year_str : option str)
    (release_title : str) (label : option str) : list str :=
  (match album_index with
   | Some i => if 0 <? i then [format_02d i ++ lit "."] else []
   | None => []
   end)
  ++ (if nonempty year_str then [lit "[" ++ default [] year_str ++ lit "]"]
      else [])
  ++ [release_title]
  ++ (if nonempty label then [lit "[" ++ default [] label ++ lit "]"]
      else []).

(** The folder name of [download_release]; joining raises when the
    title is not a string. *)
Definition release_folder_name (release_id : Z) (release_data : json)
    (album_index : option Z) : outcome str :=
  obind (get_default release_data (lit "title")
           (JStr (lit "Release_" ++ str_of_int release_id)))
    (fun release_title =>
  obind (get release_data (lit "date")) (fun date_val =>
  let year_str := release_year date_val in
  obind (get_default release_data (lit "type") (JStr [])) (fun release_type =>
  obind (get_default release_data (lit "track_ids") (JArr []))
    (fun track_ids =>
  let label := release_label release_type track_ids in
  match release_title with
  | JStr title =>
      let name_parts := release_name_parts album_index year_str title label in
      let folder_name := join (lit " ") name_parts in
      Ret (sanitize_folder folder_name)
  | _ => Raise (Exception "TypeError")
  end)))).

(** The loop of [download_release] that collects one task per track id
    with a record among [tracks_data]. *)
Fixpoint release_tasks (track_ids : list json) (tracks_data : json)
    (quality : str) (release_folder : str) (save_lyrics save_subtitles : bool)
    : outcome (list (M World bool)) :=
  match track_ids with
  | [] => Ret []
  | track_id :: rest =>
      obind (get_default tracks_data (py_str (repr env) track_id) (JObj []))
        (fun track_info =>
      obind (if truthy track_info then
               obind (get_default track_info (lit "position") (JInt 0))
                 (fun position =>
                    Ret [download_track track_id quality None true true
                           (Some release_folder) position
                           save_lyrics save_subtitles])
             else Ret [])
        (fun task =>
      obind (release_tasks rest tracks_data quality release_folder
               save_lyrics save_subtitles)
        (fun tasks => Ret (task ++ tasks))))
  end.

(** [sum(1 for result in results if result is True)] *)
Definition count_true (results : list (outcome bool)) : Z :=
  Z.of_nat (length (List.filter
    (fun r => match r with Ret true => true | _ => false end) results)).

(** [download_release] *)
Definition download_release (release_id : Z) (quality : str)
    (save_lyrics save_subtitles : bool) (album_index : option Z)
    : M World Z :=
  release_info <- get_releases [JInt release_id] true ;;
  missing <- lift (lacks_result release_info) ;;
  if missing then ret 0 else
  result <- lift (getitem release_info (lit "result")) ;;
  releases <- lift (getitem result (lit "releases")) ;;
  release_data <- lift (get releases (str_of_int release_id)) ;;
  tracks_data <- lift (get_default result (lit "tracks") (JObj [])) ;;
  if negb (truthy release_data) || negb (truthy tracks_data) then ret 0
  else
  folder_name <- lift (release_folder_name release_id release_data
                         album_index) ;;
  track_ids <- lift (get_default release_data (lit "track_ids") (JArr [])) ;;
  let release_folder := path_join env (download_path config) folder_name in
  mkdir release_folder ;;
  ids <- lift (iter track_ids) ;;
  tasks <- lift (release_tasks ids tracks_data quality release_folder
                   save_lyrics save_subtitles) ;;
  results <- gather_return_exceptions tasks ;;
  let downloaded_count := count_true results in
  _ <- lift (len track_ids) ;;
  ret downloaded_count.

End Bot.
End ZvukMultiBot.

(** ** zvuk_multibot.py: the command line *)

Module ZvukMultiBotCLI.
Import Py.

Section CLI.
Context {U : UnicodeData} (repr : json -> str).

(** The [mapping] of [normalize_quality]. *)
Definition mapping : gmap str str :=
  list_to_map
    [ (lit "f", lit "flac");
      (lit "h", lit "high");
      (lit "m", lit "mid");
      (lit "flac", lit "flac");
      (lit "high", lit "high");
      (lit "mid", lit "mid");
      (lit "320", lit "high");
      (lit "128", lit "mid") ].

(** [normalize_quality]; [None] is a missing [quality]. *)
Definition normalize_quality (quality : option str) : str :=
  let q := lower (strip (default [] quality)) in
  default (lit "high") (mapping !! q).

(** [release_type == 'album' or track_count >= 7] *)
Definition album_like (release_type : json) (track_count : Z) : bool :=
  eq_str release_type (lit "album") || (7 <=? track_count).

(** [releases_data.items()] *)
Definition items (releases_data : json) : outcome dict :=
  match releases_data with
  | JObj d => Ret d
  | _ => Raise (Exception "AttributeError")
  end.

(** The filtering loop of [cmd_download_artist]. *)
Fixpoint filter_releases (releases : dict) (skip_singles : bool)
    : outcome (list (Z * json)) :=
  match releases with
  | [] => Ret []
  | (release_id, release_data) :: rest =>
      obind (get_default release_data (lit "type") (JStr []))
        (fun release_type =>
      obind (get_default release_data (lit "track_ids") (JArr []))
        (fun track_ids =>
      obind (len track_ids) (fun track_count =>
      obind (if skip_singles then
               if album_like release_type track_count then
                 obind (int_of_str release_id) (fun i =>
                   Ret [(i, release_data)])
               else Ret []
             else
               obind (int_of_str release_id) (fun i =>
                 Ret [(i, release_data)]))
        (fun kept =>
      obind (filter_releases rest skip_singles) (fun more =>
      Ret (kept ++ more))))))
  end.

Definition is_ValueError (e : exn) : bool :=
  match e with
  | Exception name => bool_decide (name = "ValueError"%string)
  | _ => false
  end.

(** [_release_date_int] *)
Definition _release_date_int (data : json) : outcome Z :=
  obind (get data (lit "date")) (fun dv =>
    match dv with
    | JNull => Ret 99999999
    | _ =>
        let ds := py_str repr dv in
        let ds := take 8 (List.filter isdigit ds) in
        match ds with
        | [] => Ret 99999999
        | _ =>
            match int_of_str ds with
            | Ret n => Ret n
            | Raise e => if is_ValueError e then Ret 99999999 else Raise e
            end
        end
    end).

(** [list.sort(key=..., reverse=True)]: descending by key, elements of
    equal key kept in their order. The keys are computed first. *)
Fixpoint insert_desc {A} (k : Z) (x : A) (l : list (Z * A)) : list (Z * A) :=
  match l with
  | [] => [(k, x)]
  | (k', y) :: l' =>
      if k <? k' then (k', y) :: insert_desc k x l'
      else (k, x) :: (k', y) :: l'
  end.

Definition sort_desc {A} (l : list (Z * A)) : list (Z * A) :=
  fold_right (fun kx acc => insert_desc (fst kx) (snd kx) acc) [] l.

Fixpoint with_keys {A} (key : A -> outcome Z) (l : list A)
    : outcome (list (Z * A)) :=
  match l with
  | [] => Ret []
  | x :: rest =>
      obind (key x) (fun k =>
      obind (with_keys key rest) (fun ks => Ret ((k, x) :: ks)))
  end.

Definition sort_reverse_by {A} (key : A -> outcome Z) (l : list A)
    : outcome (list A) :=
  obind (with_keys key l) (fun ks => Ret (List.map snd (sort_desc ks))).

(** The releases [cmd_download_artist] goes on to download: filtered,
    sorted by date, cut to [limit]. *)
Definition albums_to_download (releases_data : json) (skip_singles : bool)
    (limit : Z) : outcome (list (Z * json)) :=
  obind (items releases_data) (fun releases =>
  obind (filter_releases releases skip_singles) (fun albums =>
  obind (sort_reverse_by (fun pair => _release_date_int (snd pair)) albums)
    (fun sorted => Ret (slice_to limit sorted)))).

End CLI.
End ZvukMultiBotCLI.

(** ** ZvukDownloader.py: the synchronous downloader *)

Module SberZvukDownloader.
Import Py Exec.
Local Open Scope exec_scope.

Inductive event :=
| HttpGet (url : str) (params : dict)       (* requests.get *)
| Mkdir (p : str)
| OpenWrite (p : str)
| WriteChunk (p : str) (chunk : bytes)
| WriteTags (p : str) (format : str)         (* mutagen: tags and cover *)
| WriteLyrics (p : str).                     (* mutagen: lyrics tag *)

(** [self.failed_tracks] and the outside world. *)
Record State := {
  failed_tracks : list json;
  clock : nat;
  events : list event
}.

(** A [requests.Response]. *)
Record response := {
  status_code : Z;
  json_body : outcome json;          (* response.json() *)
  content : bytes;                   (* response.content *)
  iter_content : list bytes;         (* r.iter_content(chunk_size=8192) *)
  iter_error : option exn
}.

(** The service, the filesystem and the tag library. *)
Record Env := {
  repr : json -> str;
  path_join : str -> str -> str;
  http_get : nat -> str -> dict -> outcome response;
  fs_error : nat -> str -> option exn;
  tag_error : nat -> str -> option exn
}.

Definition base_url : str := lit "https://zvuk.com/api/tiny/".

(** [s.replace(old, new)] for a non-empty [old]. *)
Fixpoint replace_from (old new s : str) (skip : nat) : str :=
  match s with
  | [] => []
  | c :: s' =>
      match skip with
      | S k => replace_from old new s' k
      | O =>
          if starts_with old s then new ++ replace_from old new s' (length old - 1)
          else c :: replace_from old new s' 0
      end
  end.

Definition replace (old new s : str) : str := replace_from old new s 0.

Definition tick : M State nat :=
  fun s =>
    (Ret (clock s),
     {| failed_tracks := failed_tracks s; clock := S (clock s);
        events := events s |}).

Definition emit (e : event) : M State unit :=
  modify (fun s =>
    {| failed_tracks := failed_tracks s; clock := clock s;
       events := events s ++ [e] |}).

(** [self.failed_tracks.append(x)] *)
Definition failed_tracks_append (x : json) : M State unit :=
  modify (fun s =>
    {| failed_tracks := failed_tracks s ++ [x]; clock := clock s;
       events := events s |}).

(** The texts [add_metadata] writes for a missing album title and a
    missing release date, as code points. *)
Definition unknown_album : str :=
  [ 1053; 1077; 1080; 1079; 1074; 1077; 1089; 1090; 1085; 1099; 1081; 32;
    1072; 1083; 1100; 1073; 1086; 1084 ]%N.

Definition unknown_date : str :=
  [ 1053; 1077; 1080; 1079; 1074; 1077; 1089; 1090; 1085; 1072; 1103; 32;
    1076; 1072; 1090; 1072 ]%N.

(** [v[:4]]: a string, a list or a byte string is cut; nothing else can
    be sliced (a dictionary raises [TypeError], [KeyError] from
    Python 3.12 on). *)
Definition first_four (v : json) : outcome json :=
  match v with
  | JStr s => Ret (JStr (slice_to 4 s))
  | JArr l => Ret (JArr (slice_to 4 l))
  | JBytes b => Ret (JBytes (slice_to 4 b))
  | _ => Raise (Exception "TypeError")
  end.

(** [response.raise_for_status()] *)
Definition raise_for_status (r : response) : outcome unit :=
  if (400 <=? status_code r) && (status_code r <? 600)
  then Raise (Exception "HTTPError") else Ret tt.

Section Downloader.
Context {U : UnicodeData} (env : Env) (config : json).

Definition requests_get (url : str) (params : dict) : M State response :=
  t <- tick ;;
  emit (HttpGet url params) ;;
  lift (http_get env t url params).

Definition fs_check (p : str) : M State unit :=
  t <- tick ;;
  match fs_error env t p with
  | Some e => raise e
  | None => ret tt
  end.

Definition tag_check (p : str) : M State unit :=
  t <- tick ;;
  match tag_error env t p with
  | Some e => raise e
  | None => ret tt
  end.

(** A value used where the library wants a string. *)
Definition as_str (v : json) : outcome str :=
  match v with
  | JStr s => Ret s
  | _ => Raise (Exception "TypeError")
  end.

(** [add_metadata] *)
Definition add_metadata (file_path : str) (track_info : json) (format : str)
    : M State unit :=
  try_except
    (resolution <- lift (getitem config (lit "cover_resolution")) ;;
     let cover_size :=
       if eq_str resolution (lit "1") then lit "max" else lit "500x500" in
     image <- lift (getitem track_info (lit "image")) ;;
     src <- lift (getitem image (lit "src")) ;;
     src <- lift (match src with
                  | JStr s => Ret s
                  | _ => Raise (Exception "AttributeError")
                  end) ;;
     let cover_url :=
       replace (lit "&size={size}&ext=jpg")
         (lit "&size=" ++ cover_size ++ lit "&ext=jpg") src in
     _ <- requests_get cover_url [] ;;
     tag_check file_path ;;
     _ <- lift (getitem track_info (lit "artist_names")) ;;
     _ <- lift (getitem track_info (lit "title")) ;;
     _ <- lift (get_default track_info (lit "release_title")
                  (JStr unknown_album)) ;;
     _ <- lift (get_default track_info (lit "position") (JInt 0)) ;;
     release_date <- lift (get_default track_info (lit "release_date")
                             (JStr unknown_date)) ;;
     _ <- lift (first_four release_date) ;;
     emit (WriteTags file_path format))
    is_Exception
    (fun _ =>
       id <- lift (getitem track_info (lit "id")) ;;
       failed_tracks_append id).

(** [add_lyrics] *)
Definition add_lyrics (file_path : str) (track_id : json) : M State unit :=
  try_except
    (response <- requests_get (base_url ++ lit "musixmatch/lyrics")
                   [(lit "track_id", track_id)] ;;
     if status_code response =? 200 then
       body <- lift (json_body response) ;;
       result <- lift (getitem body (lit "result")) ;;
       _ <- lift (getitem result (lit "lyrics")) ;;
       _ <- lift (getitem config (lit "format")) ;;
       tag_check file_path ;;
       emit (WriteLyrics file_path)
     else ret tt)
    is_Exception (fun _ => ret tt).

Fixpoint write_chunks (file_path : str) (cs : list bytes) : M State unit :=
  match cs with
  | [] => ret tt
  | chunk :: rest => emit (WriteChunk file_path chunk) ;; write_chunks file_path rest
  end.

(** ['flac' if self.config.get('format', '1') == '1' else 'high'] *)
Definition preferred_format : outcome str :=
  obind (get_default config (lit "format") (JStr (lit "1"))) (fun f =>
    Ret (if eq_str f (lit "1") then lit "flac" else lit "high")).

(** ['flac' if track_info.get('has_flac', False) else 'high'] *)
Definition available_format (track_info : json) : outcome str :=
  obind (get_default track_info (lit "has_flac") (JBool false)) (fun has_flac =>
    Ret (if truthy has_flac then lit "flac" else lit "high")).

(** [download_track]. The messages it prints are left out, the lookups
    they make in [track_info] and [config] are kept. *)
Definition download_track (track_info : json) : M State unit :=
  if negb (truthy track_info) then ret tt else
  track_id <- lift (getitem track_info (lit "id")) ;;
  preferred <- lift preferred_format ;;
  available <- lift (available_format track_info) ;;
  skip <-
    (if negb (str_eqb preferred available) then
       fallback <- lift (getitem config (lit "fallback_to_lower_quality")) ;;
       ret (negb (truthy fallback))
     else ret false) ;;
  if skip then
    _ <- lift (getitem track_info (lit "title")) ;;
    failed_tracks_append track_id
  else
    try_except
      (let stream_url := base_url ++ lit "track/stream" in
       let params := [(lit "id", track_id); (lit "quality", JStr available)] in
       response <- requests_get stream_url params ;;
       lift (raise_for_status response) ;;
       body <- lift (json_body response) ;;
       result <- lift (getitem body (lit "result")) ;;
       track_url <- lift (getitem result (lit "stream")) ;;
       let file_extension :=
         if str_eqb available (lit "flac") then lit "flac" else lit "mp3" in
       names <- lift (getitem track_info (lit "artist_names")) ;;
       artist <- lift (index0 names) ;;
       title <- lift (getitem track_info (lit "title")) ;;
       let file_name :=
         py_str (repr env) artist ++ lit " - " ++ py_str (repr env) title
         ++ lit "." ++ file_extension in
       dir <- lift (get_default config (lit "download_path")
                      (JStr (lit "./music"))) ;;
       download_path <- lift (as_str dir) ;;
       fs_check download_path ;;
       emit (Mkdir download_path) ;;
       let file_path :=
         path_join env download_path (replace (lit "/") (lit "_") file_name) in
       _ <- lift (getitem config (lit "lyrics")) ;;
       track_url <- lift (as_str track_url) ;;
       r <- requests_get track_url [] ;;
       lift (raise_for_status r) ;;
       fs_check file_path ;;
       emit (OpenWrite file_path) ;;
       write_chunks file_path (iter_content r) ;;
       match iter_error r with
       | Some e => raise e
       | None =>
           add_metadata file_path track_info available ;;
           lyrics <- lift (getitem config (lit "lyrics")) ;;
           if truthy lyrics then add_lyrics file_path track_id else ret tt
       end)
      is_Exception
      (fun _ =>
         _ <- lift (getitem track_info (lit "title")) ;;
         failed_tracks_append track_id).

End Downloader.
End SberZvukDownloader.

(** ** What the specification says, in its own words *)

Module Spec.
Import Py.

(** The aliases of the quality tiers, grouped by tier. *)
Definition aliases : list (str * str) :=
  [ (lit "f", lit "flac"); (lit "flac", lit "flac");
    (lit "h", lit "high"); (lit "high", lit "high"); (lit "320", lit "high");
    (lit "m", lit "mid"); (lit "mid", lit "mid"); (lit "128", lit "mid") ].

(** A release is album-like if typed as album by the service or if it
    has at least 7 tracks. *)
Definition typed_album (release_data : json) : bool :=
  match release_data with
  | JObj d =>
      match assoc (lit "type") d with
      | Some (JStr t) => str_eqb t (lit "album")
      | _ => false
      end
  | _ => false
  end.

Definition track_count (release_data : json) : Z :=
  match release_data with
  | JObj d =>
      match assoc (lit "track_ids") d with
      | Some (JArr ids) => Z.of_nat (length ids)
      | _ => 0
      end
  | _ => 0
  end.

Definition album_like (release_data : json) : bool :=
  typed_album release_data || (7 <=? track_count release_data).

(** A release entry as the service sends it: a decimal id as key, a
    record whose track ids, when present, form a list. *)
Definition release_entry_ok {U : UnicodeData} (entry : str * json) : bool :=
  match int_of_str (fst entry), snd entry with
  | Ret _, JObj d =>
      match assoc (lit "track_ids") d with
      | Some (JArr _) | None => true
      | _ => false
      end
  | _, _ => false
  end.



Definition bracketed (s : str) : str := lit "[" ++ s ++ lit "]".

Definition name_parts (index : option Z) (year : option str) (title : str)
    (label : option str) : list str :=
  match index with
  | Some i => if 0 <? i then [format_02d i ++ lit "."] else []
  | None => []
  end
  ++ match year with Some y => [bracketed y] | None => [] end
  ++ [title]
  ++ match label with Some l => [bracketed l] | None => [] end.



(** An attempt of the transport fails: the exchange raises a timeout or
    another exception, or answers with a status other than 200, or a
    200 whose body cannot be read. *)
Definition raises_Exception {A} (o : outcome A) : bool :=
  match o with Raise e => is_Exception e | Ret _ => false end.

Definition not_cancelled {A} (o : outcome A) : bool :=
  match o with Raise CancelledError => false | _ => true end.

Definition attempt_fails (o : outcome ZvukMultiBot.response) : bool :=
  match o with
  | Raise e => is_Exception e
  | Ret r =>
      if ZvukMultiBot.status r =? 418 then true
      else if ZvukMultiBot.status r =? 200 then
        if contains (lit "application/json")
             (default [] (ZvukMultiBot.content_type r))
        then raises_Exception (ZvukMultiBot.json_body r)
        else raises_Exception (ZvukMultiBot.raw_body r)
      else not_cancelled (ZvukMultiBot.text_body r)
  end.




(** Descending order of sort keys. *)
Definition key_ge {A} (a b : Z * A) : Prop := fst b <= fst a.

(** The id a key denotes. *)
Definition entry_id {U : UnicodeData} (key : str) : Z :=
  match int_of_str key with Ret z => z | Raise _ => 0 end.

End Spec.

(** ** Assertions about runs of the bot *)

Module Logic.
Import Py Exec ZvukMultiBot.

(** Events other than the creation of a file and the writing of a chunk
    of the audio stream. *)
Definition quiet (e : event) : bool :=
  match e with
  | OpenWrite _ | WriteChunk _ _ => false
  | _ => true
  end.

(** What every step outside the chunk loop leaves alone: the two
    download counters, the existence of every file, and the audio
    written so far. *)
Record frame (w w' : World) : Prop := {
  frame_successful :
    successful_downloads (stats w') = successful_downloads (stats w);
  frame_failed : failed_downloads (stats w') = failed_downloads (stats w);
  frame_files : forall p, is_Some (files w !! p) -> is_Some (files w' !! p);
  frame_events :
    exists evs, events w' = events w ++ evs /\ forallb quiet evs = true
}.

(** [m] keeps the frame; it returns a value satisfying [Q] or raises an
    [Exception]. *)
Definition may_fail {A} (Q : A -> Prop) (m : M World A) : Prop :=
  forall w,
    frame w (snd (m w)) /\
    match fst (m w) with
    | Ret a => Q a
    | Raise e => is_Exception e = true
    end.

(** [m] keeps the frame and returns a value satisfying [Q]. *)
Definition never_fails {A} (Q : A -> Prop) (m : M World A) : Prop :=
  forall w,
    frame w (snd (m w)) /\
    match fst (m w) with
    | Ret a => Q a
    | Raise _ => False
    end.

(** The two download counters after the [try] block of
    [download_track]: a success is counted exactly when the block
    returns [True], and no failure is counted inside the block. *)
Definition download_post (w : World) (r : outcome (flow bool)) (w' : World)
    : Prop :=
  failed_downloads (stats w') = failed_downloads (stats w) /\
  match r with
  | Ret (Return true) =>
      successful_downloads (stats w') = successful_downloads (stats w) + 1
  | Ret _ => successful_downloads (stats w') = successful_downloads (stats w)
  | Raise e =>
      is_Exception e = true
      /\ successful_downloads (stats w') = successful_downloads (stats w)
  end.

Definition counts_success (m : M World (flow bool)) : Prop :=
  forall w, download_post w (fst (m w)) (snd (m w)).

(** Every task of the list was run, each from the world its
    predecessor left, and what it returned or raised stands at its
    position. *)
Inductive runs_all {A} : list (M World A) -> World -> list (outcome A) ->
    World -> Prop :=
| runs_all_nil w : runs_all [] w [] w
| runs_all_cons t rest w r w1 rs w' :
    t w = (r, w1) -> runs_all rest w1 rs w' ->
    runs_all (t :: rest) w (r :: rs) w'.

(** One single-track flow per track id of a release, rooted at the
    release folder, with the position its record gives. *)
Definition track_tasks {U : UnicodeData} (env : Env) (config : ZvukConfig)
    (ids positions : list json) (quality : str) (release_folder : str)
    (save_lyrics save_subtitles : bool) : list (M World bool) :=
  zip_with
    (fun track_id position =>
       download_track env config track_id quality None true true
         (Some release_folder) position save_lyrics save_subtitles)
    ids positions.

(** A response reads without cancellation. *)
Definition readable (r : response) : Prop :=
  Spec.not_cancelled (json_body r) = true
  /\ Spec.not_cancelled (raw_body r) = true
  /\ Spec.not_cancelled (text_body r) = true
  /\ chunks_error r <> Some CancelledError.

(** Nothing the outside does surfaces as a cancellation: its failures
    are [Exception]s. *)
Record no_cancellation (env : Env) : Prop := {
  nc_request :
    forall t m u k, Spec.not_cancelled (session_request env t m u k) = true;
  nc_response :
    forall t m u k r, session_request env t m u k = Ret r ->
      Spec.not_cancelled (json_body r) = true
      /\ Spec.not_cancelled (raw_body r) = true
      /\ Spec.not_cancelled (text_body r) = true
      /\ chunks_error r <> Some CancelledError;
  nc_fs : forall t p, fs_error env t p <> Some CancelledError;
  nc_qualities :
    forall t i, Spec.not_cancelled (check_all_qualities env t i) = true;
  nc_split : forall l, Spec.not_cancelled (split_lyrics_formats env l) = true;
  nc_cover :
    forall t u, Spec.not_cancelled (download_cover_art env t u) = true;
  nc_optimize :
    forall b, Spec.not_cancelled (optimize_cover_image env b) = true;
  nc_embed :
    forall t p d l c r,
      Spec.not_cancelled (embed_metadata env t p d l c r) = true;
  nc_srt : forall s, Spec.not_cancelled (lrc_to_srt env s) = true
}.


(** A statement of the synchronous downloader only adds to the
    record of what it did. *)
Definition grows {A} (m : M SberZvukDownloader.State A) : Prop :=
  forall s, exists evs,
    SberZvukDownloader.events (snd (m s))
    = SberZvukDownloader.events s ++ evs.

End Logic.

(** ** Concrete inputs *)

Module Examples.
Import Py.

(** No container is printed in the examples. *)
Definition no_repr (v : json) : str := [].

Definition ids (l : list Z) : json := JArr (List.map JInt l).

(** Three releases of an artist: an album of three tracks, a single,
    and an untyped release of seven tracks. *)
Definition night_drive : dict :=
  [ (lit "title", JStr (lit "Night Drive")); (lit "type", JStr (lit "album"));
    (lit "date", JInt 20210604); (lit "track_ids", ids [11; 12; 13]) ].
Definition typed_album_release : json := JObj night_drive.
Definition single_release : json :=
  JObj [ (lit "title", JStr (lit "Spark")); (lit "type", JStr (lit "single"));
         (lit "date", JInt 20230120); (lit "track_ids", ids [21]) ].
Definition long_release : json :=
  JObj [ (lit "title", JStr (lit "Sessions"));
         (lit "date", JInt 20190913);
         (lit "track_ids", ids [31; 32; 33; 34; 35; 36; 37]) ].
Definition three_releases : dict :=
  [ (lit "501", typed_album_release); (lit "502", single_release);
    (lit "503", long_release) ].

(** Two albums, one of them without a release date. *)
Definition dated_release : json :=
  JObj [ (lit "title", JStr (lit "Dated")); (lit "type", JStr (lit "album"));
         (lit "date", JInt 20240315); (lit "track_ids", ids [1; 2]) ].
Definition undated_release : json :=
  JObj [ (lit "title", JStr (lit "Undated")); (lit "type", JStr (lit "album"));
         (lit "track_ids", ids [3]) ].
Definition two_releases : json :=
  JObj [ (lit "101", dated_release); (lit "102", undated_release) ].

(** *** A scripted service for the bot *)

Definition fresh : ZvukMultiBot.World :=
  {| ZvukMultiBot.stats := ZvukMultiBot.zero_stats;
     ZvukMultiBot.clock := 0;
     ZvukMultiBot.events := [];
     ZvukMultiBot.files := ∅ |}.

Definition json_response (data : json) : ZvukMultiBot.response :=
  {| ZvukMultiBot.status := 200;
     ZvukMultiBot.content_type := Some (lit "application/json; charset=utf-8");
     ZvukMultiBot.json_body := Ret data;
     ZvukMultiBot.raw_body := Ret [];
     ZvukMultiBot.text_body := Ret [];
     ZvukMultiBot.chunks := [];
     ZvukMultiBot.chunks_error := None |}.

Definition status_response (code : Z) : ZvukMultiBot.response :=
  {| ZvukMultiBot.status := code;
     ZvukMultiBot.content_type := Some (lit "text/html");
     ZvukMultiBot.json_body := Raise (Exception "ContentTypeError");
     ZvukMultiBot.raw_body := Ret [];
     ZvukMultiBot.text_body := Ret (lit "error");
     ZvukMultiBot.chunks := [];
     ZvukMultiBot.chunks_error := None |}.

(** A 200 announced as JSON whose body does not decode. *)
Definition garbled_response : ZvukMultiBot.response :=
  {| ZvukMultiBot.status := 200;
     ZvukMultiBot.content_type := Some (lit "application/json");
     ZvukMultiBot.json_body := Raise (Exception "JSONDecodeError");
     ZvukMultiBot.raw_body := Ret [];
     ZvukMultiBot.text_body := Ret [];
     ZvukMultiBot.chunks := [];
     ZvukMultiBot.chunks_error := None |}.

Definition audio_response (cs : list bytes) : ZvukMultiBot.response :=
  {| ZvukMultiBot.status := 200;
     ZvukMultiBot.content_type := Some (lit "audio/mpeg");
     ZvukMultiBot.json_body := Raise (Exception "ContentTypeError");
     ZvukMultiBot.raw_body := Ret (concat cs);
     ZvukMultiBot.text_body := Raise (Exception "UnicodeDecodeError");
     ZvukMultiBot.chunks := cs;
     ZvukMultiBot.chunks_error := None |}.

(** An environment around a given network in which everything that
    serves the embedding fails: no cover can be fetched, the tag writer
    raises, lyrics do not split. *)
Definition env_around
    (net : nat -> str -> str -> dict -> outcome ZvukMultiBot.response)
    (qualities : json) : ZvukMultiBot.Env :=
  {| ZvukMultiBot.repr := no_repr;
     ZvukMultiBot.urljoin := fun base endpoint => base ++ endpoint;
     ZvukMultiBot.path_join := fun a b => a ++ lit "/" ++ b;
     ZvukMultiBot.with_suffix := fun p suffix => p ++ suffix;
     ZvukMultiBot.parent := fun p => p;
     ZvukMultiBot.stem := fun p => p;
     ZvukMultiBot.session_request := net;
     ZvukMultiBot.fs_error := fun _ _ => None;
     ZvukMultiBot.check_all_qualities := fun _ _ => Ret qualities;
     ZvukMultiBot.split_lyrics_formats :=
       fun _ => Raise (Exception "ValueError");
     ZvukMultiBot.download_cover_art :=
       fun _ _ => Raise (Exception "ClientError");
     ZvukMultiBot.optimize_cover_image :=
       fun _ => Raise (Exception "OSError");
     ZvukMultiBot.embed_metadata :=
       fun _ _ _ _ _ _ => Raise (Exception "MutagenError");
     ZvukMultiBot.lrc_to_srt := fun _ => Raise (Exception "ValueError") |}.

Definition no_qualities : json := JObj [].

(** Five different ways for an attempt to fail. *)
Definition failing_net (t : nat) (method url : str) (kwargs : dict)
    : outcome ZvukMultiBot.response :=
  match t with
  | 0%nat => Ret (status_response 503)
  | 1%nat => Raise TimeoutError
  | 2%nat => Ret (status_response 418)
  | 3%nat => Raise (Exception "ClientConnectorError")
  | _ => Ret garbled_response
  end.

Definition failing_env : ZvukMultiBot.Env := env_around failing_net no_qualities.

(** A 418 first, then the profile. *)
Definition profile : json :=
  JObj [ (lit "result", JObj [ (lit "profile", JObj [ (lit "id", JInt 7) ]) ]) ].

Definition teapot_net (t : nat) (method url : str) (kwargs : dict)
    : outcome ZvukMultiBot.response :=
  match t with
  | 0%nat => Ret (status_response 418)
  | _ => Ret (json_response profile)
  end.

Definition teapot_env : ZvukMultiBot.Env := env_around teapot_net no_qualities.

(** A flow cancelled during its second attempt. *)
Definition cancelled_net (t : nat) (method url : str) (kwargs : dict)
    : outcome ZvukMultiBot.response :=
  match t with
  | 0%nat => Ret (status_response 500)
  | _ => Raise CancelledError
  end.

Definition cancelled_env : ZvukMultiBot.Env :=
  env_around cancelled_net no_qualities.

(** No network at all. *)
Definition offline_net (t : nat) (method url : str) (kwargs : dict)
    : outcome ZvukMultiBot.response :=
  Raise (Exception "ClientConnectorError").

Definition offline_env : ZvukMultiBot.Env := env_around offline_net no_qualities.

(** A release of three tracks. The service knows the release and its
    tracks, serves the audio of tracks 1 and 3, answers 404 when asked
    where the stream of track 2 is, and times out on lyrics. Only the
    high tier is available. *)
Definition track_record (id position : Z) (title : string) : str * json :=
  (str_of_int id,
   JObj [ (lit "id", JInt id); (lit "title", JStr (lit title));
          (lit "artist_names", JArr [JStr (lit "Trio")]);
          (lit "position", JInt position);
          (lit "image", JObj [ (lit "src", JStr (lit "https://cdn.zvuk.com/pic")) ]) ]).

Definition trio_tracks : json :=
  JObj [ track_record 1 1 "One"; track_record 2 2 "Two";
         track_record 3 3 "Three" ].

Definition trio_release : json :=
  JObj [ (lit "title", JStr (lit "Trio Live")); (lit "type", JStr (lit "single"));
         (lit "date", JInt 20220101); (lit "track_ids", ids [1; 2; 3]) ].

Definition trio_info : json :=
  JObj [ (lit "result",
          JObj [ (lit "releases", JObj [ (lit "700", trio_release) ]);
                 (lit "tracks", trio_tracks) ]) ].

Definition tracks_info : json :=
  JObj [ (lit "result", JObj [ (lit "tracks", trio_tracks) ]) ].

Definition stream_info : json :=
  JObj [ (lit "result",
          JObj [ (lit "stream", JStr (lit "https://cdn.zvuk.com/stream")) ]) ].

Definition requested_id (kwargs : dict) : json :=
  match assoc (lit "params") kwargs with
  | Some (JObj params) => default JNull (assoc (lit "id") params)
  | _ => JNull
  end.

Definition audio : list bytes :=
  [ [Byte.x49; Byte.x44; Byte.x33]; [Byte.x04; Byte.x00] ].

Definition trio_net (t : nat) (method url : str) (kwargs : dict)
    : outcome ZvukMultiBot.response :=
  if str_eqb url (lit "https://zvuk.com/api/tiny/releases")
  then Ret (json_response trio_info)
  else if str_eqb url (lit "https://zvuk.com/api/tiny/tracks")
  then Ret (json_response tracks_info)
  else if str_eqb url (lit "https://zvuk.com/api/tiny/track/stream")
  then match requested_id kwargs with
       | JInt 2 => Ret (status_response 404)
       | _ => Ret (json_response stream_info)
       end
  else if str_eqb url (lit "https://zvuk.com/api/tiny/lyrics")
  then Raise TimeoutError
  else if str_eqb url (lit "https://cdn.zvuk.com/stream")
  then Ret (audio_response audio)
  else Ret (status_response 404).

Definition only_high : json :=
  JObj [ (lit "flac", JObj [ (lit "available", JBool false) ]);
         (lit "high", JObj [ (lit "available", JBool true) ]);
         (lit "mid", JObj [ (lit "available", JBool false) ]) ].

Definition trio_env : ZvukMultiBot.Env := env_around trio_net only_high.

(** *** The synchronous downloader's inputs *)

Definition legacy_env : SberZvukDownloader.Env :=
  {| SberZvukDownloader.repr := no_repr;
     SberZvukDownloader.path_join := fun a b => a ++ lit "/" ++ b;
     SberZvukDownloader.http_get :=
       fun _ _ _ => Raise (Exception "ConnectionError");
     SberZvukDownloader.fs_error := fun _ _ => None;
     SberZvukDownloader.tag_error := fun _ _ => None |}.

Definition legacy_config (fallback : bool) : dict :=
  [ (lit "token", JStr (lit "secret")); (lit "format", JStr (lit "1"));
    (lit "lyrics", JBool false); (lit "download_path", JStr (lit "./music"));
    (lit "fallback_to_lower_quality", JBool fallback);
    (lit "cover_resolution", JBool true) ].

Definition lossy_track : dict :=
  [ (lit "id", JInt 116136641); (lit "title", JStr (lit "Song"));
    (lit "artist_names", JArr [JStr (lit "Artist")]);
    (lit "has_flac", JBool false) ].

(** A service that answers: the stream location, the audio, the cover. *)
Definition legacy_response (body : outcome json) (cs : list bytes)
    : SberZvukDownloader.response :=
  {| SberZvukDownloader.status_code := 200;
     SberZvukDownloader.json_body := body;
     SberZvukDownloader.content := concat cs;
     SberZvukDownloader.iter_content := cs;
     SberZvukDownloader.iter_error := None |}.

Definition legacy_net (t : nat) (url : str) (params : dict)
    : outcome SberZvukDownloader.response :=
  if str_eqb url (lit "https://zvuk.com/api/tiny/track/stream")
  then Ret (legacy_response (Ret stream_info) [])
  else Ret (legacy_response (Raise (Exception "JSONDecodeError")) audio).

Definition answering_env : SberZvukDownloader.Env :=
  {| SberZvukDownloader.repr := no_repr;
     SberZvukDownloader.path_join := fun a b => a ++ lit "/" ++ b;
     SberZvukDownloader.http_get := legacy_net;
     SberZvukDownloader.fs_error := fun _ _ => None;
     SberZvukDownloader.tag_error := fun _ _ => None |}.

Definition lossy_track_with_cover : dict :=
  lossy_track
  ++ [ (lit "image",
        JObj [ (lit "src",
                JStr (lit "https://cdn.zvuk.com/pic?x=1&size={size}&ext=jpg")) ]) ].

Definition legacy_start : SberZvukDownloader.State :=
  {| SberZvukDownloader.failed_tracks := [];
     SberZvukDownloader.clock := 0;
     SberZvukDownloader.events := [] |}.

End Examples.

(** ** zvuk_multibot.py: profile, playlists and the releases of an artist *)

Module ZvukMultiBotArtist.
Import Py Exec ZvukMultiBot.
Local Open Scope exec_scope.

(** [int(v)] for the bytes of a byte string: ASCII digits between
    optional ASCII whitespace, a sign in front, single underscores
    between digits. *)
Definition bytes_isspace (c : char) : bool := in_range 9 13 c || (c =? 32)%N.

Fixpoint bytes_digits (s : str) (after_digit : bool) (acc : Z) : option Z :=
  match s with
  | [] => if after_digit then Some acc else None
  | c :: s' =>
      if (c =? 95)%N then
        if after_digit then bytes_digits s' false acc else None
      else
        match ascii_digit_value c with
        | Some d => bytes_digits s' true (10 * acc + Z.of_N d)
        | None => None
        end
  end.

Fixpoint bytes_lstrip (s : str) : str :=
  match s with
  | [] => []
  | c :: s' => if bytes_isspace c then bytes_lstrip s' else s
  end.

Definition int_of_bytes (b : bytes) : outcome Z :=
  let s := List.map Byte.to_N b in
  let s := rev (bytes_lstrip (rev (bytes_lstrip s))) in
  let parsed :=
    match s with
    | 43%N :: r => bytes_digits r false 0
    | 45%N :: r => option_map Z.opp (bytes_digits r false 0)
    | r => bytes_digits r false 0
    end in
  match parsed with
  | Some z => Ret z
  | None => Raise (Exception "ValueError")
  end.

Section Artist.
Context {U : UnicodeData} (env : Env) (config : ZvukConfig).

(** [get_profile] *)
Definition get_profile : M World json :=
  make_request env config (lit "GET") (lit "/api/v2/tiny/profile") [].

(** [get_playlists] *)
Definition get_playlists (playlist_ids : list json) (include_tracks : bool)
    : M World json :=
  make_request env config (lit "GET") (lit "/api/tiny/playlists")
    [(lit "params", JObj (ids_params env playlist_ids include_tracks))].

(** [graphql_query]; the payload holds [variables or {}]. *)
Definition graphql_query (query : str) (variables : json) : M World json :=
  let payload :=
    [ (lit "query", JStr query);
      (lit "variables", if truthy variables then variables else JObj []) ] in
  let headers := [ (lit "Content-Type", JStr (lit "application/json")) ] in
  make_request env config (lit "POST") (lit "/api/v1/graphql")
    [ (lit "json", JObj payload); (lit "headers", JObj headers) ].

(** The query text of [get_artist_releases]. *)
Definition query : str := lit "
        query getArtistReleases($id: ID!, $limit: Int!, $offset: Int!) {
            getArtists(ids: [$id]) {
                releases(limit: $limit, offset: $offset) {
                    id
                }
            }
        }
        ".

(** [50 if limit is None or limit <= 0 else min(50, limit)], for the
    [int] the signature announces. *)
Definition page_size (limit : Z) : Z :=
  if limit <=? 0 then 50 else Z.min 50 limit.

(** [int(v)] *)
Definition py_int (v : json) : outcome Z :=
  match v with
  | JInt z => Ret z
  | JBool b => Ret (if b then 1 else 0)
  | JStr s => int_of_str s
  | JBytes b => int_of_bytes b
  | _ => Raise (Exception "TypeError")
  end.

(** [response and 'data' in response and 'getArtists' in response['data']
     and response['data']['getArtists']], as a truth value. *)
Definition has_artists (response : json) : outcome bool :=
  if truthy response then
    obind (py_in (lit "data") response) (fun has_data =>
      if has_data then
        obind (getitem response (lit "data")) (fun data =>
          obind (py_in (lit "getArtists") data) (fun has_artists =>
            if has_artists then
              obind (getitem data (lit "getArtists")) (fun artists =>
                Ret (truthy artists))
            else Ret false))
      else Ret false)
  else Ret false.

(** The releases of a page; [None] where the loop breaks: the page is
    missing or malformed, or lists no release. *)
Definition page_releases (response : json) : outcome (option json) :=
  obind (has_artists response) (fun ok =>
    if negb ok then Ret None else
    obind (getitem response (lit "data")) (fun data =>
    obind (getitem data (lit "getArtists")) (fun artists =>
    obind (index0 artists) (fun first =>
    obind (get_default first (lit "releases") (JArr [])) (fun releases =>
    if negb (truthy releases) then Ret None else Ret (Some releases)))))).

(** [int(r['id']) for r in releases if 'id' in r] *)
Fixpoint page_ids (releases : list json) : outcome (list Z) :=
  match releases with
  | [] => Ret []
  | r :: rest =>
      obind (py_in (lit "id") r) (fun has_id =>
      obind (if has_id then
               obind (getitem r (lit "id")) (fun v =>
               obind (py_int v) (fun i => Ret [i]))
             else Ret [])
        (fun one =>
      obind (page_ids rest) (fun more => Ret (one ++ more))))
  end.

(** The [while True] loop of [get_artist_releases], at most [fuel]
    pages of it: [None] when the loop is still running after that many
    pages. The pause of 0.3 s between two pages is not recorded, [Sleep]
    counting whole seconds. *)
Fixpoint artist_pages (fuel : nat) (artist_id limit page_size : Z)
    (current_offset : Z) (collected : list Z) : M World (option (list Z)) :=
  match fuel with
  | O => ret None
  | S fuel' =>
      let variables :=
        JObj [ (lit "id", JStr (str_of_int artist_id));
               (lit "limit", JInt page_size);
               (lit "offset", JInt current_offset) ] in
      response <- graphql_query query variables ;;
      page <- lift (page_releases response) ;;
      match page with
      | None => ret (Some collected)
      | Some releases =>
          rs <- lift (iter releases) ;;
          ids <- lift (page_ids rs) ;;
          let collected := collected ++ ids in
          if (0 <? limit) && (limit <=? Z.of_nat (length collected)) then
            ret (Some (slice_to limit collected))
          else
            n <- lift (len releases) ;;
            artist_pages fuel' artist_id limit page_size (current_offset + n)
              collected
      end
  end.

(** [get_artist_releases] *)
Definition get_artist_releases (fuel : nat) (artist_id limit offset : Z)
    : M World (option (list Z)) :=
  artist_pages fuel artist_id limit (page_size limit) offset [].

End Artist.
End ZvukMultiBotArtist.

(** ** zvuk_multibot.py: the listing of [cmd_artist_info] *)

Module ZvukMultiBotListing.
Import Py ZvukMultiBotCLI.

Section Listing.
Context {U : UnicodeData} (repr : json -> str).

(** The year [cmd_artist_info] reads off a release: 0 when there is no
    date or its first four characters are no number. *)
Definition release_year (release_data : json) : outcome Z :=
  obind (get_default release_data (lit "date") (JInt 0)) (fun date_val =>
    if truthy date_val then
      let date_str := py_str repr date_val in
      if (4 <=? length date_str)%nat then
        match int_of_str (slice_to 4 date_str) with
        | Ret year => Ret year
        | Raise e => if is_ValueError e then Ret 0 else Raise e
        end
      else Ret 0
    else Ret 0).

(** [sorted_releases] of [cmd_artist_info]: one row per release, by
    year, the newest first. *)
Definition sorted_releases (releases_data : json)
    : outcome (list (Z * (str * json))) :=
  obind (items releases_data) (fun releases =>
  obind (with_keys (fun entry => release_year (snd entry)) releases)
    (fun rows => Ret (sort_desc rows))).

End Listing.
End ZvukMultiBotListing.

(** ** ZvukDownloader.py: links, albums and playlists *)

Module SberZvukBatch.
Import Py Exec SberZvukDownloader.
Local Open Scope exec_scope.

(** [s.split('/')[-1]]: what follows the last slash. *)
Fixpoint after_last (sep : char) (s acc : str) : str :=
  match s with
  | [] => acc
  | c :: s' =>
      if (c =? sep)%N then after_last sep s' []
      else after_last sep s' (acc ++ [c])
  end.

Definition last_segment (link : str) : str := after_last 47%N link [].

Section Batch.
Context {U : UnicodeData} (env : Env) (config : json).

(** [get_track_info] *)
Definition get_track_info (track_id : json) : M State json :=
  try_except
    (let url := base_url ++ lit "tracks" in
     let params := [(lit "ids", track_id)] in
     response <- requests_get env url params ;;
     lift (raise_for_status response) ;;
     body <- lift (json_body response) ;;
     result <- lift (getitem body (lit "result")) ;;
     tracks <- lift (getitem result (lit "tracks")) ;;
     lift (getitem tracks (py_str (repr env) track_id)))
    is_Exception
    (fun _ => failed_tracks_append track_id ;; ret JNull).

(** One round of [for track_id in track_ids] in
    [process_album_or_playlist]. *)
Definition process_track (track_id : json) : M State (step unit) :=
  track_info <- get_track_info track_id ;;
  download_track env config track_info ;;
  ret Next.

(** [process_album_or_playlist] *)
Definition process_album_or_playlist (link : str) : M State unit :=
  let link_type :=
    if contains (lit "release") link then lit "releases" else lit "playlists" in
  let item_id := last_segment link in
  try_except
    (let url := base_url ++ link_type in
     let params := [(lit "ids", JStr item_id)] in
     response <- requests_get env url params ;;
     lift (raise_for_status response) ;;
     body <- lift (json_body response) ;;
     result <- lift (getitem body (lit "result")) ;;
     group <- lift (getitem result link_type) ;;
     item <- lift (getitem group item_id) ;;
     track_ids <- lift (getitem item (lit "track_ids")) ;;
     ids <- lift (iter track_ids) ;;
     for_loop ids process_track ;;
     ret tt)
    is_Exception
    (fun _ => failed_tracks_append (JStr item_id)).

(** One round of [for link in links] in [process_links]. *)
Definition process_link (link : str) : M State (step unit) :=
  (if contains (lit "track") link then
     let track_id := JStr (last_segment link) in
     track_info <- get_track_info track_id ;;
     download_track env config track_info
   else if contains (lit "release") link || contains (lit "playlist") link then
     process_album_or_playlist link
   else ret tt) ;;
  ret Next.

(** [process_links], the report it prints at the end left out. *)
Definition process_links (links : list str) : M State unit :=
  for_loop links process_link ;;
  ret tt.

End Batch.
End SberZvukBatch.

(** ** Assertions about the transport and the counters *)

Module Props.
Import Py Exec ZvukMultiBot.

Definition is_Request (e : event) : bool :=
  match e with Request _ _ _ => true | _ => false end.

(** No request follows another without a wait in between. *)
Fixpoint paced (evs : list event) : bool :=
  match evs with
  | [] => true
  | e :: rest =>
      negb (is_Request e
            && match rest with e' :: _ => is_Request e' | [] => false end)
      && paced rest
  end.

Definition count_requests (evs : list event) : Z :=
  Z.of_nat (length (List.filter is_Request evs)).

(** What the retry loop does to the outside: requests to one address and
    waits. *)
Definition transport_event (method url : str) (kwargs : dict) (e : event)
    : Prop :=
  e = Request method url kwargs \/ exists seconds, e = Sleep seconds.

(** Every counter but [requests_made] stands as it stood. *)
Definition keeps_counters (w w' : World) : Prop :=
  successful_downloads (stats w') = successful_downloads (stats w)
  /\ failed_downloads (stats w') = failed_downloads (stats w)
  /\ total_data_downloaded (stats w') = total_data_downloaded (stats w)
  /\ metadata_embedded (stats w') = metadata_embedded (stats w)
  /\ covers_downloaded (stats w') = covers_downloaded (stats w).

(** The answer to a track lookup holds no record of the track: it is
    empty, or has no ['result'], or its ['tracks'] have nothing under
    the id. *)
Definition no_track_record (repr : json -> str) (info track_id : json)
    : bool :=
  match lacks_result info with
  | Ret true => true
  | Ret false =>
      match obind (getitem info (lit "result")) (fun result =>
            obind (getitem result (lit "tracks")) (fun tracks =>
            get tracks (py_str repr track_id))) with
      | Ret track_data => negb (truthy track_data)
      | Raise _ => false
      end
  | Raise _ => false
  end.

(** The answer to a release lookup holds no record of the release or no
    track records at all. *)
Definition no_release_record (info : json) (release_id : Z) : bool :=
  match lacks_result info with
  | Ret true => true
  | Ret false =>
      match obind (getitem info (lit "result")) (fun result =>
            obind (getitem result (lit "releases")) (fun releases =>
            obind (get releases (str_of_int release_id)) (fun release_data =>
            obind (get_default result (lit "tracks") (JObj []))
              (fun tracks_data =>
            Ret (negb (truthy release_data) || negb (truthy tracks_data))))))
      with
      | Ret missing => missing
      | Raise _ => false
      end
  | Raise _ => false
  end.

(** A task that returns a boolean and has counted one successful
    download exactly when it returns [True]. *)
Definition task_counted (t : M World bool) : Prop :=
  forall w, exists b w',
    t w = (Ret b, w')
    /\ successful_downloads (stats w')
       = successful_downloads (stats w) + (if b then 1 else 0).

(** What [download_release] leaves in [successful_downloads]. *)
Definition release_post (w : World) (r : outcome Z) (w' : World) : Prop :=
  match r with
  | Ret n =>
      successful_downloads (stats w') = successful_downloads (stats w) + n
      /\ 0 <= n
  | Raise _ => successful_downloads (stats w') = successful_downloads (stats w)
  end.

Definition counts_release (m : M World Z) : Prop :=
  forall w, release_post w (fst (m w)) (snd (m w)).

(** Every page of releases the service sends that is not empty
    carries at least one id. *)
Definition every_page_has_an_id {U : UnicodeData} (env : Env) : Prop :=
  forall t method url kwargs resp data releases rs ids,
    session_request env t method url kwargs = Ret resp ->
    json_body resp = Ret data ->
    ZvukMultiBotArtist.page_releases data = Ret (Some releases) ->
    iter releases = Ret rs ->
    ZvukMultiBotArtist.page_ids rs = Ret ids ->
    ids <> [].

(** A release record without a usable date: no ['date'], or a false
    one ([None], 0, the empty string). *)
Definition undated (release_data : json) : bool :=
  match get_default release_data (lit "date") (JInt 0) with
  | Ret date_val => negb (truthy date_val)
  | Raise _ => false
  end.

(** The track records of a release hold a record for the id. *)
Definition has_record (repr : json -> str) (tracks_data track_id : json)
    : bool :=
  match get_default tracks_data (py_str repr track_id) (JObj []) with
  | Ret track_info => truthy track_info
  | Raise _ => false
  end.

(** [v] is what [make_request] returns for the response [r]: the
    response has status 200, and [v] is its decoded body when it
    announces JSON, its raw body in a dictionary otherwise. *)
Definition payload_of (r : response) (v : json) : Prop :=
  status r = 200 /\
  let ctype := default [] (content_type r) in
  if contains (lit "application/json") ctype then json_body r = Ret v
  else exists data,
         raw_body r = Ret data
         /\ v = JObj [(lit "binary_data", JBytes data);
                      (lit "content_type", JStr ctype)].

(** How an iteration of the retry loop that started at moment [t] ends,
    with the events [tail] that followed its request. *)
Definition iteration_end (env : Env) (config : ZvukConfig) (t : nat)
    (method url : str) (kwargs : dict) (attempt : Z)
    (r : outcome (step json)) (tail : list event) : Prop :=
  match r with
  | Ret Next =>
      (exists seconds, tail = [Sleep seconds])
      \/ (tail = [] /\ max_retries config - 1 <= attempt)
  | Ret (Break v) =>
      tail = []
      /\ exists resp,
           session_request env t method url kwargs = Ret resp
           /\ payload_of resp v
  | Raise e => tail = [] /\ is_Exception e = false
  end.

(** *** The synchronous downloader *)

(** A statement that leaves the list of failures alone. *)
Definition silent {A} (m : M SberZvukDownloader.State A) : Prop :=
  forall s,
    SberZvukDownloader.failed_tracks (snd (m s))
    = SberZvukDownloader.failed_tracks s.

(** A statement out of which no [Exception] comes. *)
Definition contained {A} (m : M SberZvukDownloader.State A) : Prop :=
  forall s, Spec.raises_Exception (fst (m s)) = false.

(** A statement that only adds to the list of failures. *)
Definition keeps_failures {A} (m : M SberZvukDownloader.State A) : Prop :=
  forall s, exists more,
    SberZvukDownloader.failed_tracks (snd (m s))
    = SberZvukDownloader.failed_tracks s ++ more.

(** What a download may add to the list of failures: nothing, or the id
    of the track once. *)
Definition marks (track_info : json) (more : list json) : Prop :=
  more = [] \/
  exists id, getitem track_info (lit "id") = Ret id /\ more = [id].

(** A statement that adds nothing to the list of failures, or adds the
    id of the track once and then raises no [Exception]. *)
Definition once {A} (track_info : json) (m : M SberZvukDownloader.State A)
    : Prop :=
  forall s,
    SberZvukDownloader.failed_tracks (snd (m s))
    = SberZvukDownloader.failed_tracks s
    \/ exists id,
         getitem track_info (lit "id") = Ret id
         /\ SberZvukDownloader.failed_tracks (snd (m s))
            = SberZvukDownloader.failed_tracks s ++ [id]
         /\ Spec.raises_Exception (fst (m s)) = false.

(** What the service holds for a track when asked at time [t]: the
    record under the id in the answer to the lookup, or what goes wrong
    on the way to it (the request, its status, the decoding, a missing
    key). *)
Definition track_lookup {U : UnicodeData} (env : SberZvukDownloader.Env)
    (t : nat) (track_id : json) : outcome json :=
  match
    SberZvukDownloader.http_get env t
      (SberZvukDownloader.base_url ++ lit "tracks") [(lit "ids", track_id)]
  with
  | Raise e => Raise e
  | Ret response =>
      match SberZvukDownloader.raise_for_status response with
      | Raise e => Raise e
      | Ret _ =>
          match SberZvukDownloader.json_body response with
          | Raise e => Raise e
          | Ret body =>
              match getitem body (lit "result") with
              | Raise e => Raise e
              | Ret result =>
                  match getitem result (lit "tracks") with
                  | Raise e => Raise e
                  | Ret tracks =>
                      getitem tracks
                        (py_str (SberZvukDownloader.repr env) track_id)
                  end
              end
          end
      end
  end.

End Props.

(** ** zvuk_multibot.py: the commands and their dispatch *)

Module ZvukMultiBotCommands.
Import Py.

(** A subparser of [create_parser]: its name, its aliases, and the
    attributes its arguments give to [args]. *)
Record subparser := {
  name : str;
  aliases : list str;
  arguments : list str
}.

(** The subparsers [create_parser] adds, in its order. *)
Definition subparsers : list subparser :=
  [ {| name := lit "profile"; aliases := [lit "prof"; lit "p"];
       arguments := [] |};
    {| name := lit "download-track"; aliases := [lit "dl"; lit "download"];
       arguments := [lit "track_id"; lit "quality"; lit "filename"; lit "no_metadata"; lit "no_cover"; lit "save_lyrics"; lit "save_subtitles"] |};
    {| name := lit "check-quality"; aliases := [lit "chk"; lit "quality"];
       arguments := [lit "track_id"] |};
    {| name := lit "track-info-extended"; aliases := [lit "info"; lit "ti"];
       arguments := [lit "track_id"] |};
    {| name := lit "download-release"; aliases := [lit "dlr"; lit "album"];
       arguments := [lit "release_id"; lit "quality"; lit "save_lyrics"; lit "save_subtitles"] |};
    {| name := lit "track-info"; aliases := [lit "tinfo"];
       arguments := [lit "track_ids"] |};
    {| name := lit "release-info"; aliases := [lit "rinfo"];
       arguments := [lit "release_ids"] |};
    {| name := lit "release-info-extended"; aliases := [lit "rext"; lit "album-info"];
       arguments := [lit "release_id"] |};
    {| name := lit "check-release-quality"; aliases := [lit "chkr"; lit "album-quality"];
       arguments := [lit "release_id"] |};
    {| name := lit "lyrics"; aliases := [lit "txt"; lit "text"];
       arguments := [lit "track_id"] |};
    {| name := lit "artist-releases"; aliases := [lit "art"; lit "artist"];
       arguments := [lit "artist_id"; lit "limit"] |};
    {| name := lit "artist-info"; aliases := [lit "ainfo"; lit "artist-detail"];
       arguments := [lit "artist_id"; lit "limit"] |};
    {| name := lit "download-artist"; aliases := [lit "dla"; lit "artist-download"];
       arguments := [lit "artist_id"; lit "quality"; lit "limit"; lit "skip_singles"; lit "save_lyrics"; lit "save_subtitles"] |};
    {| name := lit "artist-browser"; aliases := [lit "browse"; lit "ab"];
       arguments := [lit "artist_id"] |} ].

(** The methods [execute_command] hands over to. *)
Inductive handler :=
| cmd_profile
| cmd_download_track
| cmd_check_quality
| cmd_track_info_extended
| cmd_download_release
| cmd_track_info
| cmd_release_info
| cmd_release_info_extended
| cmd_check_release_quality
| cmd_lyrics
| cmd_artist_releases
| cmd_artist_info
| cmd_download_artist
| cmd_artist_browser
| print_help.

(** [args.command in words]; [None] when no command was given. *)
Definition member (command : option str) (words : list str) : bool :=
  match command with
  | Some c => existsb (str_eqb c) words
  | None => false
  end.

(** The chain of [execute_command]: the method called and the
    attributes read off [args] as [args.x] (those read with [getattr]
    and a default are not listed: they cannot be missing). *)
Definition execute_command (command : option str) : handler * list str :=
  if member command [lit "profile"; lit "prof"; lit "p"] then
    (cmd_profile, [])
  else
  if member command [lit "download-track"; lit "dl"; lit "download"] then
    (cmd_download_track, [lit "track_id"; lit "quality"; lit "filename"; lit "no_metadata"; lit "no_cover"])
  else
  if member command [lit "check-quality"; lit "chk"; lit "quality"] then
    (cmd_check_quality, [lit "track_id"])
  else
  if member command [lit "track-info-extended"; lit "info"; lit "ti"] then
    (cmd_track_info_extended, [lit "track_id"])
  else
  if member command [lit "download-release"; lit "dlr"; lit "album"] then
    (cmd_download_release, [lit "release_id"; lit "quality"])
  else
  if member command [lit "track-info"; lit "tinfo"] then
    (cmd_track_info, [lit "track_ids"])
  else
  if member command [lit "release-info"; lit "rinfo"] then
    (cmd_release_info, [lit "release_ids"])
  else
  if member command [lit "release-info-extended"; lit "rext"; lit "album-info"] then
    (cmd_release_info_extended, [lit "release_id"])
  else
  if member command [lit "check-release-quality"; lit "chkr"; lit "album-quality"] then
    (cmd_check_release_quality, [lit "release_id"])
  else
  if member command [lit "lyrics"; lit "txt"; lit "text"] then
    (cmd_lyrics, [lit "track_id"])
  else
  if member command [lit "artist-releases"; lit "art"; lit "artist"] then
    (cmd_artist_releases, [lit "artist_id"; lit "limit"])
  else
  if member command [lit "artist-info"; lit "ainfo"; lit "artist-detail"] then
    (cmd_artist_info, [lit "artist_id"; lit "limit"])
  else
  if member command [lit "download-artist"; lit "dla"; lit "artist-download"] then
    (cmd_download_artist, [lit "artist_id"; lit "quality"; lit "limit"; lit "skip_singles"])
  else
  if member command [lit "artist-browser"; lit "browse"; lit "ab"] then
    (cmd_artist_browser, [lit "artist_id"])
  else
  (print_help, []).

End ZvukMultiBotCommands.

(** ** ZvukDownloader.py: the first configuration *)

Module SberZvukSetup.
Import Py.

(** [first_start_config], as a function of the six answers typed at its
    prompts; the configuration it returns is also the one it writes to
    the file. *)
Definition first_start_config
    (token format lyrics download_path fallback cover_resolution : str)
    : json :=
  JObj [ (lit "token", JStr token);
         (lit "format", JStr format);
         (lit "lyrics", JBool (str_eqb lyrics (lit "1")));
         (lit "download_path",
          JStr (match download_path with
                | [] => lit "./music"
                | _ => download_path
                end));
         (lit "fallback_to_lower_quality", JBool (str_eqb fallback (lit "1")));
         (lit "cover_resolution",
          JBool (str_eqb cover_resolution (lit "1"))) ].

End SberZvukSetup.

(** ** More concrete inputs *)

Module Samples.
Import Py.

(** An artist with three releases, served two to a page at most: a page
    of two, a page of one, then an empty page. *)
Definition releases_page (ids : list Z) : json :=
  JObj [ (lit "data",
          JObj [ (lit "getArtists",
                  JArr [ JObj [ (lit "releases",
                                 JArr (List.map
                                         (fun i => JObj [(lit "id", JInt i)])
                                         ids)) ] ]) ]) ].

Definition paged_net (t : nat) (method url : str) (kwargs : dict)
    : outcome ZvukMultiBot.response :=
  match t with
  | 0%nat => Ret (Examples.json_response (releases_page [41; 42]))
  | 1%nat => Ret (Examples.json_response (releases_page [43]))
  | _ => Ret (Examples.json_response (releases_page []))
  end.

Definition paged_env : ZvukMultiBot.Env :=
  Examples.env_around paged_net Examples.no_qualities.

(** An audio stream that breaks after two chunks. *)
Definition broken_stream : ZvukMultiBot.response :=
  {| ZvukMultiBot.status := 200;
     ZvukMultiBot.content_type := Some (lit "audio/mpeg");
     ZvukMultiBot.json_body := Raise (Exception "ContentTypeError");
     ZvukMultiBot.raw_body := Ret [];
     ZvukMultiBot.text_body := Ret [];
     ZvukMultiBot.chunks := Examples.audio;
     ZvukMultiBot.chunks_error := Some (Exception "ClientPayloadError") |}.


End Samples.

(* ===================================================================== *)
(** * Part II. Facts                                                     *)
(* ===================================================================== *)

Import Py Exec.

(** Source literals are replaced by the code points they denote. *)
Ltac eval_lits :=
  repeat match goal with
  | |- context [lit ?s] =>
      let v := eval vm_compute in (lit s) in change (lit s) with v
  end.

Ltac eval_lits_in H :=
  repeat match type of H with
  | context [lit ?s] =>
      let v := eval vm_compute in (lit s) in change (lit s) with v in H
  end.

(** ** Strings *)

Section StringFacts.
Context {U : UnicodeData}.

Lemma rstrip_split (s : str) :
  exists ws, s = rstrip s ++ ws /\ Forall (fun c => isspace c = true) ws.
Proof.
  induction s as [|c s IH]; simpl.
  - exists []. split; [reflexivity | constructor].
  - destruct IH as (ws & Hs & Hws).
    destruct (rstrip s) as [|a r] eqn:E.
    + simpl in Hs. subst ws.
      destruct (isspace c) eqn:Hc.
      * exists (c :: s). split; [reflexivity | now constructor].
      * exists s. split; [reflexivity | assumption].
    + exists ws. split; [| assumption].
      simpl. f_equal. exact Hs.
Qed.

Lemma rstrip_last (s : str) (c : char) :
  last (rstrip s) = Some c -> isspace c = false.
Proof.
  induction s as [|a s IH]; simpl; [discriminate |].
  destruct (rstrip s) as [|b r] eqn:E.
  - destruct (isspace a) eqn:Ha; simpl; [discriminate |].
    intros [= <-]. exact Ha.
  - intros H. apply IH. exact H.
Qed.

Lemma rstrip_fixed (s : str) :
  (forall c, last s = Some c -> isspace c = false) -> rstrip s = s.
Proof.
  induction s as [|a s IH]; simpl; [reflexivity |].
  intros H. destruct s as [|b s].
  - simpl. now rewrite (H a eq_refl).
  - rewrite IH by (intros c Hc; apply H; exact Hc). reflexivity.
Qed.

Lemma rstrip_idempotent (s : str) : rstrip (rstrip s) = rstrip s.
Proof. apply rstrip_fixed, rstrip_last. Qed.

Lemma rstrip_Forall (P : char -> Prop) (s : str) :
  Forall P s -> Forall P (rstrip s).
Proof.
  intros H. destruct (rstrip_split s) as (ws & Hs & _).
  rewrite Hs in H. now apply Forall_app in H.
Qed.

Lemma filter_fixed {A} (p : A -> bool) (l : list A) :
  Forall (fun x => p x = true) l -> List.filter p l = l.
Proof.
  induction 1 as [|x l Hx _ IH]; simpl; [reflexivity |].
  now rewrite Hx, IH.
Qed.

Lemma filter_Forall {A} (p : A -> bool) (l : list A) :
  Forall (fun x => p x = true) (List.filter p l).
Proof.
  apply List.Forall_forall. intros x Hx. now apply List.filter_In in Hx.
Qed.

(** Filtering by a predicate and dropping the trailing whitespace, the
    shape of both sanitizers, is idempotent. *)
Lemma filter_rstrip_idempotent (p : char -> bool) (s : str) :
  rstrip (List.filter p (rstrip (List.filter p s))) = rstrip (List.filter p s).
Proof.
  rewrite (filter_fixed p (rstrip (List.filter p s))).
  - apply rstrip_idempotent.
  - apply rstrip_Forall, filter_Forall.
Qed.

Lemma literal_member (c : char) (l : str) :
  existsb (N.eqb c) l = true <-> In c l.
Proof.
  rewrite existsb_exists. split.
  - intros (x & Hx & Heq). apply N.eqb_eq in Heq. now subst.
  - intros H. exists c. split; [assumption | apply N.eqb_refl].
Qed.

End StringFacts.

(** ** File names *)

Section NamingFacts.
Context {U : UnicodeData}.
Import ZvukMultiBot.

Lemma filename_char_spec (c : char) :
  filename_char c = true <->
  isalnum c = true \/ c = 32%N \/ c = 45%N \/ c = 95%N \/ c = 46%N.
Proof.
  unfold filename_char. rewrite orb_true_iff, literal_member.
  eval_lits. cbn. intuition congruence.
Qed.

(** C6. The file-name sanitization of [download_track] keeps, in order,
    exactly the characters that are alphanumeric or one of space,
    hyphen, underscore, dot, then drops the trailing whitespace; and
    sanitizing a sanitized name changes nothing. *)
Theorem sanitize_filename_keeps_permitted_and_is_idempotent (name : str) :
  let clean := sanitize_filename name in
  (forall c, filename_char c = true <->
     isalnum c = true \/ c = 32%N \/ c = 45%N \/ c = 95%N \/ c = 46%N) /\
  Forall (fun c => filename_char c = true) clean /\
  (exists ws, List.filter filename_char name = clean ++ ws
              /\ Forall (fun c => isspace c = true) ws) /\
  (forall c, last clean = Some c -> isspace c = false) /\
  sanitize_filename clean = clean.
Proof.
  cbv zeta. unfold sanitize_filename. repeat split.
  - apply filename_char_spec.
  - apply filename_char_spec.
  - apply rstrip_Forall, filter_Forall.
  - apply rstrip_split.
  - apply rstrip_last.
  - apply filter_rstrip_idempotent.
Qed.













End NamingFacts.


(** ** Quality names *)

Section QualityFacts.
Context {U : UnicodeData}.
Import ZvukMultiBotCLI Spec.

Lemma mapping_aliases (q v : str) :
  mapping !! q = Some v <-> In (q, v) aliases.
Proof.
  unfold mapping, aliases. split.
  - intros H. apply elem_of_list_to_map_2 in H.
    apply list_elem_of_In in H. eval_lits. eval_lits_in H.
    simpl In in *.
    destruct_or!; try contradiction; injection H as <- <-; auto 10.
  - intros H. apply elem_of_list_to_map_1.
    + apply (bool_decide_unpack _). vm_compute. exact I.
    + apply list_elem_of_In. eval_lits. eval_lits_in H.
      simpl In in *.
      destruct_or!; try contradiction; injection H as <- <-; auto 10.
Qed.

(** C10. [normalize_quality] answers flac, high or mid on every input:
    the trimmed, lower-cased input is looked up among the aliases
    f/flac, h/high/320, m/mid/128, and anything else gives high. *)
Theorem normalize_quality_total (quality : option str) :
  let q := lower (strip (default [] quality)) in
  In (normalize_quality quality) [lit "flac"; lit "high"; lit "mid"] /\
  (forall v, In (q, v) aliases -> normalize_quality quality = v) /\
  ((forall v, ~ In (q, v) aliases) -> normalize_quality quality = lit "high").
Proof.
  cbv zeta. unfold normalize_quality.
  set (q := lower (strip (default [] quality))).
  destruct (mapping !! q) as [v|] eqn:E; cbn [default from_option id].
  - repeat split.
    + apply mapping_aliases in E. unfold aliases in E.
      simpl In in *.
      destruct_or!; try contradiction; injection E as _ <-; auto.
    + intros v' Hv'. apply mapping_aliases in Hv'. congruence.
    + intros Hno. apply mapping_aliases in E. exfalso. exact (Hno v E).
  - repeat split.
    + simpl. auto.
    + intros v Hv. apply mapping_aliases in Hv. congruence.
Qed.

End QualityFacts.

(** ** Choosing an artist's releases *)

Section ArtistFacts.
Context {U : UnicodeData} (repr : json -> str).
Import ZvukMultiBotCLI.

Lemma album_like_agrees (d : dict) (ids : list json) :
  default (JArr []) (assoc (lit "track_ids") d) = JArr ids ->
  album_like (default (JStr []) (assoc (lit "type") d))
    (Z.of_nat (length ids))
  = Spec.album_like (JObj d).
Proof.
  intros Hids. unfold album_like, Spec.album_like, Spec.typed_album,
    Spec.track_count, eq_str, is_JStr.
  destruct (assoc (lit "track_ids") d) as [v|] eqn:Ht; simpl in Hids.
  - subst v.
    destruct (assoc (lit "type") d) as [[| | |t| | |]|]; simpl;
      try reflexivity.
    unfold str_eqb. f_equal.
    apply bool_decide_ext. split; intros ->; reflexivity.
  - injection Hids as <-.
    destruct (assoc (lit "type") d) as [[| | |t| | |]|]; simpl;
      try reflexivity.
    unfold str_eqb. f_equal.
    apply bool_decide_ext. split; intros ->; reflexivity.
Qed.

(** C8. With skip-singles on, the filtering loop of
    [cmd_download_artist] keeps exactly the album-like releases (typed
    as album, or at least 7 track ids), in the order received; with the
    option off it keeps every release. *)
Theorem filter_releases_keeps_album_like (releases : dict) (skip_singles : bool) :
  forallb Spec.release_entry_ok releases = true ->
  filter_releases releases skip_singles =
  Ret (List.map (fun entry => (Spec.entry_id (fst entry), snd entry))
         (List.filter
            (fun entry => negb skip_singles || Spec.album_like (snd entry))
            releases)).
Proof.
  induction releases as [|[key data] rest IH]; intros Hok; [reflexivity |].
  cbn [forallb] in Hok. apply andb_true_iff in Hok as [Hentry Hrest].
  specialize (IH Hrest).
  unfold Spec.release_entry_ok in Hentry. cbn [fst snd] in Hentry.
  destruct (int_of_str key) as [rid|] eqn:Hkey; [| discriminate].
  destruct data as [| | | | |d|]; try discriminate.
  assert (Hids : exists ids,
            default (JArr []) (assoc (lit "track_ids") d) = JArr ids).
  { destruct (assoc (lit "track_ids") d) as [[| | | |ids| |]|];
      try discriminate; simpl; eauto. }
  destruct Hids as (ids & Hids).
  cbn [filter_releases get_default obind]. rewrite Hids. cbn [len obind].
  rewrite (album_like_agrees d ids Hids), Hkey, IH.
  cbn [List.filter snd fst]. unfold Spec.entry_id.
  destruct skip_singles; cbn [negb orb].
  - destruct (Spec.album_like (JObj d)); cbn [obind List.map app fst snd];
      [rewrite Hkey |]; reflexivity.
  - cbn [obind List.map app fst snd]. rewrite Hkey. reflexivity.
Qed.

(** *** The order of the candidates *)

Lemma insert_desc_perm {A} (k : Z) (x : A) (l : list (Z * A)) :
  Permutation (insert_desc k x l) ((k, x) :: l).
Proof.
  induction l as [|[k' y] l IH]; simpl; [reflexivity |].
  destruct (k <? k'); [| reflexivity].
  rewrite IH. apply perm_swap.
Qed.

Lemma sort_desc_perm {A} (l : list (Z * A)) : Permutation (sort_desc l) l.
Proof.
  induction l as [|[k x] l IH]; simpl; [reflexivity |].
  rewrite insert_desc_perm. now rewrite IH.
Qed.

Lemma insert_desc_sorted {A} (k : Z) (x : A) (l : list (Z * A)) :
  StronglySorted Spec.key_ge l -> StronglySorted Spec.key_ge (insert_desc k x l).
Proof.
  induction 1 as [|[k' y] l Hs IH Hall]; simpl.
  - repeat constructor.
  - destruct (k <? k') eqn:E.
    + constructor; [exact IH |].
      rewrite insert_desc_perm. constructor; [| exact Hall].
      unfold Spec.key_ge. simpl. lia.
    + constructor; [now constructor |].
      constructor; [unfold Spec.key_ge; simpl; lia |].
      eapply List.Forall_impl; [| exact Hall].
      intros [k2 z]. unfold Spec.key_ge. simpl. lia.
Qed.

(** The sort of [cmd_download_artist] puts larger keys first. *)
Lemma sort_desc_sorted {A} (l : list (Z * A)) :
  StronglySorted Spec.key_ge (sort_desc l).
Proof.
  induction l as [|[k x] l IH]; simpl; [constructor |].
  now apply insert_desc_sorted.
Qed.

(** A release without a date gets the key 99999999. *)
Lemma _release_date_int_undated (d : dict) :
  assoc (lit "date") d = None ->
  _release_date_int repr (JObj d) = Ret 99999999.
Proof.
  intros H. unfold _release_date_int, get, get_default. now rewrite H.
Qed.

End ArtistFacts.

Lemma filter_releases_keeps_album_like_witness :
  ZvukMultiBotCLI.filter_releases (U := ascii_table)
    Examples.three_releases true =
  Ret [ (501, Examples.typed_album_release); (503, Examples.long_release) ].
Proof.
  exact (filter_releases_keeps_album_like (U := ascii_table)
           Examples.three_releases true eq_refl).
Defined.

(** C5. A release without a date sorts before a dated one, and is the
    one kept when the list is cut to one release: the candidates are
    sorted by descending key and an unknown date has the largest key. *)
Theorem undated_release_is_sorted_first :
  ZvukMultiBotCLI.albums_to_download (U := ascii_table) Examples.no_repr Examples.two_releases false 2 =
    Ret [ (102, Examples.undated_release); (101, Examples.dated_release) ] /\
  ZvukMultiBotCLI.albums_to_download (U := ascii_table) Examples.no_repr Examples.two_releases false 1 =
    Ret [ (102, Examples.undated_release) ].
Proof. split; vm_compute; reflexivity. Qed.


(** ** The transport *)

Section TransportFacts.
Context {U : UnicodeData} (env : ZvukMultiBot.Env)
        (config : ZvukMultiBot.ZvukConfig).
Import ZvukMultiBot.

(** A failed attempt ends its iteration without leaving the loop; it
    counts one request and touches no file. *)
Lemma retry_iteration_fails (method url : str) (kwargs : dict) (attempt : Z)
    (w : World) :
  Spec.attempt_fails (session_request env (clock w) method url kwargs) = true ->
  exists w',
    retry_iteration env config method url kwargs attempt w = (Ret Next, w')
    /\ clock w' = S (clock w)
    /\ requests_made (stats w') = requests_made (stats w) + 1
    /\ files w' = files w.
Proof.
  intros Hfail.
  unfold retry_iteration, try_request, request, try_except, bind, tick, emit,
    incr_requests_made, modify, with_stats, lift, ret.
  cbn [stats clock events files].
  unfold Spec.attempt_fails in Hfail.
  destruct (session_request env (clock w) method url kwargs) as [r|e].
  - destruct (status r =? 418); cbn.
    + eauto.
    + destruct (status r =? 200).
      * destruct (contains _ _).
        -- destruct (json_body r) as [?|e]; [discriminate |].
           simpl in Hfail. rewrite Hfail.
           destruct (is_TimeoutError e), (attempt <? max_retries config - 1);
             cbn; eauto.
        -- destruct (raw_body r) as [?|e]; [discriminate |].
           simpl in Hfail. rewrite Hfail.
           destruct (is_TimeoutError e), (attempt <? max_retries config - 1);
             cbn; eauto.
      * destruct (text_body r) as [?|e].
        -- destruct (attempt <? max_retries config - 1); cbn; eauto.
        -- destruct e; try discriminate; cbn;
             destruct (attempt <? max_retries config - 1); cbn; eauto.
  - rewrite Hfail.
    destruct (is_TimeoutError e), (attempt <? max_retries config - 1);
      cbn; eauto.
Qed.

Lemma retry_loop_exhausted (method url : str) (kwargs : dict) (n k : nat)
    (w : World) :
  (forall i, (i < n)%nat ->
     Spec.attempt_fails
       (session_request env (clock w + i) method url kwargs) = true) ->
  exists w',
    for_loop (List.map Z.of_nat (seq k n))
      (retry_iteration env config method url kwargs) w = (Ret None, w')
    /\ clock w' = (clock w + n)%nat
    /\ requests_made (stats w') = requests_made (stats w) + Z.of_nat n
    /\ files w' = files w.
Proof.
  revert k w. induction n as [|n IH]; intros k w Hfail.
  - exists w. cbn. repeat split; [lia | lia].
  - cbn [seq List.map for_loop]. unfold bind at 1.
    destruct (retry_iteration_fails method url kwargs (Z.of_nat k) w)
      as (w1 & Hrun & Hclock & Hreq & Hfiles).
    { specialize (Hfail 0%nat). rewrite Nat.add_0_r in Hfail.
      apply Hfail. lia. }
    rewrite Hrun.
    destruct (IH (S k) w1) as (w' & Hloop & Hclock' & Hreq' & Hfiles').
    { intros i Hi. rewrite Hclock.
      replace (S (clock w) + i)%nat with (clock w + S i)%nat by lia.
      apply Hfail. lia. }
    exists w'. repeat split.
    + exact Hloop.
    + lia.
    + lia.
    + congruence.
Qed.

(** C1. When every one of the [max_retries] attempts fails (a status
    other than 200, a timeout, or another exception), [make_request]
    returns [None] and raises nothing; each attempt was counted once. *)
Theorem make_request_exhaustion_returns_None (method endpoint : str)
    (kwargs : dict) (w : World) :
  (forall i, (i < Z.to_nat (max_retries config))%nat ->
     Spec.attempt_fails
       (session_request env (clock w + i) method
          (urljoin env (base_url config) endpoint) kwargs) = true) ->
  exists w',
    make_request env config method endpoint kwargs w = (Ret JNull, w')
    /\ requests_made (stats w') =
       requests_made (stats w) + Z.max 0 (max_retries config).
Proof.
  intros Hfail. unfold make_request, range.
  unfold bind at 1. unfold emit at 1, modify at 1.
  set (w0 := {| stats := stats w; clock := clock w;
                events := events w ++ [Jitter]; files := files w |}).
  destruct (retry_loop_exhausted method
              (urljoin env (base_url config) endpoint) kwargs
              (Z.to_nat (max_retries config)) 0 w0 Hfail)
    as (w' & Hloop & _ & Hreq & _).
  exists w'. unfold bind. rewrite Hloop. split; [reflexivity |].
  rewrite Hreq. subst w0. cbn. lia.
Qed.

(** The world after one counted request. *)
Lemma retry_iteration_teapot (method url : str) (kwargs : dict) (attempt : Z)
    (w : World) (r : response) :
  session_request env (clock w) method url kwargs = Ret r ->
  status r = 418 ->
  exists w',
    retry_iteration env config method url kwargs attempt w = (Ret Next, w')
    /\ clock w' = S (clock w)
    /\ requests_made (stats w') = requests_made (stats w) + 1
    /\ events w' =
       events w ++ [Request method url kwargs;
                    Sleep (teapot_wait_time config attempt)].
Proof.
  intros Hresp Hstatus.
  unfold retry_iteration, try_request, request, try_except, bind, tick, emit,
    incr_requests_made, modify, with_stats, lift, ret.
  cbn [stats clock events files]. rewrite Hresp, Hstatus. cbn.
  eexists. repeat split. now rewrite <- app_assoc.
Qed.

Lemma retry_iteration_json (method url : str) (kwargs : dict) (attempt : Z)
    (w : World) (r : response) (data : json) :
  session_request env (clock w) method url kwargs = Ret r ->
  status r = 200 ->
  contains (lit "application/json") (default [] (content_type r)) = true ->
  json_body r = Ret data ->
  exists w',
    retry_iteration env config method url kwargs attempt w
      = (Ret (Break data), w')
    /\ requests_made (stats w') = requests_made (stats w) + 1
    /\ events w' = events w ++ [Request method url kwargs].
Proof.
  intros Hresp Hstatus Hjson Hdata.
  unfold retry_iteration, try_request, request, try_except, bind, tick, emit,
    incr_requests_made, modify, with_stats, lift, ret.
  cbn [stats clock events files]. rewrite Hresp. cbn iota beta.
  rewrite Hjson, Hdata, Hstatus. cbn. eexists. repeat split.
Qed.

(** C4. A 418 on the first attempt followed by a JSON answer:
    [make_request] sleeps once, for the cool-down
    [retry_delay * (attempt + 1) * 2] of attempt 0 and not for the
    ordinary delay, returns the decoded payload, and has counted two
    requests. The cool-down is twice the ordinary delay of the same
    attempt, hence longer. *)
Theorem make_request_teapot_then_success (method endpoint : str)
    (kwargs : dict) (w : World) (r1 r2 : response) (data : json) :
  let url := urljoin env (base_url config) endpoint in
  2 <= max_retries config ->
  session_request env (clock w) method url kwargs = Ret r1 ->
  status r1 = 418 ->
  session_request env (S (clock w)) method url kwargs = Ret r2 ->
  status r2 = 200 ->
  contains (lit "application/json") (default [] (content_type r2)) = true ->
  json_body r2 = Ret data ->
  exists w',
    make_request env config method endpoint kwargs w = (Ret data, w')
    /\ events w' =
       events w ++ [Jitter; Request method url kwargs;
                    Sleep (retry_delay config * (0 + 1) * 2);
                    Request method url kwargs]
    /\ requests_made (stats w') = requests_made (stats w) + 2
    /\ (forall attempt,
          teapot_wait_time config attempt
          = 2 * retry_wait_time config attempt)
    /\ (forall attempt, 0 < retry_delay config -> 0 <= attempt ->
          retry_wait_time config attempt < teapot_wait_time config attempt).
Proof.
  intros url Hcap H1 Hs1 H2 Hs2 Hjson Hdata.
  unfold make_request, range. fold url.
  destruct (Z.to_nat (max_retries config)) as [|[|m]] eqn:Hn; try lia.
  cbn [seq List.map for_loop].
  unfold bind at 1. unfold emit at 1, modify at 1.
  set (w0 := {| stats := stats w; clock := clock w;
                events := events w ++ [Jitter]; files := files w |}).
  destruct (retry_iteration_teapot method url kwargs 0 w0 r1 H1 Hs1)
    as (w1 & Hrun1 & Hclock1 & Hreq1 & Hev1).
  assert (H2' : session_request env (clock w1) method url kwargs = Ret r2)
    by (rewrite Hclock1; exact H2).
  destruct (retry_iteration_json method url kwargs 1 w1 r2 data
              H2' Hs2 Hjson Hdata)
    as (w2 & Hrun2 & Hreq2 & Hev2).
  exists w2. split; [| split; [| split; [| split]]].
  - unfold bind. change (Z.of_nat 0) with 0. rewrite Hrun1.
    change (Z.of_nat 1) with 1. rewrite Hrun2. reflexivity.
  - rewrite Hev2, Hev1. subst w0. cbn [events].
    unfold teapot_wait_time. now rewrite <- !app_assoc.
  - rewrite Hreq2, Hreq1. subst w0. cbn. lia.
  - intros attempt. unfold teapot_wait_time, retry_wait_time. lia.
  - intros attempt Hd Ha. unfold teapot_wait_time, retry_wait_time. nia.
Qed.

End TransportFacts.

Lemma make_request_exhaustion_returns_None_witness :
  exists w',
    ZvukMultiBot.make_request Examples.failing_env ZvukMultiBot.default_config
      (lit "GET") (lit "/api/tiny/tracks") [] Examples.fresh
    = (Ret JNull, w')
    /\ ZvukMultiBot.requests_made (ZvukMultiBot.stats w') = 5.
Proof.
  apply (make_request_exhaustion_returns_None Examples.failing_env
           ZvukMultiBot.default_config (lit "GET") (lit "/api/tiny/tracks") []
           Examples.fresh).
  intros i Hi. change (i < 5)%nat in Hi.
  do 5 (destruct i as [|i]; [vm_compute; reflexivity |]). lia.
Defined.

(** A cancellation is not an [Exception]: it is the one thing
    [make_request] lets through, after the attempts made so far. *)
Example make_request_lets_cancellation_through :
  let run :=
    ZvukMultiBot.make_request Examples.cancelled_env
      ZvukMultiBot.default_config (lit "GET") (lit "/api/tiny/tracks") []
      Examples.fresh in
  fst run = Raise CancelledError
  /\ ZvukMultiBot.requests_made (ZvukMultiBot.stats (snd run)) = 2.
Proof. vm_compute. auto. Qed.

Lemma make_request_teapot_then_success_witness :
  exists w',
    ZvukMultiBot.make_request Examples.teapot_env ZvukMultiBot.default_config
      (lit "GET") (lit "/api/v2/tiny/profile") [] Examples.fresh
    = (Ret Examples.profile, w')
    /\ ZvukMultiBot.events w' =
       [ ZvukMultiBot.Jitter;
         ZvukMultiBot.Request (lit "GET")
           (lit "https://zvuk.com/api/v2/tiny/profile") [];
         ZvukMultiBot.Sleep 6;
         ZvukMultiBot.Request (lit "GET")
           (lit "https://zvuk.com/api/v2/tiny/profile") [] ]
    /\ ZvukMultiBot.requests_made (ZvukMultiBot.stats w') = 2.
Proof.
  destruct (make_request_teapot_then_success Examples.teapot_env
              ZvukMultiBot.default_config (lit "GET")
              (lit "/api/v2/tiny/profile") [] Examples.fresh
              (Examples.status_response 418)
              (Examples.json_response Examples.profile) Examples.profile)
    as (w' & Hrun & Hev & Hreq & _);
    try reflexivity; [vm_compute; discriminate |].
  exists w'. split; [exact Hrun |]. split; [| exact Hreq].
  rewrite Hev. vm_compute. reflexivity.
Defined.

(** ** Runs that keep the frame *)

Section FrameFacts.
Import ZvukMultiBot Logic.

Lemma frame_refl (w : World) : frame w w.
Proof.
  split; try reflexivity; [auto |].
  exists []. split; [now rewrite app_nil_r | reflexivity].
Qed.

Lemma frame_trans (w1 w2 w3 : World) : frame w1 w2 -> frame w2 w3 -> frame w1 w3.
Proof.
  intros [S1 F1 P1 (e1 & E1 & Q1)] [S2 F2 P2 (e2 & E2 & Q2)]. split.
  - congruence.
  - congruence.
  - auto.
  - exists (e1 ++ e2). split.
    + now rewrite E2, E1, app_assoc.
    + rewrite forallb_app. now rewrite Q1, Q2.
Qed.

Lemma never_fails_may_fail {A} (Q : A -> Prop) (m : M World A) :
  never_fails Q m -> may_fail Q m.
Proof.
  intros H w. destruct (H w) as [Hf Hr]. split; [exact Hf |].
  destruct (fst (m w)); [exact Hr | contradiction].
Qed.

Lemma may_fail_weaken {A} (Q R : A -> Prop) (m : M World A) :
  (forall a, Q a -> R a) -> may_fail Q m -> may_fail R m.
Proof.
  intros HQR H w. destruct (H w) as [Hf Hr]. split; [exact Hf |].
  destruct (fst (m w)); auto.
Qed.

Lemma never_fails_weaken {A} (Q R : A -> Prop) (m : M World A) :
  (forall a, Q a -> R a) -> never_fails Q m -> never_fails R m.
Proof.
  intros HQR H w. destruct (H w) as [Hf Hr]. split; [exact Hf |].
  destruct (fst (m w)); auto.
Qed.

Lemma never_fails_ret {A} (Q : A -> Prop) (a : A) :
  Q a -> never_fails Q (ret a).
Proof. intros H w. split; [apply frame_refl | exact H]. Qed.

Lemma may_fail_ret {A} (Q : A -> Prop) (a : A) : Q a -> may_fail Q (ret a).
Proof. intros H. now apply never_fails_may_fail, never_fails_ret. Qed.

Lemma may_fail_raise {A} (Q : A -> Prop) (e : exn) :
  is_Exception e = true -> may_fail Q (raise e).
Proof. intros H w. split; [apply frame_refl | exact H]. Qed.

Lemma may_fail_lift {A} (Q : A -> Prop) (o : outcome A) :
  Spec.not_cancelled o = true ->
  (forall a, o = Ret a -> Q a) ->
  may_fail Q (lift o).
Proof.
  intros Hnc HQ w. split; [apply frame_refl |]. cbn.
  destruct o as [a|[]]; auto.
Qed.

Lemma may_fail_bind {A B} (Q : A -> Prop) (R : B -> Prop) (m : M World A)
    (k : A -> M World B) :
  may_fail Q m -> (forall a, Q a -> may_fail R (k a)) ->
  may_fail R (bind m k).
Proof.
  intros Hm Hk w. unfold bind. specialize (Hm w).
  destruct (m w) as [[a|e] w1]; cbn in Hm; destruct Hm as [Hf Hr].
  - destruct (Hk a Hr w1) as [Hf' Hr']. split; [| exact Hr'].
    eapply frame_trans; eassumption.
  - split; assumption.
Qed.

Lemma never_fails_bind {A B} (Q : A -> Prop) (R : B -> Prop) (m : M World A)
    (k : A -> M World B) :
  never_fails Q m -> (forall a, Q a -> never_fails R (k a)) ->
  never_fails R (bind m k).
Proof.
  intros Hm Hk w. unfold bind. specialize (Hm w).
  destruct (m w) as [[a|e] w1]; cbn in Hm; destruct Hm as [Hf Hr].
  - destruct (Hk a Hr w1) as [Hf' Hr']. split; [| exact Hr'].
    eapply frame_trans; eassumption.
  - contradiction.
Qed.

(** [except Exception] turns a body that keeps the frame into a
    statement that cannot fail. *)
Lemma never_fails_try {A} (Q : A -> Prop) (m : M World A)
    (h : exn -> M World A) :
  may_fail Q m -> (forall e, never_fails Q (h e)) ->
  never_fails Q (try_except m is_Exception h).
Proof.
  intros Hm Hh w. unfold try_except. specialize (Hm w).
  destruct (m w) as [[a|e] w1]; cbn in Hm; destruct Hm as [Hf Hr].
  - split; assumption.
  - rewrite Hr. destruct (Hh e w1) as [Hf' Hr']. split; [| exact Hr'].
    eapply frame_trans; eassumption.
Qed.

Lemma may_fail_try {A} (Q : A -> Prop) (m : M World A) (h : exn -> M World A) :
  may_fail Q m -> (forall e, may_fail Q (h e)) ->
  may_fail Q (try_except m is_Exception h).
Proof.
  intros Hm Hh w. unfold try_except. specialize (Hm w).
  destruct (m w) as [[a|e] w1]; cbn in Hm; destruct Hm as [Hf Hr].
  - split; assumption.
  - rewrite Hr. destruct (Hh e w1) as [Hf' Hr']. split; [| exact Hr'].
    eapply frame_trans; eassumption.
Qed.

Lemma never_fails_for_loop {B R} (items : list B)
    (body : B -> M World (step R)) :
  (forall x, never_fails (fun _ => True) (body x)) ->
  never_fails (fun _ => True) (for_loop items body).
Proof.
  intros Hbody. induction items as [|x items IH]; cbn [for_loop].
  - now apply never_fails_ret.
  - eapply never_fails_bind; [apply Hbody |].
    intros [|r] _; [exact IH | now apply never_fails_ret].
Qed.

(** The primitives. *)
Lemma never_fails_emit (Q : unit -> Prop) (e : event) :
  quiet e = true -> Q tt -> never_fails Q (emit e).
Proof.
  intros He HQ w. split; [| exact HQ]. split; cbn; try reflexivity; [auto |].
  exists [e]. split; [reflexivity | cbn; now rewrite He].
Qed.

Lemma never_fails_tick (Q : nat -> Prop) :
  (forall t, Q t) -> never_fails Q tick.
Proof.
  intros HQ w. split; [| apply HQ]. split; cbn; try reflexivity; [auto |].
  exists []. split; [now rewrite app_nil_r | reflexivity].
Qed.

Lemma never_fails_set_file (Q : unit -> Prop) (p : str) (f : file) :
  Q tt -> never_fails Q (set_file p f).
Proof.
  intros HQ w. split; [| exact HQ]. split; cbn; try reflexivity.
  - intros q Hq. destruct (decide (p = q)) as [->|Hne].
    + rewrite lookup_insert_eq. eauto.
    + now rewrite lookup_insert_ne.
  - exists []. split; [now rewrite app_nil_r | reflexivity].
Qed.

Lemma never_fails_counter (Q : unit -> Prop) (f : Stats -> Stats) :
  (forall s, successful_downloads (f s) = successful_downloads s) ->
  (forall s, failed_downloads (f s) = failed_downloads s) ->
  Q tt -> never_fails Q (modify (with_stats f)).
Proof.
  intros Hs Hf HQ w. split; [| exact HQ]. split; cbn; auto.
  exists []. split; [now rewrite app_nil_r | reflexivity].
Qed.

Lemma try_except_bind {S A B} (m : M S A) (k : A -> M S B) (c : exn -> bool)
    (h : exn -> M S B) (s : S) :
  try_except (bind m k) c h s =
  match m s with
  | (Ret a, s1) => try_except (k a) c h s1
  | (Raise e, s1) => if c e then h e s1 else (Raise e, s1)
  end.
Proof. unfold try_except, bind. now destruct (m s) as [[a|e] s1]. Qed.

End FrameFacts.

(** ** Lookups raise [Exception]s only *)

Section LookupFacts.

Lemma not_cancelled_obind {A B} (o : outcome A) (f : A -> outcome B) :
  Spec.not_cancelled o = true ->
  (forall a, Spec.not_cancelled (f a) = true) ->
  Spec.not_cancelled (obind o f) = true.
Proof. destruct o as [a|e]; cbn; auto. Qed.

Lemma not_cancelled_get_default (v : json) (key : str) (dflt : json) :
  Spec.not_cancelled (get_default v key dflt) = true.
Proof. destruct v; reflexivity. Qed.

Lemma not_cancelled_get (v : json) (key : str) :
  Spec.not_cancelled (get v key) = true.
Proof. apply not_cancelled_get_default. Qed.

Lemma not_cancelled_getitem (v : json) (key : str) :
  Spec.not_cancelled (getitem v key) = true.
Proof. destruct v; try reflexivity. cbn. now destruct (assoc key fields). Qed.

Lemma not_cancelled_py_in (key : str) (v : json) :
  Spec.not_cancelled (py_in key v) = true.
Proof. destruct v; reflexivity. Qed.

Lemma not_cancelled_index0 (v : json) : Spec.not_cancelled (index0 v) = true.
Proof. destruct v as [| | |[|]|[|]| |[|]]; reflexivity. Qed.

Lemma not_cancelled_len (v : json) : Spec.not_cancelled (len v) = true.
Proof. destruct v; reflexivity. Qed.

Lemma not_cancelled_iter (v : json) : Spec.not_cancelled (iter v) = true.
Proof. destruct v; reflexivity. Qed.

End LookupFacts.

Create HintDb nc discriminated.
#[export] Hint Resolve not_cancelled_get_default not_cancelled_get
  not_cancelled_getitem not_cancelled_py_in not_cancelled_index0
  not_cancelled_len not_cancelled_iter : nc.

(** Walks through a chain of lookups. *)
Ltac nc_solve :=
  repeat first
    [ reflexivity
    | solve [auto with nc]
    | apply not_cancelled_obind; [| intros ?]
    | match goal with
      | |- Spec.not_cancelled (if ?b then _ else _) = true => destruct b
      | |- Spec.not_cancelled (match ?x with _ => _ end) = true => destruct x
      end ].

Section LookupChains.
Context {U : UnicodeData} (env : ZvukMultiBot.Env).
Import ZvukMultiBot.

Lemma not_cancelled_result_field (response : json) (field : str) :
  Spec.not_cancelled (result_field response field) = true.
Proof. unfold result_field. nc_solve. Qed.

Lemma not_cancelled_lacks_result (info : json) :
  Spec.not_cancelled (lacks_result info) = true.
Proof. unfold lacks_result. nc_solve. Qed.

Lemma not_cancelled_lyrics_text (lyrics : json) :
  Spec.not_cancelled (lyrics_text lyrics) = true.
Proof. unfold lyrics_text. nc_solve. Qed.

Lemma not_cancelled_reported_available (quality_results : json) (q : str) :
  Spec.not_cancelled (reported_available quality_results q) = true.
Proof. unfold reported_available. nc_solve. Qed.

Lemma not_cancelled_track_filename (track_data : json) (quality : str)
    (position : json) :
  Spec.not_cancelled (track_filename env track_data quality position) = true.
Proof. unfold track_filename. nc_solve. Qed.

End LookupChains.

#[export] Hint Resolve not_cancelled_result_field not_cancelled_lacks_result
  not_cancelled_lyrics_text not_cancelled_reported_available
  not_cancelled_track_filename : nc.

(** ** The bot keeps the frame outside the chunk loop *)

(** One step through a statement, by its shape. *)
Ltac frame_step :=
  match goal with
  | |- Logic.never_fails _ (Exec.bind _ _) =>
      eapply never_fails_bind with (Q := fun _ => True); [| intros ? _]
  | |- Logic.may_fail _ (Exec.bind _ _) =>
      eapply may_fail_bind with (Q := fun _ => True); [| intros ? _]
  | |- Logic.never_fails _ (Exec.try_except _ is_Exception _) =>
      apply never_fails_try; [| intros ?]
  | |- Logic.may_fail _ (Exec.try_except _ is_Exception _) =>
      apply may_fail_try; [| intros ?]
  | |- Logic.never_fails _ (Exec.ret _) => apply never_fails_ret; exact I
  | |- Logic.may_fail _ (Exec.ret _) => apply may_fail_ret; exact I
  | |- Logic.may_fail _ (Exec.raise _) => apply may_fail_raise
  | |- Logic.may_fail _ (Exec.lift _) =>
      apply may_fail_lift; [| intros; exact I]
  | |- Logic.never_fails _ (ZvukMultiBot.emit _) =>
      apply never_fails_emit; [reflexivity | exact I]
  | |- Logic.never_fails _ ZvukMultiBot.tick =>
      apply never_fails_tick; intros; exact I
  | |- Logic.never_fails _ (ZvukMultiBot.set_file _ _) =>
      apply never_fails_set_file; exact I
  | |- Logic.never_fails _ (Exec.modify (ZvukMultiBot.with_stats _)) =>
      apply never_fails_counter; [reflexivity | reflexivity | exact I]
  | |- Logic.never_fails _ (if ?b then _ else _) => destruct b
  | |- Logic.may_fail _ (if ?b then _ else _) => destruct b
  | |- Logic.never_fails _ (match ?x with _ => _ end) => destruct x
  | |- Logic.may_fail _ (match ?x with _ => _ end) => destruct x
  end.

Create HintDb frame discriminated.

Ltac frame_auto :=
  repeat first
    [ solve [auto with nc]
    | solve [auto with frame]
    | solve [apply never_fails_may_fail; auto with frame]
    | frame_step
    | apply never_fails_may_fail; frame_step ].

Section BotFrame.
Context {U : UnicodeData} (env : ZvukMultiBot.Env)
        (config : ZvukMultiBot.ZvukConfig)
        (Hnc : Logic.no_cancellation env).
Import ZvukMultiBot Logic.

Lemma may_fail_request (method url : str) (kwargs : dict) :
  may_fail readable (request env method url kwargs).
Proof.
  unfold request.
  eapply may_fail_bind with (Q := fun _ => True).
  { apply never_fails_may_fail. frame_step. }
  intros t _.
  eapply may_fail_bind with (Q := fun _ => True).
  { apply never_fails_may_fail. frame_step. }
  intros _ _.
  apply may_fail_lift.
  - apply (nc_request env Hnc).
  - intros r Hr. exact (nc_response env Hnc _ _ _ _ _ Hr).
Qed.

Lemma never_fails_try_request (method url : str) (kwargs : dict)
    (attempt : Z) :
  never_fails (fun _ => True) (try_request env config method url kwargs attempt).
Proof.
  unfold try_request. apply never_fails_try.
  - unfold incr_requests_made.
    eapply may_fail_bind with (Q := fun _ => True).
    { apply never_fails_may_fail. frame_step. }
    intros _ _.
    eapply may_fail_bind; [apply may_fail_request |].
    intros r (Hj & Hr & Ht & _).
    frame_auto.
  - intros e. frame_auto.
Qed.

Lemma never_fails_retry_iteration (method url : str) (kwargs : dict)
    (attempt : Z) :
  never_fails (fun _ => True)
    (retry_iteration env config method url kwargs attempt).
Proof.
  unfold retry_iteration.
  eapply never_fails_bind; [apply never_fails_try_request |].
  intros c _. frame_auto.
Qed.

(** [make_request] never raises when nothing is cancelled. *)
Lemma never_fails_make_request (method endpoint : str) (kwargs : dict) :
  never_fails (fun _ => True) (make_request env config method endpoint kwargs).
Proof.
  unfold make_request. cbv zeta.
  frame_step; [frame_auto |].
  eapply never_fails_bind;
    [apply never_fails_for_loop; intros; apply never_fails_retry_iteration |].
  intros r _. frame_auto.
Qed.

Hint Resolve never_fails_make_request : frame.

Lemma never_fails_get_tracks (ids : list json) (details : bool) :
  never_fails (fun _ => True) (get_tracks env config ids details).
Proof. unfold get_tracks. auto with frame. Qed.

Lemma never_fails_get_releases (ids : list json) (tracks : bool) :
  never_fails (fun _ => True) (get_releases env config ids tracks).
Proof. unfold get_releases. auto with frame. Qed.

Lemma may_fail_get_stream_url (track_id : json) (quality : str) :
  may_fail (fun _ => True) (get_stream_url env config track_id quality).
Proof. unfold get_stream_url. cbv zeta. frame_auto. Qed.

Lemma may_fail_get_lyrics (track_id : json) :
  may_fail (fun _ => True) (get_lyrics env config track_id).
Proof. unfold get_lyrics. cbv zeta. frame_auto. Qed.

Lemma may_fail_fs_check (p : str) : may_fail (fun _ => True) (fs_check env p).
Proof.
  unfold fs_check.
  eapply may_fail_bind with (Q := fun _ => True); [frame_auto |].
  intros t _. destruct (fs_error env t p) as [e|] eqn:E; [| frame_auto].
  apply may_fail_raise. destruct e; try reflexivity.
  now destruct (nc_fs env Hnc t p).
Qed.

Hint Resolve never_fails_get_tracks never_fails_get_releases
  may_fail_get_stream_url may_fail_get_lyrics may_fail_fs_check : frame.

Lemma may_fail_mkdir (p : str) : may_fail (fun _ => True) (mkdir env p).
Proof. unfold mkdir. frame_auto. Qed.

Lemma may_fail_write_text (p text : str) :
  may_fail (fun _ => True) (write_text env p text).
Proof. unfold write_text. frame_auto. Qed.

Lemma may_fail_split_lyrics (lyrics : json) :
  may_fail (fun _ => True) (split_lyrics env lyrics).
Proof.
  unfold split_lyrics. frame_step; [frame_auto |].
  apply may_fail_lift; [apply (nc_split env Hnc) | intros; exact I].
Qed.

Hint Resolve may_fail_mkdir may_fail_write_text may_fail_split_lyrics : frame.

Lemma may_fail_save_srt (target : str) (lrc_text : option str) :
  may_fail (fun _ => True) (save_srt env target lrc_text).
Proof.
  unfold save_srt. frame_step; [frame_auto |].
  eapply may_fail_bind with (Q := fun _ => True).
  { apply may_fail_lift; [apply (nc_srt env Hnc) | intros; exact I]. }
  intros srt _. frame_auto.
Qed.

Lemma may_fail_check_track_qualities (track_id : json) :
  may_fail (fun _ => True) (check_track_qualities env track_id).
Proof.
  unfold check_track_qualities.
  eapply may_fail_bind with (Q := fun _ => True); [frame_auto |].
  intros t _. frame_step; [frame_auto |].
  apply may_fail_lift; [apply (nc_qualities env Hnc) | intros; exact I].
Qed.

Hint Resolve may_fail_save_srt may_fail_check_track_qualities : frame.

Lemma may_fail_resolve_quality (track_id : json) (quality : str) :
  may_fail (fun _ => True) (resolve_quality env track_id quality).
Proof. unfold resolve_quality. cbv zeta. frame_auto. Qed.

(** The bot has no fallback switch: a tier reported unavailable is
    replaced by the best available one, here high for flac. *)
Lemma resolve_quality_degrades_to_high (track_id quality_results : json)
    (flac high : json) (w : World) :
  check_all_qualities env (clock w) track_id = Ret quality_results ->
  reported_available quality_results (lit "flac") = Ret flac ->
  truthy flac = false ->
  reported_available quality_results (lit "high") = Ret high ->
  truthy high = true ->
  fst (resolve_quality env track_id (lit "flac") w) = Ret (Some (lit "high")).
Proof.
  intros Hcheck Hflac Hno Hhigh Hyes.
  unfold resolve_quality, check_track_qualities, bind, tick, emit, modify,
    lift.
  cbn [clock]. rewrite Hcheck, Hflac, Hno. cbn [negb].
  unfold get_best_available_quality. cbn [List.find].
  rewrite Hflac, Hno, Hhigh, Hyes. reflexivity.
Qed.

(** The side files are written, or not, without touching the rest. *)
Lemma never_fails_save_lyrics_beside (filepath : str) (track_id : json)
    (save_lyrics save_subtitles : bool) :
  never_fails (fun _ => True)
    (save_lyrics_beside env config filepath track_id save_lyrics
       save_subtitles).
Proof. unfold save_lyrics_beside. frame_auto. Qed.

(** [_embed_track_metadata] catches everything: it cannot fail. *)
Lemma never_fails_embed_track_metadata (filepath : str)
    (track_data track_id : json)
    (download_cover save_lyrics save_subtitles : bool) :
  never_fails (fun _ => True)
    (_embed_track_metadata env config filepath track_data track_id
       download_cover save_lyrics save_subtitles).
Proof.
  unfold _embed_track_metadata. apply never_fails_try; [| intros; frame_auto].
  frame_step.
  { frame_auto. }
  destruct a as [lyrics lrc_text].
  frame_step.
  { frame_auto. }
  rename a into wants_cover.
  eapply may_fail_bind with (Q := fun _ => True).
  { destruct wants_cover; [| frame_auto].
    apply never_fails_may_fail, never_fails_try; [| intros; frame_auto].
    frame_step; [frame_auto |].
    frame_step; [frame_auto |].
    eapply may_fail_bind with (Q := fun _ => True); [frame_auto |].
    intros t _. frame_step; [frame_auto |].
    eapply may_fail_bind with (Q := fun _ => True).
    { apply may_fail_lift; [apply (nc_cover env Hnc) | intros; exact I]. }
    intros cover_data _.
    destruct (nonempty cover_data); [| frame_auto].
    apply never_fails_may_fail, never_fails_try; [| intros; frame_auto].
    frame_step; [frame_auto |].
    eapply may_fail_bind with (Q := fun _ => True).
    { apply may_fail_lift; [apply (nc_optimize env Hnc) | intros; exact I]. }
    intros optimized _. unfold incr_covers_downloaded. frame_auto. }
  intros cover_data _.
  eapply may_fail_bind with (Q := fun _ => True); [frame_auto |].
  intros t _. frame_step; [frame_auto |].
  eapply may_fail_bind with (Q := fun _ => True).
  { apply may_fail_lift; [apply (nc_embed env Hnc) | intros; exact I]. }
  intros ok _. unfold incr_metadata_embedded.
  frame_step; [frame_auto |].
  frame_auto.
Qed.

(** The chunk loop appends every chunk to the file and does nothing
    else. *)
Lemma write_chunks_run (p : str) (cs : list bytes) (w : World) (d : bytes) :
  files w !! p = Some (Audio d) ->
  exists w',
    write_chunks p cs w = (Ret tt, w')
    /\ files w' !! p = Some (Audio (d ++ concat cs))
    /\ events w' = events w ++ List.map (WriteChunk p) cs
    /\ successful_downloads (stats w') = successful_downloads (stats w)
    /\ failed_downloads (stats w') = failed_downloads (stats w)
    /\ clock w' = clock w.
Proof.
  revert w d. induction cs as [|c cs IH]; intros w d Hd.
  - exists w. cbn. rewrite !app_nil_r. repeat split; auto.
  - cbn [write_chunks].
    unfold bind at 1. unfold write_chunk at 1.
    unfold bind at 1, emit at 1, modify at 1 2.
    cbn [files events stats clock]. rewrite Hd.
    unfold bind at 1, add_total_data_downloaded at 1, modify at 1.
    match goal with |- context [write_chunks p cs ?w1] =>
      destruct (IH w1 (d ++ c)) as (w' & Hrun & Hfile & Hev & Hs & Hf & Hc)
    end.
    { cbn. apply lookup_insert_eq. }
    exists w'. rewrite Hrun. repeat split.
    + rewrite Hfile. cbn. now rewrite <- app_assoc.
    + rewrite Hev. cbn. now rewrite <- app_assoc.
    + rewrite Hs. reflexivity.
    + rewrite Hf. reflexivity.
    + rewrite Hc. reflexivity.
Qed.

(** *** A download is counted exactly when it is reported *)

Lemma counts_success_bind {A} (Q : A -> Prop) (m : M World A)
    (k : A -> M World (flow bool)) :
  may_fail Q m -> (forall a, Q a -> counts_success (k a)) ->
  counts_success (bind m k).
Proof.
  intros Hm Hk w. unfold bind. specialize (Hm w).
  destruct (m w) as [[a|e] w1]; cbn in Hm; destruct Hm as [[Hs Hf _ _] Hr].
  - specialize (Hk a Hr w1). unfold download_post in *.
    destruct Hk as [Hf' Hs']. split; [congruence |].
    destruct (fst (k a w1)) as [[| |[|]]|e']; rewrite <- ?Hs; exact Hs'.
  - cbn. split; [exact Hf | split; [exact Hr | exact Hs]].
Qed.

Lemma counts_success_ret (c : flow bool) :
  c <> Return true -> counts_success (ret c).
Proof.
  intros Hc w. cbn. split; [reflexivity |].
  destruct c as [| |[|]]; try reflexivity. congruence.
Qed.

Lemma write_chunks_counters (p : str) (cs : list bytes) (w : World) :
  exists w',
    write_chunks p cs w = (Ret tt, w')
    /\ successful_downloads (stats w') = successful_downloads (stats w)
    /\ failed_downloads (stats w') = failed_downloads (stats w).
Proof.
  revert w. induction cs as [|c cs IH]; intros w; [exists w; cbn; auto |].
  cbn [write_chunks].
  unfold bind at 1. unfold write_chunk at 1.
  unfold bind at 1, emit at 1, modify at 1 2.
  unfold bind at 1, add_total_data_downloaded at 1, modify at 1.
  match goal with |- context [write_chunks p cs ?w1] =>
    destruct (IH w1) as (w' & Hr & Hs & Hf)
  end.
  exists w'. rewrite Hr, Hs, Hf. cbn. auto.
Qed.

Lemma open_wb_counters (p : str) (w : World) :
  stats (snd (open_wb env p w)) = stats w
  /\ match fst (open_wb env p w) with
     | Ret _ => True
     | Raise e => is_Exception e = true
     end.
Proof.
  unfold open_wb, fs_check, bind, tick, emit, set_file, modify, ret, raise.
  destruct (fs_error env (clock w) p) as [e|] eqn:Hopen; cbn.
  - split; [reflexivity |]. destruct e; try reflexivity.
    now destruct (nc_fs env Hnc (clock w) p).
  - auto.
Qed.

Lemma counts_success_intro (m : M World (flow bool)) :
  (forall w r w', m w = (r, w') -> download_post w r w') -> counts_success m.
Proof. intros H w. apply H. now destruct (m w). Qed.

Lemma counts_success_store_stream (response : response) (filepath : str)
    (track_data track_id : json)
    (embed_metadata_ download_cover save_lyrics save_subtitles : bool) :
  readable response ->
  counts_success
    (store_stream env config response filepath track_data track_id
       embed_metadata_ download_cover save_lyrics save_subtitles).
Proof.
  intros (_ & _ & _ & Hchunks). apply counts_success_intro. intros w r w'.
  unfold store_stream, download_post.
  destruct (status response =? 200); [| intros [= <- <-]; cbn; auto].
  unfold bind at 1.
  pose proof (open_wb_counters filepath w) as [Hst1 He1].
  destruct (open_wb env filepath w) as [[[]|e] w1]; cbn in Hst1, He1.
  2: { intros [= <- <-]. rewrite Hst1. auto. }
  unfold bind at 1.
  destruct (write_chunks_counters filepath (chunks response) w1)
    as (w2 & Hr & Hs & Hf).
  rewrite Hr. rewrite Hst1 in Hs, Hf.
  destruct (chunks_error response) as [e|].
  { intros [= <- <-]. split; [assumption | split; [| assumption]].
    destruct e; try reflexivity. congruence. }
  unfold bind at 1. unfold incr_successful_downloads at 1, modify at 1.
  unfold bind.
  match goal with |- context [(if embed_metadata_ then ?a else ?b) ?w3] =>
    assert (Hafter : never_fails (fun _ => True)
                       (if embed_metadata_ then a else b))
      by (destruct embed_metadata_;
          [apply never_fails_embed_track_metadata
          | apply never_fails_save_lyrics_beside]);
    destruct (Hafter w3) as [[Hs4 Hf4 _ _] Hret];
    destruct ((if embed_metadata_ then a else b) w3) as [[[]|e] w4]
  end; cbn in Hs4, Hf4, Hret; [| contradiction].
  intros [= <- <-]. split; congruence.
Qed.

Lemma counts_success_download_track_body (track_id : json) (quality : str)
    (custom_filename : option str) (embed_metadata_ download_cover : bool)
    (target_dir : option str) (position : json)
    (save_lyrics save_subtitles : bool) :
  counts_success
    (track_info <- get_tracks env config [track_id] true ;;
     missing <- lift (lacks_result track_info) ;;
     if missing then ret (Return false) else
     result <- lift (getitem track_info (lit "result")) ;;
     tracks <- lift (getitem result (lit "tracks")) ;;
     track_data <- lift (get tracks (py_str (repr env) track_id)) ;;
     if negb (truthy track_data) then ret (Return false) else
     resolved <-
       (if embed_metadata_ then resolve_quality env track_id quality
        else ret (Some quality)) ;;
     match resolved with
     | None => ret (Return false)
     | Some quality =>
         stream_url <- get_stream_url env config track_id quality ;;
         if negb (truthy stream_url) then ret (Return false) else
         let dest_dir := default (download_path config) target_dir in
         mkdir env dest_dir ;;
         filename <-
           (if nonempty custom_filename then ret (default [] custom_filename)
            else lift (track_filename env track_data quality position)) ;;
         let filepath := path_join env dest_dir filename in
         url <-
           match stream_url with
           | JStr u => ret u
           | _ => raise (Exception "TypeError")
           end ;;
         response <- request env (lit "GET") url [] ;;
         store_stream env config response filepath track_data track_id
           embed_metadata_ download_cover save_lyrics save_subtitles
     end)%exec.
Proof.
  assert (Hfalse : counts_success (ret (Return false)))
    by (apply counts_success_ret; discriminate).
  eapply counts_success_bind with (Q := fun _ => True); [frame_auto |].
  intros track_info _.
  eapply counts_success_bind with (Q := fun _ => True); [frame_auto |].
  intros missing _. destruct missing; [exact Hfalse |].
  eapply counts_success_bind with (Q := fun _ => True); [frame_auto |].
  intros result _.
  eapply counts_success_bind with (Q := fun _ => True); [frame_auto |].
  intros tracks _.
  eapply counts_success_bind with (Q := fun _ => True); [frame_auto |].
  intros track_data _. destruct (negb (truthy track_data)); [exact Hfalse |].
  eapply counts_success_bind with (Q := fun _ => True).
  { destruct embed_metadata_;
      [apply may_fail_resolve_quality | frame_auto]. }
  intros [q|] _; [| exact Hfalse].
  eapply counts_success_bind with (Q := fun _ => True); [frame_auto |].
  intros stream_url _. destruct (negb (truthy stream_url)); [exact Hfalse |].
  cbv zeta.
  eapply counts_success_bind with (Q := fun _ => True); [frame_auto |].
  intros _ _.
  eapply counts_success_bind with (Q := fun _ => True); [frame_auto |].
  intros filename _.
  eapply counts_success_bind with (Q := fun _ => True).
  { destruct stream_url; frame_auto. }
  intros url _.
  eapply counts_success_bind; [apply may_fail_request |].
  intros response Hresp. now apply counts_success_store_stream.
Qed.

(** [download_track] returns a boolean, [True] exactly when it counted
    the download as successful; otherwise it counted at most one
    failure. *)
Lemma download_track_reports_counted_success (track_id : json) (quality : str)
    (custom_filename : option str) (embed_metadata_ download_cover : bool)
    (target_dir : option str) (position : json)
    (save_lyrics save_subtitles : bool) (w : World) :
  exists b w',
    download_track env config track_id quality custom_filename embed_metadata_
      download_cover target_dir position save_lyrics save_subtitles w
    = (Ret b, w')
    /\ successful_downloads (stats w')
       = successful_downloads (stats w) + (if b then 1 else 0)
    /\ (b = true -> failed_downloads (stats w') = failed_downloads (stats w))
    /\ failed_downloads (stats w') <= failed_downloads (stats w) + 1.
Proof.
  unfold download_track. unfold bind at 1. unfold try_except.
  pose proof (counts_success_download_track_body track_id quality
                custom_filename embed_metadata_ download_cover target_dir
                position save_lyrics save_subtitles w) as [Hf Hs].
  match type of Hf with context [snd (?m w)] =>
    destruct (m w) as [[[| |[|]]|e] w1]
  end; cbn in Hf, Hs.
  - eexists false, _. split; [reflexivity |]. cbn. repeat split; try lia; try discriminate.
  - eexists false, _. split; [reflexivity |]. cbn. repeat split; try lia; try discriminate.
  - eexists true, _. split; [reflexivity |]. cbn. repeat split; try lia.
  - eexists false, _. split; [reflexivity |]. cbn. repeat split; try lia; try discriminate.
  - destruct Hs as [He Hs]. rewrite He.
    eexists false, _. split; [reflexivity |]. cbn. repeat split; try lia; try discriminate.
Qed.

(** The downloads a release counts are the tasks that returned [True]. *)
Lemma release_count_matches_counter (ids positions : list json)
    (quality release_folder : str) (save_lyrics save_subtitles : bool)
    (w w' : World) (results : list (outcome bool)) :
  runs_all
    (track_tasks env config ids positions quality release_folder save_lyrics
       save_subtitles) w results w' ->
  successful_downloads (stats w')
  = successful_downloads (stats w) + count_true results
  /\ Forall (fun r => exists b, r = Ret b) results.
Proof.
  unfold track_tasks.
  remember (zip_with _ ids positions) as tasks eqn:Htasks.
  intros Hall. revert ids positions Htasks.
  induction Hall as [w|t rest w r w1 rs w' Hrun Hall IH];
    intros ids positions Htasks.
  - split; [unfold count_true; cbn; lia | constructor].
  - destruct ids as [|i ids]; [discriminate |].
    destruct positions as [|p positions]; [discriminate |].
    cbn in Htasks. injection Htasks as -> Hrest.
    destruct (IH ids positions Hrest) as [Hcount Hbools].
    destruct (download_track_reports_counted_success i quality None true true
                (Some release_folder) p save_lyrics save_subtitles w)
      as (b & w1' & Hrun' & Hs & _).
    rewrite Hrun in Hrun'. injection Hrun' as Hr Hw. subst r w1'.
    split.
    + rewrite Hcount, Hs. unfold count_true. cbn [List.filter].
      destruct b; cbn [length]; lia.
    + constructor; [eauto | exact Hbools].
Qed.

(** C9. Once the audio of a track is on disk, nothing that goes wrong
    while embedding (lyrics, cover, tags, side files) undoes it:
    [_embed_track_metadata] returns whatever fails inside it; the body of
    [download_track] that stores the stream returns [True] with the
    download counted as successful and not as failed; [download_track]
    as a whole returns [True] exactly when it counted the download; the
    file is still there; and every chunk was written before anything of
    the embedding happened. And so for the whole of [download_track]: a
    run that reaches the stream of the track and writes it returns
    [True], has counted one success and no failure, and leaves the file
    on disk, whatever the embedding does. *)
Theorem embedding_failure_keeps_the_download (response : response)
    (filepath : str) (track_data track_id : json)
    (embed_metadata_ download_cover save_lyrics save_subtitles : bool)
    (w : World) :
  status response = 200 ->
  chunks_error response = None ->
  fs_error env (clock w) filepath = None ->
  (forall w0, exists w1,
     _embed_track_metadata env config filepath track_data track_id
       download_cover save_lyrics save_subtitles w0 = (Ret tt, w1))
  /\ (forall quality custom_filename target_dir position w0,
        exists b w1,
          download_track env config track_id quality custom_filename
            embed_metadata_ download_cover target_dir position save_lyrics
            save_subtitles w0 = (Ret b, w1)
          /\ (b = true <->
               successful_downloads (stats w1)
               = successful_downloads (stats w0) + 1))
  /\ (exists w_written w',
       bind (open_wb env filepath)
         (fun _ => write_chunks filepath (chunks response)) w
         = (Ret tt, w_written)
       /\ files w_written !! filepath = Some (Audio (concat (chunks response)))
       /\ events w_written =
          events w ++ OpenWrite filepath
                      :: List.map (WriteChunk filepath) (chunks response)
       /\ store_stream env config response filepath track_data track_id
            embed_metadata_ download_cover save_lyrics save_subtitles w
          = (Ret (Return true), w')
       /\ successful_downloads (stats w') = successful_downloads (stats w) + 1
       /\ failed_downloads (stats w') = failed_downloads (stats w)
       /\ is_Some (files w' !! filepath)
       /\ exists later,
            events w' = events w_written ++ later
            /\ forallb quiet later = true)
  /\ (forall quality custom_filename target_dir position w0 info result
             tracks q u w1 w2 w3 w4 filename,
        get_tracks env config [track_id] true w0 = (Ret info, w1) ->
        lacks_result info = Ret false ->
        getitem info (lit "result") = Ret result ->
        getitem result (lit "tracks") = Ret tracks ->
        get tracks (py_str (repr env) track_id) = Ret track_data ->
        truthy track_data = true ->
        (if embed_metadata_ then resolve_quality env track_id quality
         else ret (Some quality)) w1 = (Ret (Some q), w2) ->
        get_stream_url env config track_id q w2 = (Ret (JStr u), w3) ->
        u <> [] ->
        mkdir env (default (download_path config) target_dir) w3
          = (Ret tt, w4) ->
        (if nonempty custom_filename then Ret (default [] custom_filename)
         else track_filename env track_data q position) = Ret filename ->
        filepath
          = path_join env (default (download_path config) target_dir)
              filename ->
        request env (lit "GET") u [] w4 = (Ret response, w) ->
        exists w',
          download_track env config track_id quality custom_filename
            embed_metadata_ download_cover target_dir position save_lyrics
            save_subtitles w0 = (Ret true, w')
          /\ successful_downloads (stats w')
             = successful_downloads (stats w0) + 1
          /\ failed_downloads (stats w') = failed_downloads (stats w0)
          /\ is_Some (files w' !! filepath)).
Proof.
  intros Hstatus Hchunks Hopen. split.
  { intros w0.
    destruct (never_fails_embed_track_metadata filepath track_data track_id
                download_cover save_lyrics save_subtitles w0) as [_ Hr].
    destruct (_embed_track_metadata _ _ _ _ _ _ _ _ w0) as [[[]|e] w1];
      cbn in Hr; [eauto | contradiction]. }
  split.
  { intros quality custom_filename target_dir position w0.
    destruct (download_track_reports_counted_success track_id quality
                custom_filename embed_metadata_ download_cover target_dir
                position save_lyrics save_subtitles w0)
      as (b & w1 & Hrun & Hs & _).
    exists b, w1. split; [exact Hrun |]. rewrite Hs.
    destruct b; split; try reflexivity; try discriminate; lia. }
  assert (Hopened : exists w1,
            open_wb env filepath w = (Ret tt, w1)
            /\ files w1 !! filepath = Some (Audio [])
            /\ events w1 = events w ++ [OpenWrite filepath]
            /\ stats w1 = stats w).
  { unfold open_wb, fs_check, bind, tick, emit, set_file, modify, ret.
    cbn [clock]. rewrite Hopen. eexists. split; [reflexivity |].
    cbn. rewrite lookup_insert_eq. auto. }
  destruct Hopened as (w1 & Hrun1 & Hfile1 & Hev1 & Hst1).
  destruct (write_chunks_run filepath (chunks response) w1 [] Hfile1)
    as (w2 & Hrun2 & Hfile2 & Hev2 & Hs2 & Hf2 & _).
  set (after := if embed_metadata_ then
                  _embed_track_metadata env config filepath track_data
                    track_id download_cover save_lyrics save_subtitles
                else save_lyrics_beside env config filepath track_id
                       save_lyrics save_subtitles).
  assert (Hafter : never_fails (fun _ => True) after).
  { subst after. destruct embed_metadata_;
      [apply never_fails_embed_track_metadata
      | apply never_fails_save_lyrics_beside]. }
  set (w3 := with_stats
               (fun s =>
                  {| requests_made := requests_made s;
                     successful_downloads := successful_downloads s + 1;
                     failed_downloads := failed_downloads s;
                     total_data_downloaded := total_data_downloaded s;
                     metadata_embedded := metadata_embedded s;
                     covers_downloaded := covers_downloaded s |}) w2).
  destruct (Hafter w3) as [Hframe Hret].
  destruct (after w3) as [[[]|e] w4] eqn:Hrun4; cbn in Hframe, Hret;
    [| contradiction].
  destruct Hframe as [Hs4 Hf4 Hfiles4 (later & Hev4 & Hquiet)].
  assert (Hstore :
            store_stream env config response filepath track_data track_id
              embed_metadata_ download_cover save_lyrics save_subtitles w
            = (Ret (Return true), w4)).
  { unfold store_stream. rewrite Hstatus. cbn [Z.eqb Pos.eqb].
    unfold bind at 1. rewrite Hrun1.
    unfold bind at 1. rewrite Hrun2. rewrite Hchunks.
    unfold bind at 1. unfold incr_successful_downloads, modify.
    fold w3. unfold bind. fold after. now rewrite Hrun4. }
  assert (Hsucc : successful_downloads (stats w4)
                  = successful_downloads (stats w) + 1).
  { rewrite Hs4. subst w3. cbn. rewrite Hs2, Hst1. reflexivity. }
  assert (Hfail : failed_downloads (stats w4) = failed_downloads (stats w)).
  { rewrite Hf4. subst w3. cbn. rewrite Hf2, Hst1. reflexivity. }
  assert (Hkept : is_Some (files w4 !! filepath)).
  { apply Hfiles4. subst w3. cbn. rewrite Hfile2. eauto. }
  split.
  { exists w2, w4. repeat split.
    - unfold bind. now rewrite Hrun1.
    - exact Hfile2.
    - rewrite Hev2, Hev1. now rewrite <- app_assoc.
    - exact Hstore.
    - exact Hsucc.
    - exact Hfail.
    - exact Hkept.
    - exists later. split; [| exact Hquiet]. rewrite Hev4. subst w3.
      reflexivity. }
  intros quality custom_filename target_dir position w0 info result tracks q
    u wa wb wc wd filename Hget Hlacks Hresult Htracks Hdata Htruthy Hquality
    Hurl Hu Hmkdir Hfilename Hpath Hrequest.
  assert (F1 : frame w0 wa).
  { pose proof (never_fails_get_tracks [track_id] true w0) as [F _].
    now rewrite Hget in F. }
  assert (F2 : frame wa wb).
  { destruct embed_metadata_.
    - pose proof (may_fail_resolve_quality track_id quality wa) as [F _].
      now rewrite Hquality in F.
    - injection Hquality as _ <-. apply frame_refl. }
  assert (F3 : frame wb wc).
  { pose proof (may_fail_get_stream_url track_id q wb) as [F _].
    now rewrite Hurl in F. }
  assert (F4 : frame wc wd).
  { pose proof (may_fail_mkdir (default (download_path config) target_dir) wc)
      as [F _].
    now rewrite Hmkdir in F. }
  assert (F5 : frame wd w).
  { pose proof (may_fail_request (lit "GET") u [] wd) as [F _].
    now rewrite Hrequest in F. }
  pose proof (frame_trans _ _ _ F1
                (frame_trans _ _ _ F2
                   (frame_trans _ _ _ F3 (frame_trans _ _ _ F4 F5))))
    as [Fs Ff _ _].
  exists w4. split; [| split; [lia | split; [lia | exact Hkept]]].
  unfold download_track. unfold bind at 1.
  rewrite try_except_bind, Hget.
  rewrite try_except_bind. unfold lift at 1. rewrite Hlacks.
  rewrite try_except_bind. unfold lift at 1. rewrite Hresult.
  rewrite try_except_bind. unfold lift at 1. rewrite Htracks.
  rewrite try_except_bind. unfold lift at 1. rewrite Hdata.
  rewrite Htruthy. cbn [negb].
  rewrite try_except_bind, Hquality.
  rewrite try_except_bind, Hurl.
  assert (Hnonempty : truthy (JStr u) = true).
  { cbn. destruct u; [contradiction | reflexivity]. }
  rewrite Hnonempty. cbn [negb]. cbv zeta.
  rewrite try_except_bind, Hmkdir.
  rewrite try_except_bind.
  assert (Hname :
            (if nonempty custom_filename
             then ret (default [] custom_filename)
             else lift (track_filename env track_data q position)) wd
            = (Ret filename, wd)).
  { destruct (nonempty custom_filename); unfold ret, lift; now rewrite Hfilename. }
  rewrite Hname.
  rewrite try_except_bind. unfold ret at 1.
  rewrite try_except_bind, Hrequest.
  rewrite <- Hpath. unfold try_except. rewrite Hstore. reflexivity.
Qed.

End BotFrame.

(** The scripted environments raise no cancellation. *)
Lemma env_around_no_cancellation
    (net : nat -> str -> str -> dict -> outcome ZvukMultiBot.response)
    (qualities : json) :
  (forall t m u k,
     match net t m u k with
     | Ret r => Logic.readable r
     | Raise e => is_Exception e = true
     end) ->
  Logic.no_cancellation (Examples.env_around net qualities).
Proof.
  intros Hnet. split; cbn; try reflexivity; try discriminate.
  - intros t m u k. specialize (Hnet t m u k).
    destruct (net t m u k) as [r|[]]; try reflexivity. discriminate.
  - intros t m u k r Hr. specialize (Hnet t m u k). now rewrite Hr in Hnet.
Qed.

Lemma trio_env_no_cancellation : Logic.no_cancellation Examples.trio_env.
Proof.
  apply env_around_no_cancellation. intros t m u k.
  unfold Examples.trio_net.
  generalize (Examples.requested_id k). intros j.
  repeat match goal with
         | |- context [if ?b then _ else _] => destruct b
         end;
    repeat match goal with
           | |- context [match ?x with _ => _ end] => is_var x; destruct x
           end;
    try reflexivity;
    unfold Logic.readable; cbn;
    repeat split; first [reflexivity | discriminate].
Qed.

Lemma embedding_failure_keeps_the_download_witness :
  exists w',
    ZvukMultiBot.download_track (U := ascii_table) Examples.trio_env
      ZvukMultiBot.default_config (JInt 1) (lit "flac") None true true None
      (JInt 1) true true Examples.fresh
    = (Ret true, w')
    /\ ZvukMultiBot.successful_downloads (ZvukMultiBot.stats w') = 1
    /\ ZvukMultiBot.failed_downloads (ZvukMultiBot.stats w') = 0
    /\ is_Some
         (ZvukMultiBot.files w' !! lit "./downloads/01. Trio - One.mp3").
Proof.
  pose (env := Examples.trio_env). pose (cfg := ZvukMultiBot.default_config).
  let v := eval vm_compute in
    (snd (ZvukMultiBot.get_tracks env cfg [JInt 1] true Examples.fresh)) in
  pose (w1 := v).
  let v := eval vm_compute in
    (snd (ZvukMultiBot.resolve_quality env (JInt 1) (lit "flac") w1)) in
  pose (w2 := v).
  let v := eval vm_compute in
    (snd (ZvukMultiBot.get_stream_url env cfg (JInt 1) (lit "high") w2)) in
  pose (w3 := v).
  let v := eval vm_compute in
    (snd (ZvukMultiBot.mkdir env (lit "./downloads") w3)) in
  pose (w4 := v).
  let v := eval vm_compute in
    (snd (ZvukMultiBot.request env (lit "GET")
            (lit "https://cdn.zvuk.com/stream") [] w4)) in
  pose (w := v).
  destruct (embedding_failure_keeps_the_download (U := ascii_table)
              env cfg trio_env_no_cancellation
              (Examples.audio_response Examples.audio)
              (lit "./downloads/01. Trio - One.mp3")
              (snd (Examples.track_record 1 1 "One")) (JInt 1)
              true true true true w eq_refl eq_refl eq_refl)
    as (_ & _ & _ & Hfull).
  destruct (Hfull (lit "flac") None None (JInt 1) Examples.fresh
              Examples.tracks_info
              (JObj [ (lit "tracks", Examples.trio_tracks) ])
              Examples.trio_tracks (lit "high")
              (lit "https://cdn.zvuk.com/stream") w1 w2 w3 w4
              (lit "01. Trio - One.mp3"))
    as (w' & Hrun & Hs & Hf & Hfile);
    [ vm_compute; reflexivity | vm_compute; reflexivity
    | vm_compute; reflexivity | vm_compute; reflexivity
    | vm_compute; reflexivity | vm_compute; reflexivity
    | vm_compute; reflexivity | vm_compute; reflexivity
    | discriminate | vm_compute; reflexivity | vm_compute; reflexivity
    | vm_compute; reflexivity | vm_compute; reflexivity | ].
  exists w'. split; [exact Hrun |]. split; [exact Hs |].
  split; [exact Hf | exact Hfile].
Defined.

(** In that run nothing of the embedding succeeded, no tag was written
    and no cover kept; the audio is on disk whole. *)
Example embedding_failed_in_the_run :
  let w' :=
    snd (ZvukMultiBot.store_stream Examples.trio_env
           ZvukMultiBot.default_config (Examples.audio_response Examples.audio)
           (lit "./downloads/Trio - One.mp3")
           (snd (Examples.track_record 1 1 "One")) (JInt 1)
           true true true true Examples.fresh) in
  ZvukMultiBot.metadata_embedded (ZvukMultiBot.stats w') = 0
  /\ ZvukMultiBot.covers_downloaded (ZvukMultiBot.stats w') = 0
  /\ ZvukMultiBot.files w' !! lit "./downloads/Trio - One.mp3"
     = Some (ZvukMultiBot.Audio (concat Examples.audio)).
Proof. vm_compute. auto. Qed.

(** ** Releases *)

Section ReleaseFacts.
Context {U : UnicodeData} (env : ZvukMultiBot.Env)
        (config : ZvukMultiBot.ZvukConfig).
Import ZvukMultiBot Logic.


Lemma count_true_bounds (results : list (outcome bool)) :
  0 <= count_true results <= Z.of_nat (length results).
Proof.
  unfold count_true. split; [lia |].
  apply inj_le, List.filter_length_le.
Qed.





End ReleaseFacts.


(** The scenario of the release with three tracks of which the second
    has no stream location: two downloads succeed; the flac asked for is
    not available and the downloads go on as high. The early
    [return False] of the second track leaves [failed_downloads] as it
    was. *)
Example trio_release_downloads_two_of_three :
  let run :=
    ZvukMultiBot.download_release (U := ascii_table) Examples.trio_env
      ZvukMultiBot.default_config 700 (lit "flac") false false None
      Examples.fresh in
  fst run = Ret 2
  /\ ZvukMultiBot.successful_downloads (ZvukMultiBot.stats (snd run)) = 2
  /\ ZvukMultiBot.failed_downloads (ZvukMultiBot.stats (snd run)) = 0
  /\ ZvukMultiBot.files (snd run)
       !! lit "./downloads/[2022] Trio Live [EP]/01. Trio - One.mp3"
     = Some (ZvukMultiBot.Audio (concat Examples.audio))
  /\ ZvukMultiBot.files (snd run)
       !! lit "./downloads/[2022] Trio Live [EP]/02. Trio - Two.mp3"
     = None.
Proof. vm_compute. auto 10. Qed.

(** ** The synchronous downloader *)

Section DownloaderFrame.
Import SberZvukDownloader Logic.

Lemma grows_ret {A} (a : A) : grows (ret a).
Proof. intros s. exists []. cbn. now rewrite app_nil_r. Qed.

Lemma grows_raise {A} (e : exn) : grows (@raise State A e).
Proof. intros s. exists []. cbn. now rewrite app_nil_r. Qed.

Lemma grows_lift {A} (o : outcome A) : grows (lift o).
Proof. intros s. exists []. cbn. now rewrite app_nil_r. Qed.

Lemma grows_tick : grows tick.
Proof. intros s. exists []. cbn. now rewrite app_nil_r. Qed.

Lemma grows_emit (e : event) : grows (emit e).
Proof. intros s. exists [e]. reflexivity. Qed.

Lemma grows_failed_tracks_append (x : json) : grows (failed_tracks_append x).
Proof. intros s. exists []. cbn. now rewrite app_nil_r. Qed.

Lemma grows_bind {A B} (m : M State A) (k : A -> M State B) :
  grows m -> (forall a, grows (k a)) -> grows (bind m k).
Proof.
  intros Hm Hk s. unfold bind. destruct (Hm s) as (e1 & H1).
  destruct (m s) as [[a|e] s1]; cbn in H1.
  - destruct (Hk a s1) as (e2 & H2). exists (e1 ++ e2).
    now rewrite H2, H1, app_assoc.
  - exists e1. exact H1.
Qed.

Lemma grows_try {A} (m : M State A) (c : exn -> bool) (h : exn -> M State A) :
  grows m -> (forall e, grows (h e)) -> grows (try_except m c h).
Proof.
  intros Hm Hh s. unfold try_except. destruct (Hm s) as (e1 & H1).
  destruct (m s) as [[a|e] s1]; cbn in H1.
  - exists e1. exact H1.
  - destruct (c e).
    + destruct (Hh e s1) as (e2 & H2). exists (e1 ++ e2).
      now rewrite H2, H1, app_assoc.
    + exists e1. exact H1.
Qed.

End DownloaderFrame.

Ltac grows_auto :=
  repeat first
    [ apply grows_ret | apply grows_raise | apply grows_lift
    | apply grows_tick | apply grows_emit | apply grows_failed_tracks_append
    | apply grows_bind; [| intros ?]
    | apply grows_try; [| intros ?]
    | match goal with
      | |- Logic.grows (if ?b then _ else _) => destruct b
      | |- Logic.grows (match ?x with _ => _ end) => destruct x
      end ].

Section DownloaderFacts.
Context {U : UnicodeData} (env : SberZvukDownloader.Env).
Import SberZvukDownloader Logic.






End DownloaderFacts.

(** With the fallback enabled and a service that answers, the track is
    stored as mp3 from the stream looked up with quality high, tagged,
    and not listed as failed. *)
Example fallback_download_goes_through :
  let run :=
    SberZvukDownloader.download_track Examples.answering_env
      (JObj (Examples.legacy_config true))
      (JObj Examples.lossy_track_with_cover) Examples.legacy_start in
  fst run = Ret tt
  /\ SberZvukDownloader.failed_tracks (snd run) = []
  /\ SberZvukDownloader.events (snd run) =
     [ SberZvukDownloader.HttpGet (lit "https://zvuk.com/api/tiny/track/stream")
         [(lit "id", JInt 116136641); (lit "quality", JStr (lit "high"))];
       SberZvukDownloader.Mkdir (lit "./music");
       SberZvukDownloader.HttpGet (lit "https://cdn.zvuk.com/stream") [];
       SberZvukDownloader.OpenWrite (lit "./music/Artist - Song.mp3");
       SberZvukDownloader.WriteChunk (lit "./music/Artist - Song.mp3")
         [Byte.x49; Byte.x44; Byte.x33];
       SberZvukDownloader.WriteChunk (lit "./music/Artist - Song.mp3")
         [Byte.x04; Byte.x00];
       SberZvukDownloader.HttpGet
         (lit "https://cdn.zvuk.com/pic?x=1&size=500x500&ext=jpg") [];
       SberZvukDownloader.WriteTags (lit "./music/Artist - Song.mp3")
         (lit "high") ].
Proof. vm_compute. auto. Qed.


(** ** The transport, for every service *)

Section TransportShape.
Context {U : UnicodeData} (env : ZvukMultiBot.Env)
        (config : ZvukMultiBot.ZvukConfig).
Import ZvukMultiBot.

#[local] Arguments lit : simpl never.

(** One iteration of the retry loop, however it ends: one request sent,
    counted and timed, followed by at most one wait. *)
Lemma retry_iteration_shape (method url : str) (kwargs : dict) (attempt : Z)
    (w : World) (r : outcome (step json)) (w' : World) :
  retry_iteration env config method url kwargs attempt w = (r, w') ->
  clock w' = S (clock w)
  /\ requests_made (stats w') = requests_made (stats w) + 1
  /\ files w' = files w
  /\ Props.keeps_counters w w'
  /\ exists tail,
       events w' = events w ++ Request method url kwargs :: tail
       /\ Props.iteration_end env config (clock w) method url kwargs attempt
            r tail.
Proof.
  unfold Props.keeps_counters.
  unfold retry_iteration, try_request, request, try_except, bind, tick, emit,
    incr_requests_made, modify, with_stats, lift, ret.
  cbn [stats clock events files].
  assert (Hstart : forall (ev : list event) (Q : list event -> Prop),
            Q [] ->
            exists tail,
              events w ++ ev = events w ++ ev ++ tail /\ Q tail).
  { intros ev Q HQ. exists []. now rewrite app_nil_r. }
  assert (Hwait : forall (ev : list event) seconds (Q : list event -> Prop),
            Q [Sleep seconds] ->
            exists tail,
              (events w ++ ev) ++ [Sleep seconds] = events w ++ ev ++ tail
              /\ Q tail).
  { intros ev seconds Q HQ. exists [Sleep seconds]. now rewrite <- app_assoc. }
  destruct (session_request env (clock w) method url kwargs) as [resp|e] eqn:Hresp.
  - destruct (status resp =? 418) eqn:H418; cbn.
    + intros H; injection H as <- <-; cbn. repeat split.
      apply (Hwait [_]). left. eauto.
    + destruct (status resp =? 200) eqn:H200.
      * destruct (contains _ _) eqn:Hjson.
        -- destruct (json_body resp) as [data|e] eqn:Hbody; cbn.
           ++ intros H; injection H as <- <-; cbn. repeat split.
              apply (Hstart [_]). split; [reflexivity |].
              exists resp. split; [exact Hresp |]. split; [lia |].
              cbn zeta. now rewrite Hjson.
           ++ destruct (is_Exception e) eqn:He; cbn.
              ** destruct (is_TimeoutError e), (attempt <? max_retries config - 1) eqn:Hlast;
                   cbn; intros H; injection H as <- <-; cbn; repeat split;
                   first [ apply (Hwait [_]); left; eauto
                         | apply (Hstart [_]); right; split; [reflexivity | lia] ].
              ** intros H; injection H as <- <-; cbn. repeat split.
                 apply (Hstart [_]). split; [reflexivity | exact He].
        -- destruct (raw_body resp) as [data|e] eqn:Hbody; cbn.
           ++ intros H; injection H as <- <-; cbn. repeat split.
              apply (Hstart [_]). split; [reflexivity |].
              exists resp. split; [exact Hresp |]. split; [lia |].
              cbn zeta. rewrite Hjson. eauto.
           ++ destruct (is_Exception e) eqn:He; cbn.
              ** destruct (is_TimeoutError e), (attempt <? max_retries config - 1) eqn:Hlast;
                   cbn; intros H; injection H as <- <-; cbn; repeat split;
                   first [ apply (Hwait [_]); left; eauto
                         | apply (Hstart [_]); right; split; [reflexivity | lia] ].
              ** intros H; injection H as <- <-; cbn. repeat split.
                 apply (Hstart [_]). split; [reflexivity | exact He].
      * destruct (text_body resp) as [txt|e] eqn:Hbody; cbn.
        -- destruct (attempt <? max_retries config - 1) eqn:Hlast;
             cbn; intros H; injection H as <- <-; cbn; repeat split;
             first [ apply (Hwait [_]); left; eauto
                   | apply (Hstart [_]); right; split; [reflexivity | lia] ].
        -- destruct (is_Exception e) eqn:He; cbn.
           ++ destruct (is_TimeoutError e), (attempt <? max_retries config - 1) eqn:Hlast;
                cbn; intros H; injection H as <- <-; cbn; repeat split;
                first [ apply (Hwait [_]); left; eauto
                      | apply (Hstart [_]); right; split; [reflexivity | lia] ].
           ++ intros H; injection H as <- <-; cbn. repeat split.
              apply (Hstart [_]). split; [reflexivity | exact He].
  - destruct (is_Exception e) eqn:He; cbn.
    + destruct (is_TimeoutError e), (attempt <? max_retries config - 1) eqn:Hlast;
        cbn; intros H; injection H as <- <-; cbn; repeat split;
        first [ apply (Hwait [_]); left; eauto
              | apply (Hstart [_]); right; split; [reflexivity | lia] ].
    + intros H; injection H as <- <-; cbn. repeat split.
      apply (Hstart [_]). split; [reflexivity | exact He].
Qed.

Lemma keeps_counters_trans (w1 w2 w3 : World) :
  Props.keeps_counters w1 w2 -> Props.keeps_counters w2 w3 ->
  Props.keeps_counters w1 w3.
Proof.
  unfold Props.keeps_counters. intros (? & ? & ? & ? & ?) (? & ? & ? & ? & ?).
  repeat split; congruence.
Qed.

(** How a run of the retry loop ends. *)
Lemma paced_request_wait (seconds : Z) (evs : list event) (e : event) :
  Props.is_Request e = true ->
  Props.paced evs = true ->
  Props.paced (e :: Sleep seconds :: evs) = true.
Proof. intros He Hp. cbn. rewrite He, Hp. reflexivity. Qed.

Lemma count_requests_cons (e : event) (evs : list event) :
  Props.count_requests (e :: evs)
  = (if Props.is_Request e then 1 else 0) + Props.count_requests evs.
Proof.
  unfold Props.count_requests. cbn. destruct (Props.is_Request e); cbn; lia.
Qed.

Lemma retry_loop_shape (method url : str) (kwargs : dict) (n k : nat)
    (w : World) (r : outcome (option json)) (w' : World) :
  (n = 0%nat \/ Z.of_nat (k + n) = max_retries config) ->
  for_loop (List.map Z.of_nat (seq k n))
    (retry_iteration env config method url kwargs) w = (r, w') ->
  files w' = files w
  /\ Props.keeps_counters w w'
  /\ exists evs,
       events w' = events w ++ evs
       /\ Forall (Props.transport_event method url kwargs) evs
       /\ Props.paced evs = true
       /\ match evs with
          | [] => True
          | e :: _ => Props.is_Request e = true
          end
       /\ requests_made (stats w')
          = requests_made (stats w) + Props.count_requests evs
       /\ Z.of_nat (clock w') = Z.of_nat (clock w) + Props.count_requests evs
       /\ Props.count_requests evs <= Z.of_nat n
       /\ match r with
          | Ret None => Props.count_requests evs = Z.of_nat n
          | Ret (Some v) =>
              exists t resp,
                (clock w <= t < clock w')%nat
                /\ session_request env t method url kwargs = Ret resp
                /\ Props.payload_of resp v
          | Raise e => is_Exception e = false
          end.
Proof.
  revert k w r w'. induction n as [|n IH]; intros k w r w' Hcap.
  - cbn. intros H; injection H as <- <-. split; [reflexivity |].
    split; [unfold Props.keeps_counters; auto |].
    exists []. rewrite app_nil_r. unfold Props.count_requests. cbn.
    repeat split; try apply Forall_nil; try lia.
  - cbn [seq List.map for_loop]. unfold bind at 1.
    destruct (retry_iteration env config method url kwargs (Z.of_nat k) w)
      as [r1 w1] eqn:H1.
    destruct (retry_iteration_shape _ _ _ _ _ _ _ H1)
      as (Hclock & Hreq & Hfiles & Hkeep & tail & Hev & Hend).
    destruct r1 as [[|v]|e]; cbn in Hend.
    + intros Hloop.
      assert (Hcap' : n = 0%nat \/ Z.of_nat (S k + n) = max_retries config).
      { destruct Hcap as [Hcap|Hcap]; [discriminate |]. right. lia. }
      destruct (IH (S k) w1 r w' Hcap' Hloop)
        as (Hfiles' & Hkeep' & evs & Hev' & Hall & Hpaced & Hhead & Hreq'
            & Hclock' & Hcount & Hres).
      split; [congruence |].
      split; [now apply (keeps_counters_trans w w1 w') |].
      exists (Request method url kwargs :: tail ++ evs).
      rewrite Hev', Hev, <- app_assoc. cbn [app].
      rewrite !count_requests_cons. cbn [Props.is_Request].
      destruct Hend as [[seconds ->]|[-> Hlast]].
      * cbn [app]. rewrite count_requests_cons. cbn [Props.is_Request].
        repeat split.
        -- constructor; [now left |]. constructor; [right; eauto | exact Hall].
        -- now apply paced_request_wait.
        -- lia.
        -- lia.
        -- lia.
        -- destruct r as [[v|]|e].
           ++ destruct Hres as (t & resp & Ht & Hresp & Hpay).
              exists t, resp. split; [lia | split; assumption].
           ++ lia.
           ++ exact Hres.
      * assert (n = 0%nat) as ->.
        { destruct Hcap as [Hcap|Hcap]; [discriminate | lia]. }
        cbn in Hloop. injection Hloop as <- <-. clear Hkeep'.
        assert (evs = []) as ->.
        { apply app_inv_head with (l := events w1).
          now rewrite app_nil_r. }
        cbn. repeat split; try (unfold Props.count_requests; cbn; lia).
        constructor; [now left | constructor].
    + intros H; injection H as <- <-. destruct Hend as (-> & resp & Hresp & Hpay).
      split; [exact Hfiles |]. split; [exact Hkeep |].
      exists [Request method url kwargs]. repeat split.
      * exact Hev.
      * constructor; [now left | constructor].
      * unfold Props.count_requests. cbn. lia.
      * unfold Props.count_requests. cbn. lia.
      * unfold Props.count_requests. cbn. lia.
      * exists (clock w), resp. split; [lia | split; assumption].
    + intros H; injection H as <- <-. destruct Hend as (-> & He).
      split; [exact Hfiles |]. split; [exact Hkeep |].
      exists [Request method url kwargs]. repeat split.
      * exact Hev.
      * constructor; [now left | constructor].
      * unfold Props.count_requests. cbn. lia.
      * unfold Props.count_requests. cbn. lia.
      * unfold Props.count_requests. cbn. lia.
      * exact He.
Qed.

(** A call of [make_request], however it ends. *)
Lemma make_request_shape (method endpoint : str) (kwargs : dict)
    (w : World) (r : outcome json) (w' : World) :
  make_request env config method endpoint kwargs w = (r, w') ->
  let url := urljoin env (base_url config) endpoint in
  files w' = files w
  /\ Props.keeps_counters w w'
  /\ exists evs,
       events w' = events w ++ Jitter :: evs
       /\ Forall (Props.transport_event method url kwargs) evs
       /\ Props.paced evs = true
       /\ requests_made (stats w')
          = requests_made (stats w) + Props.count_requests evs
       /\ Z.of_nat (clock w') = Z.of_nat (clock w) + Props.count_requests evs
       /\ Props.count_requests evs <= Z.max 0 (max_retries config)
       /\ match r with
          | Ret v =>
              v = JNull
              \/ exists t resp,
                   (clock w <= t < clock w')%nat
                   /\ session_request env t method url kwargs = Ret resp
                   /\ Props.payload_of resp v
          | Raise e => is_Exception e = false
          end.
Proof.
  intros Hrun url. unfold make_request, range in Hrun. fold url in Hrun.
  unfold bind at 1 in Hrun. unfold emit at 1, modify at 1 in Hrun.
  set (w0 := {| stats := stats w; clock := clock w;
                events := events w ++ [Jitter]; files := files w |}) in Hrun.
  unfold bind in Hrun.
  destruct (for_loop (List.map Z.of_nat (seq 0 (Z.to_nat (max_retries config))))
              (retry_iteration env config method url kwargs) w0)
    as [r0 w1] eqn:Hloop.
  apply retry_loop_shape in Hloop
    as (Hfiles & Hkeep & evs & Hev & Hall & Hpaced & _ & Hreq & Hclock
        & Hcount & Hres);
    [| destruct (Z_le_gt_dec (max_retries config) 0);
       [left; lia | right; lia]].
  assert (Hw : w' = w1) by (destruct r0; now injection Hrun as _ <-).
  subst w'. split; [exact Hfiles |]. split; [exact Hkeep |]. exists evs.
  subst w0. cbn [events stats clock] in *.
  rewrite <- app_assoc in Hev. cbn [app] in Hev.
  repeat split; try assumption; try lia.
  destruct r0 as [[v|]|e]; injection Hrun as <-; cbn.
  - right. exact Hres.
  - now left.
  - exact Hres.
Qed.

(** X1. Whatever the service does, a call of [make_request] sends at
    most [max_retries] requests (none when [max_retries] is not
    positive); each request it sends is counted once in
    [requests_made]. *)
Theorem make_request_sends_at_most_max_retries (method endpoint : str)
    (kwargs : dict) (w : World) :
  let w' := snd (make_request env config method endpoint kwargs w) in
  exists evs,
    events w' = events w ++ Jitter :: evs
    /\ requests_made (stats w')
       = requests_made (stats w) + Props.count_requests evs
    /\ 0 <= Props.count_requests evs <= Z.max 0 (max_retries config).
Proof.
  cbn zeta.
  destruct (make_request env config method endpoint kwargs w) as [r w'] eqn:Hrun.
  apply make_request_shape in Hrun
    as (_ & _ & evs & Hev & _ & _ & Hreq & _ & Hcount & _).
  exists evs. cbn [snd]. repeat split; try assumption.
  unfold Props.count_requests. lia.
Qed.

(** X2. [make_request] waits before its first request and never sends
    two requests without a wait in between; it does nothing to the
    outside but request its one address and wait, and leaves every
    file and every counter other than [requests_made] as it was. *)
Theorem make_request_waits_between_requests (method endpoint : str)
    (kwargs : dict) (w : World) :
  let w' := snd (make_request env config method endpoint kwargs w) in
  files w' = files w
  /\ Props.keeps_counters w w'
  /\ exists evs,
       events w' = events w ++ Jitter :: evs
       /\ Props.paced evs = true
       /\ Forall (Props.transport_event method
                    (urljoin env (base_url config) endpoint) kwargs) evs.
Proof.
  cbn zeta.
  destruct (make_request env config method endpoint kwargs w) as [r w'] eqn:Hrun.
  apply make_request_shape in Hrun
    as (Hfiles & Hkeep & evs & Hev & Hall & Hpaced & _).
  cbn [snd]. split; [exact Hfiles |]. split; [exact Hkeep |].
  exists evs. auto.
Qed.

(** X3. What [make_request] returns, when it is not [None], is what a
    response of status 200 received during the call carried: its decoded
    body when the response announces JSON, its raw body otherwise. The
    body of a response of another status is never returned. *)
Theorem make_request_returns_a_200_payload (method endpoint : str)
    (kwargs : dict) (w : World) (v : json) (w' : World) :
  make_request env config method endpoint kwargs w = (Ret v, w') ->
  v <> JNull ->
  exists t resp,
    (clock w <= t < clock w')%nat
    /\ session_request env t method
         (urljoin env (base_url config) endpoint) kwargs = Ret resp
    /\ Props.payload_of resp v.
Proof.
  intros Hrun Hv.
  apply make_request_shape in Hrun
    as (_ & _ & evs & _ & _ & _ & _ & _ & _ & Hres).
  destruct Hres as [->|Hres]; [contradiction | exact Hres].
Qed.

End TransportShape.

Lemma make_request_returns_a_200_payload_witness :
  exists t resp,
    (0 <= t < 2)%nat
    /\ Examples.teapot_net t (lit "GET")
         (lit "https://zvuk.com/api/v2/tiny/profile") [] = Ret resp
    /\ Props.payload_of resp Examples.profile.
Proof.
  destruct (make_request_returns_a_200_payload Examples.teapot_env
              ZvukMultiBot.default_config (lit "GET")
              (lit "/api/v2/tiny/profile") [] Examples.fresh
              Examples.profile
              (snd (ZvukMultiBot.make_request Examples.teapot_env
                      ZvukMultiBot.default_config (lit "GET")
                      (lit "/api/v2/tiny/profile") [] Examples.fresh)))
    as (t & resp & Ht & Hresp & Hpay).
  - vm_compute. reflexivity.
  - discriminate.
  - exists t, resp. split; [exact Ht | split; [exact Hresp | exact Hpay]].
Defined.

(** ** Downloads and their counters *)

Section DownloadEdges.
Context {U : UnicodeData} (env : ZvukMultiBot.Env)
        (config : ZvukMultiBot.ZvukConfig).
Import ZvukMultiBot.

(** X4. When the lookup of a track brings no record of it (no answer
    at all, an answer without ['result'], or no entry under the id),
    [download_track] returns [False] at once: it asks for no stream,
    creates no file, and counts neither a success nor a failure. *)
Theorem download_track_without_a_record (track_id : json) (quality : str)
    (custom_filename : option str) (embed_metadata_ download_cover : bool)
    (target_dir : option str) (position : json)
    (save_lyrics save_subtitles : bool) (w : World) (info : json)
    (w1 : World) :
  get_tracks env config [track_id] true w = (Ret info, w1) ->
  Props.no_track_record (repr env) info track_id = true ->
  download_track env config track_id quality custom_filename embed_metadata_
    download_cover target_dir position save_lyrics save_subtitles w
  = (Ret false, w1)
  /\ files w1 = files w
  /\ Props.keeps_counters w w1.
Proof.
  intros Hrun Hno. split.
  - unfold download_track. unfold bind at 1. unfold try_except.
    unfold bind at 1. rewrite Hrun.
    unfold Props.no_track_record in Hno.
    unfold bind at 1, lift at 1.
    destruct (lacks_result info) as [[|]|]; try discriminate; [reflexivity |].
    unfold bind at 1, lift at 1.
    destruct (getitem info (lit "result")) as [result|]; [| discriminate].
    cbn [obind] in Hno. unfold bind at 1, lift at 1.
    destruct (getitem result (lit "tracks")) as [tracks|]; [| discriminate].
    cbn [obind] in Hno. unfold bind at 1, lift at 1.
    destruct (get tracks (py_str (repr env) track_id)) as [track_data|];
      [| discriminate].
    rewrite Hno. reflexivity.
  - unfold get_tracks in Hrun.
    apply make_request_shape in Hrun as (Hfiles & Hkeep & _). auto.
Qed.

(** X5. When the lookup of a release brings no record of it, or no
    track records, [download_release] returns 0 at once: no folder is
    made, no track is asked for, no counter but [requests_made]
    moves. *)
Theorem download_release_without_a_record (release_id : Z) (quality : str)
    (save_lyrics save_subtitles : bool) (album_index : option Z)
    (w : World) (info : json) (w1 : World) :
  get_releases env config [JInt release_id] true w = (Ret info, w1) ->
  Props.no_release_record info release_id = true ->
  download_release env config release_id quality save_lyrics save_subtitles
    album_index w
  = (Ret 0, w1)
  /\ files w1 = files w
  /\ Props.keeps_counters w w1.
Proof.
  intros Hrun Hno. split.
  - unfold download_release. unfold bind at 1. rewrite Hrun.
    unfold Props.no_release_record in Hno.
    unfold bind at 1, lift at 1.
    destruct (lacks_result info) as [[|]|]; try discriminate; [reflexivity |].
    unfold bind at 1, lift at 1.
    destruct (getitem info (lit "result")) as [result|]; [| discriminate].
    cbn [obind] in Hno. unfold bind at 1, lift at 1.
    destruct (getitem result (lit "releases")) as [releases|]; [| discriminate].
    cbn [obind] in Hno. unfold bind at 1, lift at 1.
    destruct (get releases (str_of_int release_id)) as [release_data|];
      [| discriminate].
    cbn [obind] in Hno. unfold bind at 1, lift at 1.
    destruct (get_default result (lit "tracks") (JObj [])) as [tracks_data|];
      [| discriminate].
    cbn [obind] in Hno. rewrite Hno. reflexivity.
  - unfold get_releases in Hrun.
    apply make_request_shape in Hrun as (Hfiles & Hkeep & _). auto.
Qed.

(** X6. The chunk loop of [download_track] counts what it writes: the
    file grows by the chunks in their order, [total_data_downloaded]
    by their total length, and no other file changes. *)
Theorem write_chunks_counts_what_it_writes (p : str) (cs : list bytes)
    (w : World) (d : bytes) :
  files w !! p = Some (Audio d) ->
  exists w',
    write_chunks p cs w = (Ret tt, w')
    /\ files w' = <[p := Audio (d ++ concat cs)]> (files w)
    /\ total_data_downloaded (stats w')
       = total_data_downloaded (stats w) + Z.of_nat (length (concat cs)).
Proof.
  revert w d. induction cs as [|c cs IH]; intros w d Hd.
  - exists w. cbn. rewrite app_nil_r. repeat split; [| lia].
    symmetry. now apply insert_id.
  - cbn [write_chunks].
    unfold bind at 1. unfold write_chunk at 1.
    unfold bind at 1, emit at 1, modify at 1 2.
    cbn [files events stats clock]. rewrite Hd.
    unfold bind at 1, add_total_data_downloaded at 1, modify at 1.
    match goal with |- context [write_chunks p cs ?w1] =>
      destruct (IH w1 (d ++ c)) as (w' & Hrun & Hfile & Htotal)
    end.
    { cbn. apply lookup_insert_eq. }
    exists w'. rewrite Hrun. repeat split.
    + rewrite Hfile. cbn. rewrite insert_insert_eq. now rewrite <- app_assoc.
    + rewrite Htotal. cbn. rewrite length_app, Nat2Z.inj_add. lia.
Qed.

End DownloadEdges.

Lemma download_track_without_a_record_witness :
  let w1 :=
    snd (ZvukMultiBot.get_tracks Examples.offline_env
           ZvukMultiBot.default_config [JInt 5] true Examples.fresh) in
  ZvukMultiBot.download_track Examples.offline_env
    ZvukMultiBot.default_config (JInt 5) (lit "flac") None true true None
    (JInt 0) false false Examples.fresh
  = (Ret false, w1)
  /\ ZvukMultiBot.files w1 = ZvukMultiBot.files Examples.fresh
  /\ Props.keeps_counters Examples.fresh w1.
Proof.
  cbn zeta.
  apply (download_track_without_a_record (U := ascii_table)
           Examples.offline_env ZvukMultiBot.default_config (JInt 5)
           (lit "flac") None true true None (JInt 0) false false
           Examples.fresh JNull).
  - vm_compute. reflexivity.
  - vm_compute. reflexivity.
Defined.

Lemma download_release_without_a_record_witness :
  let w1 :=
    snd (ZvukMultiBot.get_releases Examples.offline_env
           ZvukMultiBot.default_config [JInt 700] true Examples.fresh) in
  ZvukMultiBot.download_release Examples.offline_env
    ZvukMultiBot.default_config 700 (lit "flac") false false None
    Examples.fresh
  = (Ret 0, w1)
  /\ ZvukMultiBot.files w1 = ZvukMultiBot.files Examples.fresh
  /\ Props.keeps_counters Examples.fresh w1.
Proof.
  cbn zeta.
  apply (download_release_without_a_record (U := ascii_table)
           Examples.offline_env ZvukMultiBot.default_config 700
           (lit "flac") false false None Examples.fresh JNull).
  - vm_compute. reflexivity.
  - vm_compute. reflexivity.
Defined.

Lemma write_chunks_counts_what_it_writes_witness :
  let w :=
    {| ZvukMultiBot.stats := ZvukMultiBot.zero_stats;
       ZvukMultiBot.clock := 0;
       ZvukMultiBot.events := [];
       ZvukMultiBot.files := {[ lit "a.mp3" := ZvukMultiBot.Audio [] ]} |} in
  exists w',
    ZvukMultiBot.write_chunks (lit "a.mp3") Examples.audio w = (Ret tt, w')
    /\ ZvukMultiBot.files w'
       = <[lit "a.mp3" := ZvukMultiBot.Audio ([] ++ concat Examples.audio)]>
           (ZvukMultiBot.files w)
    /\ ZvukMultiBot.total_data_downloaded (ZvukMultiBot.stats w')
       = ZvukMultiBot.total_data_downloaded (ZvukMultiBot.stats w)
         + Z.of_nat (length (concat Examples.audio)).
Proof.
  cbn zeta.
  apply (write_chunks_counts_what_it_writes (lit "a.mp3") Examples.audio _ []).
  vm_compute. reflexivity.
Defined.

Section DownloadCounters.
Context {U : UnicodeData} (env : ZvukMultiBot.Env)
        (config : ZvukMultiBot.ZvukConfig)
        (Hnc : Logic.no_cancellation env).
Import ZvukMultiBot.

(** X7. With nothing cancelled, [download_track] never raises: it
    returns a boolean, [True] exactly when it counted one successful
    download; a failure is counted at most once and never together
    with a success. *)
Theorem download_track_verdict_matches_the_counters (track_id : json)
    (quality : str) (custom_filename : option str)
    (embed_metadata_ download_cover : bool) (target_dir : option str)
    (position : json) (save_lyrics save_subtitles : bool) (w : World) :
  exists b w',
    download_track env config track_id quality custom_filename embed_metadata_
      download_cover target_dir position save_lyrics save_subtitles w
    = (Ret b, w')
    /\ successful_downloads (stats w')
       = successful_downloads (stats w) + (if b then 1 else 0)
    /\ failed_downloads (stats w) <= failed_downloads (stats w')
       <= failed_downloads (stats w) + (if b then 0 else 1).
Proof.
  unfold download_track. unfold bind at 1. unfold try_except.
  pose proof (counts_success_download_track_body env config Hnc track_id
                quality custom_filename embed_metadata_ download_cover
                target_dir position save_lyrics save_subtitles w) as [Hf Hs].
  match type of Hf with context [snd (?m w)] =>
    destruct (m w) as [[[| |[|]]|e] w1]
  end; cbn in Hf, Hs.
  - eexists false, _. split; [reflexivity |]. cbn. lia.
  - eexists false, _. split; [reflexivity |]. cbn. lia.
  - eexists true, _. split; [reflexivity |]. cbn. lia.
  - eexists false, _. split; [reflexivity |]. cbn. lia.
  - destruct Hs as [He Hs]. rewrite He.
    eexists false, _. split; [reflexivity |]. cbn. lia.
Qed.

Lemma counts_release_ret0 : Props.counts_release (ret 0).
Proof. intros w. cbn. lia. Qed.

Lemma counts_release_lift {A} (o : outcome A) (k : A -> M World Z) :
  (forall a, o = Ret a -> Props.counts_release (k a)) ->
  Props.counts_release (bind (lift o) k).
Proof.
  intros Hk w. unfold bind, lift. destruct o as [a|e].
  - apply (Hk a eq_refl).
  - cbn. reflexivity.
Qed.

Lemma counts_release_keep {A} (m : M World A) (k : A -> M World Z) :
  (forall w, successful_downloads (stats (snd (m w)))
             = successful_downloads (stats w)) ->
  (forall a, Props.counts_release (k a)) ->
  Props.counts_release (bind m k).
Proof.
  intros Hm Hk w. unfold bind. specialize (Hm w).
  destruct (m w) as [[a|e] w1]; cbn in Hm.
  - specialize (Hk a w1). unfold Props.release_post in *.
    destruct (fst (k a w1)); rewrite <- Hm; exact Hk.
  - cbn. exact Hm.
Qed.

Lemma release_tasks_counted (ids : list json) (tracks_data : json)
    (quality release_folder : str) (save_lyrics save_subtitles : bool)
    (tasks : list (M World bool)) :
  release_tasks env config ids tracks_data quality release_folder save_lyrics
    save_subtitles = Ret tasks ->
  Forall Props.task_counted tasks.
Proof.
  revert tasks. induction ids as [|i ids IH]; intros tasks.
  - intros [= <-]. constructor.
  - cbn [release_tasks].
    destruct (get_default tracks_data (py_str (repr env) i) (JObj []))
      as [track_info|]; [| discriminate].
    cbn [obind].
    destruct (release_tasks env config ids tracks_data quality release_folder
                save_lyrics save_subtitles) as [more|] eqn:Hmore.
    + specialize (IH more eq_refl).
      destruct (truthy track_info).
      * destruct (get_default track_info (lit "position") (JInt 0))
          as [position|]; [| discriminate].
        cbn [obind]. intros [= <-]. constructor; [| exact IH].
        intros w.
        destruct (download_track_reports_counted_success env config Hnc i
                    quality None true true (Some release_folder) position
                    save_lyrics save_subtitles w)
          as (b & w' & Hrun & Hs & _).
        exists b, w'. auto.
      * cbn [obind]. intros [= <-]. exact IH.
    + destruct (truthy track_info); [| discriminate].
      destruct (get_default track_info (lit "position") (JInt 0));
        discriminate.
Qed.

Lemma gather_counted (tasks : list (M World bool)) :
  Forall Props.task_counted tasks ->
  forall w, exists results w',
    gather_return_exceptions tasks w = (Ret results, w')
    /\ successful_downloads (stats w')
       = successful_downloads (stats w) + count_true results.
Proof.
  induction 1 as [|t tasks Ht _ IH]; intros w.
  - exists [], w. split; [reflexivity |]. unfold count_true. cbn. lia.
  - cbn [gather_return_exceptions].
    destruct (Ht w) as (b & w1 & Hrun & Hs). rewrite Hrun.
    destruct (IH w1) as (rs & w' & Hgather & Hs').
    exists (Ret b :: rs), w'. unfold bind. rewrite Hgather.
    split; [reflexivity |]. rewrite Hs', Hs. unfold count_true.
    cbn [List.filter]. destruct b; cbn [length]; lia.
Qed.

Lemma iter_len (v : json) (l : list json) :
  iter v = Ret l -> exists n, len v = Ret n.
Proof. destruct v; cbn; try discriminate; eauto. Qed.

(** X8. With nothing cancelled, the number [download_release] returns
    is the number of downloads it added to [successful_downloads]; when
    it raises instead, it has downloaded nothing. *)
Theorem download_release_returns_the_counter_growth (release_id : Z)
    (quality : str) (save_lyrics save_subtitles : bool)
    (album_index : option Z) (w : World) :
  match download_release env config release_id quality save_lyrics
          save_subtitles album_index w with
  | (Ret n, w') =>
      successful_downloads (stats w') = successful_downloads (stats w) + n
      /\ 0 <= n
  | (Raise _, w') =>
      successful_downloads (stats w') = successful_downloads (stats w)
  end.
Proof.
  assert (H : Props.counts_release
                (download_release env config release_id quality save_lyrics
                   save_subtitles album_index)).
  { unfold download_release.
    apply counts_release_keep.
    { intros w0. unfold get_releases.
      destruct (make_request env config _ _ _ w0) as [r0 w1] eqn:Hrun.
      apply make_request_shape in Hrun as (_ & (Hs & _) & _). exact Hs. }
    intros release_info.
    apply counts_release_lift. intros missing _.
    destruct missing; [apply counts_release_ret0 |].
    apply counts_release_lift. intros result _.
    apply counts_release_lift. intros releases _.
    apply counts_release_lift. intros release_data _.
    apply counts_release_lift. intros tracks_data _.
    destruct (negb (truthy release_data) || negb (truthy tracks_data));
      [apply counts_release_ret0 |].
    apply counts_release_lift. intros folder_name _.
    apply counts_release_lift. intros track_ids _.
    cbv zeta.
    apply counts_release_keep.
    { intros w0. unfold mkdir, fs_check, bind, tick, emit, modify, raise, ret.
      cbn [clock]. destruct (fs_error env (clock w0) _); reflexivity. }
    intros _.
    apply counts_release_lift. intros ids Hids.
    apply counts_release_lift. intros tasks Htasks.
    apply release_tasks_counted in Htasks.
    destruct (iter_len _ _ Hids) as [n Hn].
    intros w0.
    destruct (gather_counted tasks Htasks w0) as (rs & w' & Hgather & Hs).
    unfold bind, lift. rewrite Hgather, Hn. cbn.
    split; [exact Hs |]. apply count_true_bounds. }
  specialize (H w). unfold Props.release_post in H.
  destruct (download_release env config release_id quality save_lyrics
              save_subtitles album_index w) as [[n|e] w']; exact H.
Qed.

End DownloadCounters.

Lemma download_track_verdict_matches_the_counters_witness :
  exists b w',
    ZvukMultiBot.download_track Examples.trio_env ZvukMultiBot.default_config
      (JInt 2) (lit "flac") None true true None (JInt 2) false false
      Examples.fresh
    = (Ret b, w')
    /\ ZvukMultiBot.successful_downloads (ZvukMultiBot.stats w')
       = ZvukMultiBot.successful_downloads (ZvukMultiBot.stats Examples.fresh)
         + (if b then 1 else 0)
    /\ ZvukMultiBot.failed_downloads (ZvukMultiBot.stats Examples.fresh)
       <= ZvukMultiBot.failed_downloads (ZvukMultiBot.stats w')
       <= ZvukMultiBot.failed_downloads (ZvukMultiBot.stats Examples.fresh)
          + (if b then 0 else 1).
Proof.
  exact (download_track_verdict_matches_the_counters (U := ascii_table)
           Examples.trio_env ZvukMultiBot.default_config
           trio_env_no_cancellation (JInt 2) (lit "flac") None true true None
           (JInt 2) false false Examples.fresh).
Defined.

Lemma download_release_returns_the_counter_growth_witness :
  match ZvukMultiBot.download_release Examples.trio_env
          ZvukMultiBot.default_config 700 (lit "high") false false None
          Examples.fresh with
  | (Ret n, w') =>
      ZvukMultiBot.successful_downloads (ZvukMultiBot.stats w')
      = ZvukMultiBot.successful_downloads (ZvukMultiBot.stats Examples.fresh)
        + n
      /\ 0 <= n
  | (Raise _, w') =>
      ZvukMultiBot.successful_downloads (ZvukMultiBot.stats w')
      = ZvukMultiBot.successful_downloads (ZvukMultiBot.stats Examples.fresh)
  end.
Proof.
  exact (download_release_returns_the_counter_growth (U := ascii_table)
           Examples.trio_env ZvukMultiBot.default_config
           trio_env_no_cancellation 700 (lit "high") false false None
           Examples.fresh).
Defined.

(** ** Names that stay inside their directory *)

Section NameSafety.
Context {U : UnicodeData} (env : ZvukMultiBot.Env).
Import ZvukMultiBot.

Lemma uint_digits_range (d : Decimal.uint) :
  Forall (fun c => (48 <= c <= 57)%N) (uint_digits d).
Proof. induction d; cbn; constructor; auto; lia. Qed.

Lemma format_02d_digits (n : Z) :
  0 <= n -> Forall (fun c => (48 <= c <= 57)%N) (format_02d n).
Proof.
  intros Hn. unfold format_02d, str_of_int, str_of_N.
  destruct (Z.ltb_spec n 0); [lia |].
  destruct (_ <? 2)%nat; [constructor; [lia |] |]; apply uint_digits_range.
Qed.

Lemma digit_filename_char (c : char) :
  (48 <= c <= 57)%N -> filename_char c = true.
Proof.
  intros Hc. unfold filename_char.
  rewrite isalnum_ascii by (unfold is_ascii; apply N.ltb_lt; lia).
  unfold ascii_isalnum, in_range.
  destruct (N.leb_spec 48 c), (N.leb_spec c 57); try lia; reflexivity.
Qed.

Lemma separators_dropped :
  filename_char 47%N = false /\ filename_char 92%N = false
  /\ folder_char 47%N = false /\ folder_char 92%N = false.
Proof.
  unfold filename_char, folder_char.
  rewrite !isalnum_ascii by reflexivity. repeat split; reflexivity.
Qed.

Lemma kept_chars_exclude (p : char -> bool) (c : char) (s : str) :
  p c = false -> Forall (fun x => p x = true) s -> ~ In c s.
Proof.
  intros Hc Hall Hin. rewrite List.Forall_forall in Hall.
  apply Hall in Hin. congruence.
Qed.

(** X9. The file name [download_track] computes for a track consists
    of letters, digits, spaces, hyphens, underscores and dots only,
    whatever the artist and the title are: it holds no slash and no
    backslash, so the file lands in the target directory itself. *)
Theorem track_filename_stays_in_its_directory (track_data : json)
    (quality : str) (position : json) (name : str) :
  track_filename env track_data quality position = Ret name ->
  Forall (fun c => filename_char c = true) name
  /\ ~ In 47%N name /\ ~ In 92%N name.
Proof.
  intros Hname.
  assert (Hall : Forall (fun c => filename_char c = true) name).
  { unfold track_filename in Hname.
    destruct (get_default track_data _ _) as [names|]; [| discriminate].
    cbn [obind] in Hname.
    destruct (index0 names) as [artist|]; [| discriminate].
    cbn [obind] in Hname.
    destruct (get_default track_data _ _) as [title|]; [| discriminate].
    cbn [obind] in Hname. cbv zeta in Hname.
    assert (Hbase : forall s, Forall (fun c => filename_char c = true)
                                (sanitize_filename s)).
    { intros s0. unfold sanitize_filename. apply rstrip_Forall, filter_Forall. }
    destruct (as_int position) as [n|].
    - destruct (Z.ltb_spec 0 n); injection Hname as <-; [| apply Hbase].
      apply Forall_app. split.
      + eapply List.Forall_impl; [| apply format_02d_digits; lia].
        intros c. apply digit_filename_char.
      + constructor; [apply filename_char_spec; vm_compute; auto 10 |].
        constructor; [apply filename_char_spec; vm_compute; auto 10 |].
        apply Hbase.
    - injection Hname as <-. apply Hbase. }
  destruct separators_dropped as (H47 & H92 & _).
  split; [exact Hall |].
  split; eapply kept_chars_exclude; eauto.
Qed.

(** X10. The folder name [download_release] computes for a release
    consists of letters, digits, spaces, hyphens, underscores, dots and
    square brackets only, whatever the title is: it holds no slash and
    no backslash. *)
Theorem release_folder_name_stays_in_its_directory (release_id : Z)
    (release_data : json) (album_index : option Z) (name : str) :
  release_folder_name env release_id release_data album_index = Ret name ->
  Forall (fun c => folder_char c = true) name
  /\ ~ In 47%N name /\ ~ In 92%N name.
Proof.
  intros Hname.
  assert (Hall : Forall (fun c => folder_char c = true) name).
  { unfold release_folder_name in Hname.
    destruct (get_default release_data _ _) as [title|]; [| discriminate].
    cbn [obind] in Hname.
    destruct (get release_data _) as [date_val|]; [| discriminate].
    cbn [obind] in Hname.
    destruct (get_default release_data _ _) as [release_type|];
      [| discriminate].
    cbn [obind] in Hname.
    destruct (get_default release_data _ _) as [track_ids|]; [| discriminate].
    cbn [obind] in Hname.
    destruct title; try discriminate. injection Hname as <-.
    unfold sanitize_folder. apply rstrip_Forall, filter_Forall. }
  destruct separators_dropped as (_ & _ & H47 & H92).
  split; [exact Hall |].
  split; eapply kept_chars_exclude; eauto.
Qed.

End NameSafety.

Lemma track_filename_stays_in_its_directory_witness :
  let name := lit "07. ACDC - Back in Black.flac" in
  Forall (fun c => ZvukMultiBot.filename_char c = true) name
  /\ ~ In 47%N name /\ ~ In 92%N name.
Proof.
  cbn zeta.
  apply (track_filename_stays_in_its_directory (U := ascii_table)
           Examples.trio_env
           (JObj [ (lit "artist_names", JArr [JStr (lit "AC/DC")]);
                   (lit "title", JStr (lit "Back in Black")) ])
           (lit "flac") (JInt 7)).
  vm_compute. reflexivity.
Defined.

Lemma release_folder_name_stays_in_its_directory_witness :
  let name := lit "03. [2020] ....etcpasswd [SINGLE]" in
  Forall (fun c => ZvukMultiBot.folder_char c = true) name
  /\ ~ In 47%N name /\ ~ In 92%N name.
Proof.
  cbn zeta.
  apply (release_folder_name_stays_in_its_directory (U := ascii_table)
           Examples.trio_env 9
           (JObj [ (lit "title", JStr (lit "../../etc/passwd"));
                   (lit "date", JInt 20200101);
                   (lit "track_ids", Examples.ids [1]) ])
           (Some 3)).
  vm_compute. reflexivity.
Defined.

(** ** The command line: qualities and the choice of releases *)

Section SelectionFacts.
Context {U : UnicodeData} (repr : json -> str).
Import ZvukMultiBotCLI.

Lemma normalize_quality_canonical (r : str) :
  In r [lit "flac"; lit "high"; lit "mid"] ->
  normalize_quality (Some r) = r.
Proof.
  intros Hr. unfold normalize_quality, strip. cbn [default from_option id].
  simpl In in Hr. destruct_or!; try contradiction; subst r; eval_lits;
    cbn [lstrip]; rewrite isspace_ascii by reflexivity; cbn [ascii_isspace];
    (rewrite rstrip_fixed; [| intros c [= <-]; now rewrite isspace_ascii]);
    rewrite lower_ascii by reflexivity; vm_compute; reflexivity.
Qed.

(** X11. [normalize_quality] is idempotent: its answer is one of the
    names it maps to itself, so normalizing twice (as
    [cmd_download_artist] and a later caller may do) changes
    nothing. *)
Theorem normalize_quality_idempotent (quality : option str) :
  normalize_quality (Some (normalize_quality quality))
  = normalize_quality quality.
Proof.
  apply normalize_quality_canonical.
  unfold normalize_quality.
  destruct (mapping !! _) as [v|] eqn:E; cbn [default from_option id].
  - apply mapping_aliases in E. unfold Spec.aliases in E. simpl In in *.
    destruct_or!; try contradiction; injection E as _ <-; auto.
  - simpl. auto.
Qed.

(** *** The sort key *)

Lemma digits_value_nonneg (s : str) (after_digit : bool) (acc z : Z) :
  digits_value s after_digit acc = Some z -> 0 <= acc -> 0 <= z.
Proof.
  revert after_digit acc. induction s as [|c s IH]; intros b acc; cbn.
  - destruct b; [intros [= <-]; auto | discriminate].
  - destruct (c =? 95)%N.
    + destruct b; [| discriminate]. apply IH.
    + destruct (digit_value c) as [d|]; [| discriminate].
      intros H Hacc. apply IH in H; lia.
Qed.

Lemma lstrip_In (c : char) (s : str) : In c (lstrip s) -> In c s.
Proof.
  induction s as [|a s IH]; cbn; [auto |].
  destruct (isspace a); [right; auto | auto].
Qed.

Lemma strip_In (c : char) (s : str) : In c (strip s) -> In c s.
Proof.
  unfold strip. intros H. apply lstrip_In.
  destruct (rstrip_split (lstrip s)) as (ws & Hs & _).
  rewrite Hs. apply in_or_app. now left.
Qed.

Lemma int_of_str_unsigned (s : str) :
  (forall x, In x (strip s) -> x <> 43%N /\ x <> 45%N) ->
  int_of_str s
  = match digits_value (strip s) false 0 with
    | Some z => Ret z
    | None => Raise (Exception "ValueError")
    end.
Proof.
  unfold int_of_str. destruct (strip s) as [|x r]; [reflexivity |].
  intros H. destruct (H x (or_introl eq_refl)) as [H43 H45].
  destruct x as [|p]; [reflexivity |].
  repeat (destruct p as [p|p|]; try reflexivity); congruence.
Qed.

(** X12. The sort key [_release_date_int] is defined for every release
    record, whatever its date field holds: it never raises, and the key
    is never negative. *)
Theorem _release_date_int_is_total_on_records (d : dict) :
  exists k, _release_date_int repr (JObj d) = Ret k /\ 0 <= k.
Proof.
  unfold _release_date_int, get, get_default. cbn [obind].
  set (dv := default JNull (assoc (lit "date") d)).
  assert (Hdigits : forall ds : str,
            Forall (fun c => isdigit c = true) ds ->
            exists k,
              match ds with
              | [] => Ret 99999999
              | _ :: _ =>
                  match int_of_str ds with
                  | Ret n => Ret n
                  | Raise e => if is_ValueError e then Ret 99999999 else Raise e
                  end
              end = Ret k /\ 0 <= k).
  { intros ds Hds. destruct ds as [|c ds]; [exists 99999999; split; [auto | lia] |].
    rewrite int_of_str_unsigned.
    - destruct (digits_value (strip (c :: ds)) false 0) as [z|] eqn:Hz.
      + exists z. split; [reflexivity |].
        eapply digits_value_nonneg; [exact Hz | lia].
      + cbn. exists 99999999. split; [reflexivity | lia].
    - intros x Hx. apply strip_In in Hx.
      rewrite List.Forall_forall in Hds. specialize (Hds x Hx).
      split; intros ->; rewrite isdigit_ascii in Hds by reflexivity;
        discriminate. }
  destruct dv; [exists 99999999; split; [reflexivity | lia] | ..];
    apply Hdigits, Forall_take, filter_Forall.
Qed.

(** *** The choice *)

Lemma with_keys_spec {A} (key : A -> outcome Z) (l : list A)
    (ks : list (Z * A)) :
  with_keys key l = Ret ks ->
  List.map snd ks = l
  /\ Forall (fun kx => key (snd kx) = Ret (fst kx)) ks.
Proof.
  revert ks. induction l as [|x l IH]; intros ks; cbn.
  - intros [= <-]. split; [reflexivity | constructor].
  - destruct (key x) as [k|] eqn:Hk; [| discriminate]. cbn.
    destruct (with_keys key l) as [ks'|]; [| discriminate]. cbn.
    intros [= <-]. destruct (IH ks' eq_refl) as [Hmap Hall].
    split; [cbn; now rewrite Hmap | constructor; auto].
Qed.

Lemma sorted_app_order {A} (R : A -> A -> Prop) (l1 l2 : list A) :
  StronglySorted R (l1 ++ l2) ->
  forall a b, In a l1 -> In b l2 -> R a b.
Proof.
  induction l1 as [|x l1 IH]; cbn; [contradiction |].
  intros Hs a b [<-|Ha] Hb.
  - apply StronglySorted_inv in Hs as [_ Hall].
    rewrite List.Forall_forall in Hall. apply Hall, in_or_app. now right.
  - apply StronglySorted_inv in Hs as [Hs _]. eauto.
Qed.

Lemma sorted_app_left {A} (R : A -> A -> Prop) (l1 l2 : list A) :
  StronglySorted R (l1 ++ l2) -> StronglySorted R l1.
Proof.
  induction l1 as [|x l1 IH]; cbn; [constructor |].
  intros Hs. apply StronglySorted_inv in Hs as [Hs Hall].
  constructor; [auto |]. now apply Forall_app in Hall.
Qed.

(** X13. For a limit that is not negative, [cmd_download_artist]
    downloads the newest releases by its sort key: it takes [limit] of
    the candidates kept by the filter (all of them when there are
    fewer), in descending order of key, and no candidate it leaves out
    has a larger key than one it takes. *)
Theorem albums_to_download_takes_the_largest_keys (releases_data : json)
    (skip_singles : bool) (limit : Z) (chosen : list (Z * json)) :
  0 <= limit ->
  albums_to_download repr releases_data skip_singles limit = Ret chosen ->
  let key := fun pair : Z * json => _release_date_int repr (snd pair) in
  exists releases candidates left_out,
    items releases_data = Ret releases
    /\ filter_releases releases skip_singles = Ret candidates
    /\ Permutation (chosen ++ left_out) candidates
    /\ length chosen = Nat.min (Z.to_nat limit) (length candidates)
    /\ StronglySorted
         (fun a b => forall ka kb,
            key a = Ret ka -> key b = Ret kb -> kb <= ka) chosen
    /\ (forall a b ka kb,
          In a chosen -> In b left_out ->
          key a = Ret ka -> key b = Ret kb -> kb <= ka).
Proof.
  intros Hlimit Hrun key. unfold albums_to_download in Hrun.
  destruct (items releases_data) as [releases|] eqn:Hitems; [| discriminate].
  cbn [obind] in Hrun.
  destruct (filter_releases releases skip_singles) as [candidates|]
    eqn:Hfilter; [| discriminate].
  cbn [obind] in Hrun. unfold sort_reverse_by in Hrun. fold key in Hrun.
  destruct (with_keys key candidates) as [ks|] eqn:Hks; [| discriminate].
  cbn [obind] in Hrun. injection Hrun as <-.
  destruct (with_keys_spec key candidates ks Hks) as [Hmap Hkeys].
  unfold slice_to. destruct (Z.leb_spec 0 limit); [| lia].
  set (n := Z.to_nat limit). set (sorted := sort_desc ks).
  assert (Hperm : Permutation sorted ks) by apply sort_desc_perm.
  assert (Hsorted : StronglySorted Spec.key_ge sorted)
    by apply sort_desc_sorted.
  assert (Hkeys' : Forall (fun kx => key (snd kx) = Ret (fst kx)) sorted).
  { rewrite List.Forall_forall in *. intros kx Hin. apply Hkeys.
    eapply Permutation_in; [exact Hperm | exact Hin]. }
  rewrite <- (take_drop n sorted) in Hsorted, Hkeys'.
  apply Forall_app in Hkeys' as [Htake Hdrop].
  exists releases, candidates, (List.map snd (drop n sorted)).
  split; [reflexivity |]. split; [exact Hfilter |].
  rewrite firstn_map. split; [| split; [| split]].
  - rewrite <- map_app, take_drop, <- Hmap. now apply Permutation_map.
  - rewrite length_map, length_firstn, (Permutation_length Hperm), <- Hmap,
      length_map. reflexivity.
  - apply sorted_app_left in Hsorted.
    induction Hsorted as [|p l Hs IH Hall]; cbn; [constructor |].
    apply Forall_cons in Htake as [Hp Htake].
    constructor; [now apply IH |].
    rewrite List.Forall_forall in *. intros b Hb ka kb Ha Hkb.
    apply in_map_iff in Hb as (q & <- & Hq).
    specialize (Hall q Hq). specialize (Htake q Hq).
    unfold Spec.key_ge in Hall. congruence.
  - intros a b ka kb Ha Hb Hka Hkb.
    apply in_map_iff in Ha as (p & <- & Hp).
    apply in_map_iff in Hb as (q & <- & Hq).
    pose proof (sorted_app_order _ _ _ Hsorted p q Hp Hq) as Hge.
    rewrite List.Forall_forall in Htake, Hdrop.
    specialize (Htake p Hp). specialize (Hdrop q Hq).
    unfold Spec.key_ge in Hge. congruence.
Qed.

End SelectionFacts.

Lemma albums_to_download_takes_the_largest_keys_witness :
  let key :=
    fun pair : Z * json =>
      ZvukMultiBotCLI._release_date_int Examples.no_repr (snd pair) in
  exists releases candidates left_out,
    ZvukMultiBotCLI.items (JObj Examples.three_releases) = Ret releases
    /\ ZvukMultiBotCLI.filter_releases releases true = Ret candidates
    /\ Permutation
         ([(501, Examples.typed_album_release)] ++ left_out) candidates
    /\ length [(501, Examples.typed_album_release)]
       = Nat.min (Z.to_nat 1) (length candidates)
    /\ StronglySorted
         (fun a b => forall ka kb,
            key a = Ret ka -> key b = Ret kb -> kb <= ka)
         [(501, Examples.typed_album_release)]
    /\ (forall a b ka kb,
          In a [(501, Examples.typed_album_release)] -> In b left_out ->
          key a = Ret ka -> key b = Ret kb -> kb <= ka).
Proof.
  cbn zeta.
  apply (albums_to_download_takes_the_largest_keys (U := ascii_table)
           Examples.no_repr (JObj Examples.three_releases) true 1).
  - lia.
  - vm_compute. reflexivity.
Defined.

(** ** The releases of an artist, page by page *)

Section ArtistPages.
Context {U : UnicodeData} (env : ZvukMultiBot.Env)
        (config : ZvukMultiBot.ZvukConfig).
Import ZvukMultiBot ZvukMultiBotArtist.

Lemma artist_pages_bound (fuel : nat) (artist_id limit size offset : Z)
    (collected : list Z) (w : World) (ids : list Z) (w' : World) :
  0 < limit ->
  Z.of_nat (length collected) < limit ->
  artist_pages env config fuel artist_id limit size offset collected w
    = (Ret (Some ids), w') ->
  Z.of_nat (length ids) <= limit.
Proof.
  intros Hlimit. revert offset collected w.
  induction fuel as [|fuel IH]; intros offset collected w Hlen; cbn.
  - discriminate.
  - unfold bind at 1.
    destruct (graphql_query env config _ _ w) as [[response|e] w1];
      [| discriminate].
    unfold bind at 1, lift at 1.
    destruct (page_releases response) as [[releases|]|]; [| | discriminate].
    + unfold bind at 1, lift at 1.
      destruct (iter releases) as [rs|]; [| discriminate].
      unfold bind at 1, lift at 1.
      destruct (page_ids rs) as [new|]; [| discriminate].
      destruct ((0 <? limit) && (limit <=? Z.of_nat (length (collected ++ new))))
        eqn:Hfull.
      * intros [= <- <-]. unfold slice_to.
        destruct (Z.leb_spec 0 limit); [| lia].
        rewrite length_firstn. lia.
      * unfold bind at 1, lift at 1.
        destruct (len releases) as [n|]; [| discriminate].
        apply IH.
        apply andb_false_iff in Hfull as [H|H];
          [apply Z.ltb_ge in H | apply Z.leb_gt in H]; lia.
    + intros [= <- <-]. lia.
Qed.

(** X14. With a positive limit, [get_artist_releases] returns at most
    [limit] release ids, however many the pages of the service
    carry. *)
Theorem get_artist_releases_respects_the_limit (fuel : nat)
    (artist_id limit offset : Z) (w : World) (ids : list Z) (w' : World) :
  0 < limit ->
  get_artist_releases env config fuel artist_id limit offset w
    = (Ret (Some ids), w') ->
  Z.of_nat (length ids) <= limit.
Proof.
  intros Hlimit. unfold get_artist_releases.
  apply artist_pages_bound; [exact Hlimit | cbn; lia].
Qed.

Lemma binary_payload_is_no_page (data : bytes) (ctype : str) :
  page_releases (JObj [(lit "binary_data", JBytes data);
                       (lit "content_type", JStr ctype)]) = Ret None.
Proof. vm_compute. reflexivity. Qed.

Lemma artist_pages_finish (fuel : nat) (artist_id limit size offset : Z)
    (collected : list Z) (w : World) :
  0 < limit ->
  Props.every_page_has_an_id env ->
  Z.of_nat (length collected) < limit ->
  limit - Z.of_nat (length collected) <= Z.of_nat fuel ->
  fst (artist_pages env config fuel artist_id limit size offset collected w)
  <> Ret None.
Proof.
  intros Hlimit Hpages. revert offset collected w.
  induction fuel as [|fuel IH]; intros offset collected w Hlen Hfuel.
  - lia.
  - cbn [artist_pages]. unfold bind at 1.
    destruct (graphql_query env config _ _ w) as [[response|e] w1] eqn:Hq;
      [| discriminate].
    unfold bind at 1, lift at 1.
    destruct (page_releases response) as [[releases|]|] eqn:Hpage;
      [| discriminate | discriminate].
    unfold bind at 1, lift at 1.
    destruct (iter releases) as [rs|] eqn:Hrs; [| discriminate].
    unfold bind at 1, lift at 1.
    destruct (page_ids rs) as [new|] eqn:Hnew; [| discriminate].
    assert (Hmore : new <> []).
    { unfold graphql_query in Hq.
      apply make_request_shape in Hq
        as (_ & _ & evs & _ & _ & _ & _ & _ & _ & Hres).
      destruct Hres as [->|(t & resp & _ & Hresp & _ & Hpay)];
        [discriminate |].
      cbn zeta in Hpay. destruct (contains _ _).
      - exact (Hpages _ _ _ _ _ _ _ _ _ Hresp Hpay Hpage Hrs Hnew).
      - destruct Hpay as (data & _ & ->).
        rewrite binary_payload_is_no_page in Hpage. discriminate. }
    destruct ((0 <? limit) && (limit <=? Z.of_nat (length (collected ++ new))))
      eqn:Hfull; [discriminate |].
    unfold bind at 1, lift at 1.
    destruct (len releases) as [n|]; [| discriminate].
    rewrite length_app in *.
    destruct new as [|i new]; [congruence |]. cbn [length] in *.
    apply IH; rewrite length_app; cbn [length];
      apply andb_false_iff in Hfull as [H|H];
      [apply Z.ltb_ge in H | apply Z.leb_gt in H
      |apply Z.ltb_ge in H | apply Z.leb_gt in H]; lia.
Qed.

(** X15. With a positive limit and a service whose non-empty pages
    each carry at least one id, the paging loop of
    [get_artist_releases] ends within [limit] pages: it returns its
    list or raises. *)
Theorem get_artist_releases_finishes (fuel : nat)
    (artist_id limit offset : Z) (w : World) :
  0 < limit ->
  Props.every_page_has_an_id env ->
  limit <= Z.of_nat fuel ->
  fst (get_artist_releases env config fuel artist_id limit offset w)
  <> Ret None.
Proof.
  intros Hlimit Hpages Hfuel. unfold get_artist_releases.
  apply artist_pages_finish; try assumption; cbn; lia.
Qed.

End ArtistPages.

Lemma paged_env_pages_have_ids :
  Props.every_page_has_an_id (U := ascii_table) Samples.paged_env.
Proof.
  intros t method url kwargs resp data releases rs ids Hresp Hdata Hpage Hrs
    Hids.
  destruct t as [|[|t]]; cbn in Hresp; injection Hresp as <-;
    cbn in Hdata; injection Hdata as <-;
    vm_compute in Hpage; try discriminate;
    injection Hpage as <-; vm_compute in Hrs; injection Hrs as <-;
    vm_compute in Hids; injection Hids as <-; discriminate.
Qed.

Lemma get_artist_releases_respects_the_limit_witness :
  Z.of_nat (length [41; 42; 43]) <= 3.
Proof.
  apply (get_artist_releases_respects_the_limit (U := ascii_table)
           Samples.paged_env ZvukMultiBot.default_config 5 9 3 0
           Examples.fresh [41; 42; 43]
           (snd (ZvukMultiBotArtist.get_artist_releases Samples.paged_env
                   ZvukMultiBot.default_config 5 9 3 0 Examples.fresh))).
  - lia.
  - vm_compute. reflexivity.
Defined.

Lemma get_artist_releases_finishes_witness :
  fst (ZvukMultiBotArtist.get_artist_releases Samples.paged_env
         ZvukMultiBot.default_config 3 9 3 0 Examples.fresh)
  <> Ret None.
Proof.
  apply (get_artist_releases_finishes (U := ascii_table) Samples.paged_env
           ZvukMultiBot.default_config 3 9 3 0 Examples.fresh).
  - lia.
  - exact paged_env_pages_have_ids.
  - vm_compute. discriminate.
Defined.

(** ** The listing of an artist's releases *)

Section ListingFacts.
Context {U : UnicodeData} (repr : json -> str).
Import ZvukMultiBotCLI ZvukMultiBotListing.

(** X16. The listing of [cmd_artist_info] holds every release of the
    answer once, each with the year read off its date, in descending
    order of year. A release without a date counts as year 0, so
    nothing listed after it has a positive year: undated releases come
    last. *)
Theorem sorted_releases_lists_undated_last (releases_data : json)
    (rows : list (Z * (str * json))) :
  sorted_releases repr releases_data = Ret rows ->
  exists releases,
    items releases_data = Ret releases
    /\ Permutation (List.map snd rows) releases
    /\ Forall (fun row => release_year repr (snd (snd row)) = Ret (fst row))
         rows
    /\ StronglySorted Spec.key_ge rows
    /\ (forall before a between b after,
          rows = before ++ a :: between ++ b :: after ->
          Props.undated (snd (snd a)) = true ->
          fst b <= 0).
Proof.
  unfold sorted_releases. intros Hrun.
  destruct (items releases_data) as [releases|] eqn:Hitems; [| discriminate].
  cbn [obind] in Hrun.
  destruct (with_keys _ releases) as [ks|] eqn:Hks; [| discriminate].
  cbn [obind] in Hrun. injection Hrun as <-.
  destruct (with_keys_spec _ _ _ Hks) as [Hmap Hkeys].
  pose proof (sort_desc_perm ks) as Hperm.
  pose proof (sort_desc_sorted ks) as Hsorted.
  assert (Hkeys' : Forall (fun row => release_year repr (snd (snd row))
                                      = Ret (fst row)) (sort_desc ks)).
  { rewrite List.Forall_forall in *. intros row Hin. apply Hkeys.
    eapply Permutation_in; [exact Hperm | exact Hin]. }
  exists releases. split; [reflexivity |].
  split; [rewrite <- Hmap; now apply Permutation_map |].
  split; [exact Hkeys' |]. split; [exact Hsorted |].
  intros before a between b after Hrows Hundated.
  rewrite Hrows in Hsorted, Hkeys'.
  apply Forall_app in Hkeys' as [_ Hkeys'].
  apply Forall_cons in Hkeys' as [Ha _].
  change (a :: between ++ b :: after)
    with ([a] ++ between ++ b :: after) in Hsorted.
  rewrite app_assoc in Hsorted.
  pose proof (sorted_app_order _ _ _ Hsorted a b) as Hge.
  unfold Spec.key_ge in Hge.
  assert (Hzero : fst a = 0).
  { unfold Props.undated in Hundated. unfold release_year in Ha.
    destruct (get_default (snd (snd a)) (lit "date") (JInt 0)) as [date_val|];
      [| discriminate].
    cbn [obind] in Ha. destruct (truthy date_val); [discriminate |].
    now injection Ha. }
  rewrite Hzero in Hge. apply Hge.
  - apply in_or_app. right. now left.
  - apply in_or_app. right. now left.
Qed.

End ListingFacts.

Lemma sorted_releases_lists_undated_last_witness :
  exists releases,
    ZvukMultiBotCLI.items Examples.two_releases = Ret releases
    /\ Permutation
         (List.map snd
            [ (2024, (lit "101", Examples.dated_release));
              (0, (lit "102", Examples.undated_release)) ])
         releases
    /\ Forall
         (fun row =>
            ZvukMultiBotListing.release_year Examples.no_repr (snd (snd row))
            = Ret (fst row))
         [ (2024, (lit "101", Examples.dated_release));
           (0, (lit "102", Examples.undated_release)) ]
    /\ StronglySorted Spec.key_ge
         [ (2024, (lit "101", Examples.dated_release));
           (0, (lit "102", Examples.undated_release)) ]
    /\ (forall before a between b after,
          [ (2024, (lit "101", Examples.dated_release));
            (0, (lit "102", Examples.undated_release)) ]
          = before ++ a :: between ++ b :: after ->
          Props.undated (snd (snd a)) = true ->
          fst b <= 0).
Proof.
  apply (sorted_releases_lists_undated_last (U := ascii_table)
           Examples.no_repr Examples.two_releases).
  vm_compute. reflexivity.
Defined.

(** ** The synchronous downloader and its list of failures *)

Section FailureList.
Import SberZvukDownloader Props.

Lemma silent_ret {A} (a : A) : silent (@ret State A a).
Proof. intros s. reflexivity. Qed.

Lemma silent_raise {A} (e : exn) : silent (@raise State A e).
Proof. intros s. reflexivity. Qed.

Lemma silent_lift {A} (o : outcome A) : silent (@lift State A o).
Proof. intros s. reflexivity. Qed.

Lemma silent_tick : silent tick.
Proof. intros s. reflexivity. Qed.

Lemma silent_emit (e : event) : silent (emit e).
Proof. intros s. reflexivity. Qed.

Lemma silent_bind {A B} (m : M State A) (k : A -> M State B) :
  silent m -> (forall a, silent (k a)) -> silent (bind m k).
Proof.
  intros Hm Hk s. unfold bind. specialize (Hm s).
  destruct (m s) as [[a|e] s1]; cbn in Hm.
  - rewrite (Hk a s1). exact Hm.
  - exact Hm.
Qed.

Lemma silent_try {A} (m : M State A) (c : exn -> bool) (h : exn -> M State A) :
  silent m -> (forall e, silent (h e)) -> silent (try_except m c h).
Proof.
  intros Hm Hh s. unfold try_except. specialize (Hm s).
  destruct (m s) as [[a|e] s1]; cbn in Hm; [exact Hm |].
  destruct (c e); [| exact Hm]. rewrite (Hh e s1). exact Hm.
Qed.

Lemma contained_try {A} (m : M State A) (h : exn -> M State A) :
  (forall e, contained (h e)) -> contained (try_except m is_Exception h).
Proof.
  intros Hh s. unfold try_except.
  destruct (m s) as [[a|e] s1]; [reflexivity |].
  destruct (is_Exception e) eqn:He; [apply Hh | cbn; exact He].
Qed.

Lemma keeps_failures_silent {A} (m : M State A) :
  silent m -> keeps_failures m.
Proof. intros Hm s. exists []. now rewrite app_nil_r. Qed.

Lemma keeps_failures_append (x : json) : keeps_failures (failed_tracks_append x).
Proof. intros s. exists [x]. reflexivity. Qed.

Lemma keeps_failures_bind {A B} (m : M State A) (k : A -> M State B) :
  keeps_failures m -> (forall a, keeps_failures (k a)) ->
  keeps_failures (bind m k).
Proof.
  intros Hm Hk s. unfold bind. destruct (Hm s) as (m1 & H1).
  destruct (m s) as [[a|e] s1]; cbn in H1.
  - destruct (Hk a s1) as (m2 & H2). exists (m1 ++ m2).
    now rewrite H2, H1, app_assoc.
  - exists m1. exact H1.
Qed.

Lemma keeps_failures_try {A} (m : M State A) (c : exn -> bool)
    (h : exn -> M State A) :
  keeps_failures m -> (forall e, keeps_failures (h e)) ->
  keeps_failures (try_except m c h).
Proof.
  intros Hm Hh s. unfold try_except. destruct (Hm s) as (m1 & H1).
  destruct (m s) as [[a|e] s1]; cbn in H1.
  - exists m1. exact H1.
  - destruct (c e).
    + destruct (Hh e s1) as (m2 & H2). exists (m1 ++ m2).
      now rewrite H2, H1, app_assoc.
    + exists m1. exact H1.
Qed.

Lemma keeps_failures_for_loop {B R} (items : list B)
    (body : B -> M State (step R)) :
  (forall x, keeps_failures (body x)) -> keeps_failures (for_loop items body).
Proof.
  intros Hbody. induction items as [|x items IH]; cbn [for_loop].
  - apply keeps_failures_silent, silent_ret.
  - apply keeps_failures_bind; [apply Hbody |].
    intros [|r]; [exact IH | apply keeps_failures_silent, silent_ret].
Qed.

Lemma once_silent {A} (track_info : json) (m : M State A) :
  silent m -> once track_info m.
Proof. intros Hm s. left. apply Hm. Qed.

Lemma once_bind_silent {A B} (track_info : json) (m : M State A)
    (k : A -> M State B) :
  silent m -> (forall a, once track_info (k a)) -> once track_info (bind m k).
Proof.
  intros Hm Hk s. unfold bind. specialize (Hm s).
  destruct (m s) as [[a|e] s1]; cbn in Hm.
  - rewrite <- Hm. apply Hk.
  - left. exact Hm.
Qed.

Lemma once_bind_lift {A B} (track_info : json) (o : outcome A)
    (k : A -> M State B) :
  (forall a, o = Ret a -> once track_info (k a)) ->
  once track_info (bind (lift o) k).
Proof.
  intros Hk s. unfold bind, lift. destruct o as [a|e].
  - now apply Hk.
  - left. reflexivity.
Qed.

Lemma once_then {A B} (track_info : json) (m : M State A)
    (k : A -> M State B) :
  once track_info m ->
  (forall a, silent (k a)) -> (forall a, contained (k a)) ->
  once track_info (bind m k).
Proof.
  intros Hm Hs Hc s. unfold bind. specialize (Hm s).
  destruct (m s) as [[a|e] s1]; cbn in Hm.
  - rewrite (Hs a s1). destruct Hm as [Hm|(id & Hid & Hm & _)].
    + now left.
    + right. exists id. split; [exact Hid |]. split; [exact Hm | apply Hc].
  - exact Hm.
Qed.

(** The shape of [add_metadata]: a block that appends nothing, whose
    failure is answered by appending the id of the track. *)
Lemma once_try_mark (track_info : json) (body : M State unit) :
  silent body ->
  once track_info
    (try_except body is_Exception
       (fun _ =>
          bind (lift (getitem track_info (lit "id"))) failed_tracks_append)).
Proof.
  intros Hbody s. unfold try_except. specialize (Hbody s).
  destruct (body s) as [[a|e] s1]; cbn in Hbody; [now left |].
  destruct (is_Exception e); [| now left].
  unfold bind, lift. destruct (getitem track_info (lit "id")) as [id|] eqn:Hid.
  - right. exists id. cbn. rewrite Hbody. auto.
  - left. exact Hbody.
Qed.

End FailureList.

Ltac silent_auto :=
  repeat first
    [ apply silent_ret | apply silent_raise | apply silent_lift
    | apply silent_tick | apply silent_emit
    | apply silent_bind; [| intros ?]
    | apply silent_try; [| intros ?]
    | match goal with
      | |- Props.silent (if ?b then _ else _) => destruct b
      | |- Props.silent (match ?x with _ => _ end) => destruct x
      end ].

Section FailureFacts.
Context {U : UnicodeData} (env : SberZvukDownloader.Env) (config : json).
Import SberZvukDownloader SberZvukBatch Props.

Lemma silent_write_chunks (p : str) (cs : list bytes) :
  silent (write_chunks p cs).
Proof. induction cs as [|c cs IH]; cbn [write_chunks]; silent_auto. exact IH. Qed.

Lemma silent_add_lyrics (p : str) (track_id : json) :
  silent (add_lyrics env config p track_id).
Proof. unfold add_lyrics, requests_get, tag_check. silent_auto. Qed.

Lemma contained_add_lyrics (p : str) (track_id : json) :
  contained (add_lyrics env config p track_id).
Proof. unfold add_lyrics. apply contained_try. intros e s. reflexivity. Qed.

Lemma once_add_metadata (p : str) (track_info : json) (format : str) :
  once track_info (add_metadata env config p track_info format).
Proof.
  unfold add_metadata. apply once_try_mark.
  unfold requests_get, tag_check. silent_auto.
Qed.

(** The block inside the [try] statement of [download_track], step by
    step; the second lookup of [config['lyrics']] succeeds because the
    first did. *)
Ltac once_body :=
  cbv zeta; unfold requests_get, fs_check;
  repeat first
    [ apply once_bind_lift; intros ? ?
    | match goal with
      | |- Props.once _ (Exec.bind (add_metadata _ _ _ _ _) _) => fail 1
      | |- Props.once _ (Exec.bind _ _) =>
          apply once_bind_silent;
          [ first [ apply silent_write_chunks | silent_auto ] | intros ? ]
      end ];
  match goal with
  | |- Props.once _ (match ?x with _ => _ end) =>
      destruct x; [apply once_silent, silent_raise |]
  end;
  apply once_then; [apply once_add_metadata | |]; intros _;
  [ apply silent_bind; [apply silent_lift |];
    let lyrics := fresh "lyrics" in
    intros lyrics; destruct (truthy lyrics);
    [apply silent_add_lyrics | apply silent_ret]
  | let s0 := fresh "s" in
    intros s0; unfold Exec.bind, Exec.lift;
    match goal with H : getitem _ (lit "lyrics") = Ret _ |- _ =>
      rewrite H
    end;
    match goal with |- context [truthy ?l] => destruct (truthy l) end;
    [apply contained_add_lyrics | reflexivity] ].

Lemma nothing_marked (track_info : json) (s s' : State) :
  failed_tracks s' = failed_tracks s ->
  exists more,
    failed_tracks s' = failed_tracks s ++ more /\ marks track_info more.
Proof. intros H. exists []. rewrite app_nil_r. split; [exact H | now left]. Qed.

(** The [try] statement of [download_track]: a block that reports the
    track at most once, and not at all when an [Exception] comes out of
    it, answered by reporting the track. *)
Lemma try_block_marks (track_info track_id : json) (body : M State unit)
    (s : State) :
  getitem track_info (lit "id") = Ret track_id ->
  once track_info body ->
  exists more,
    failed_tracks
      (snd (try_except body is_Exception
              (fun _ =>
                 bind (lift (getitem track_info (lit "title")))
                   (fun _ => failed_tracks_append track_id)) s))
    = failed_tracks s ++ more
    /\ marks track_info more.
Proof.
  intros Hid Hbody. unfold try_except. specialize (Hbody s).
  destruct (body s) as [[a|e] s1]; cbn [fst snd] in Hbody.
  - destruct Hbody as [Hb|(id & Hi & Hb & _)].
    + now apply nothing_marked.
    + exists [id]. split; [exact Hb | right; eauto].
  - destruct (is_Exception e) eqn:He.
    + destruct Hbody as [Hb|(id & _ & _ & Hno)]; [| cbn in Hno; congruence].
      unfold bind, lift. destruct (getitem track_info (lit "title")).
      * exists [track_id]. cbn. rewrite Hb. split; [reflexivity | right; eauto].
      * now apply nothing_marked.
    + destruct Hbody as [Hb|(id & Hi & Hb & _)].
      * now apply nothing_marked.
      * exists [id]. split; [exact Hb | right; eauto].
Qed.

(** X17. [download_track] of the synchronous downloader reports a
    track at most once: whatever the service, the filesystem and the
    tag library do, it leaves the list of failures as it was or adds
    the id of the track to it, once. *)
Theorem download_track_marks_at_most_once (track_info : json) (s : State) :
  exists more,
    failed_tracks (snd (download_track env config track_info s))
    = failed_tracks s ++ more
    /\ marks track_info more.
Proof.
  unfold download_track.
  destruct (negb (truthy track_info)); [now apply nothing_marked |].
  unfold bind at 1, lift at 1.
  destruct (getitem track_info (lit "id")) as [track_id|] eqn:Hid;
    [| now apply nothing_marked].
  unfold bind at 1, lift at 1.
  destruct (preferred_format config) as [preferred|];
    [| now apply nothing_marked].
  unfold bind at 1, lift at 1.
  destruct (available_format track_info) as [available|];
    [| now apply nothing_marked].
  assert (Hskipped : exists more,
            failed_tracks
              (snd (bind (lift (getitem track_info (lit "title")))
                      (fun _ => failed_tracks_append track_id) s))
            = failed_tracks s ++ more /\ marks track_info more).
  { unfold bind, lift. destruct (getitem track_info (lit "title"));
      [| now apply nothing_marked].
    exists [track_id]. split; [reflexivity | right; eauto]. }
  unfold bind at 1.
  destruct (negb (str_eqb preferred available)).
  - unfold bind at 1, lift at 1.
    destruct (getitem config (lit "fallback_to_lower_quality")) as [fallback|];
      [| now apply nothing_marked].
    unfold ret at 1. cbv beta iota.
    destruct (negb (truthy fallback)); [exact Hskipped |].
    apply try_block_marks; [exact Hid | once_body].
  - unfold ret at 1. cbv beta iota.
    apply try_block_marks; [exact Hid | once_body].
Qed.

End FailureFacts.

Ltac keeps_auto :=
  repeat first
    [ apply keeps_failures_append
    | apply keeps_failures_silent;
      first [ apply silent_ret | apply silent_raise | apply silent_lift
            | apply silent_tick | apply silent_emit ]
    | apply keeps_failures_bind; [| intros ?]
    | apply keeps_failures_try; [| intros ?]
    | apply keeps_failures_for_loop; intros ?
    | match goal with
      | |- Props.keeps_failures (if ?b then _ else _) => destruct b
      | |- Props.keeps_failures (match ?x with _ => _ end) => destruct x
      end ].

Section BatchFacts.
Context {U : UnicodeData} (env : SberZvukDownloader.Env) (config : json).
Import SberZvukDownloader SberZvukBatch Props.

Lemma keeps_failures_write_chunks (p : str) (cs : list bytes) :
  keeps_failures (write_chunks p cs).
Proof. apply keeps_failures_silent, silent_write_chunks. Qed.

Lemma keeps_failures_download_track (track_info : json) :
  keeps_failures (download_track env config track_info).
Proof.
  unfold download_track, add_metadata, add_lyrics, requests_get, fs_check,
    tag_check.
  keeps_auto; apply keeps_failures_write_chunks.
Qed.

Lemma keeps_failures_get_track_info (track_id : json) :
  keeps_failures (get_track_info env track_id).
Proof. unfold get_track_info, requests_get. keeps_auto. Qed.

(** X18. [get_track_info] sends one request for the track. When the
    lookup succeeds it returns the record of the track and leaves the
    list of failures alone. When the lookup fails in any way (the
    request, its status, the decoding, a missing key) with an
    [Exception], it returns [None] and appends the id it was asked for to
    the list of failures, once. Only what is no [Exception] passes
    through, the list left alone. *)
Theorem get_track_info_fails_to_None (track_id : json) (s : State) :
  let asked :=
    events s ++ [HttpGet (base_url ++ lit "tracks") [(lit "ids", track_id)]] in
  get_track_info env track_id s
  = match Props.track_lookup env (clock s) track_id with
    | Ret v =>
        (Ret v,
         {| failed_tracks := failed_tracks s;
            clock := S (clock s);
            events := asked |})
    | Raise e =>
        if is_Exception e
        then (Ret JNull,
              {| failed_tracks := failed_tracks s ++ [track_id];
                 clock := S (clock s);
                 events := asked |})
        else (Raise e,
              {| failed_tracks := failed_tracks s;
                 clock := S (clock s);
                 events := asked |})
    end.
Proof.
  cbv zeta.
  unfold get_track_info, Props.track_lookup, try_except, requests_get.
  cbv zeta.
  unfold bind, tick, emit, modify, lift, failed_tracks_append, ret.
  cbn [failed_tracks clock events].
  destruct (http_get env (clock s) (base_url ++ lit "tracks")
              [(lit "ids", track_id)]) as [response|e];
    [| destruct (is_Exception e); reflexivity ].
  destruct (raise_for_status response) as [[]|e];
    [| destruct (is_Exception e); reflexivity ].
  destruct (json_body response) as [body|e];
    [| destruct (is_Exception e); reflexivity ].
  destruct (getitem body (lit "result")) as [result|e];
    [| destruct (is_Exception e); reflexivity ].
  destruct (getitem result (lit "tracks")) as [tracks|e];
    [| destruct (is_Exception e); reflexivity ].
  destruct (getitem tracks (py_str (repr env) track_id)) as [v|e];
    [reflexivity | destruct (is_Exception e); reflexivity ].
Qed.

(** A lookup that cannot reach the service: [None], and the id listed. *)
Example get_track_info_offline :
  get_track_info Examples.legacy_env (JInt 7) Examples.legacy_start
  = (Ret JNull,
     {| failed_tracks := [JInt 7];
        clock := 1;
        events := [HttpGet (lit "https://zvuk.com/api/tiny/tracks")
                     [(lit "ids", JInt 7)]] |}).
Proof. reflexivity. Qed.

(** X19. [process_album_or_playlist] lets no [Exception] out, so a
    broken album or playlist never stops the links that follow it; and
    it only adds to the list of failures. *)
Theorem process_album_or_playlist_contains_its_failures (link : str)
    (s : State) :
  Spec.raises_Exception (fst (process_album_or_playlist env config link s))
  = false
  /\ exists more,
       failed_tracks (snd (process_album_or_playlist env config link s))
       = failed_tracks s ++ more.
Proof.
  split.
  - unfold process_album_or_playlist. cbv zeta.
    apply contained_try. intros e s0. reflexivity.
  - revert s. change (keeps_failures (process_album_or_playlist env config link)).
    unfold process_album_or_playlist, process_track, requests_get. cbv zeta.
    keeps_auto;
      first [ apply keeps_failures_get_track_info
            | apply keeps_failures_download_track ].
Qed.

(** X20. When the request for the album or playlist itself fails,
    [process_album_or_playlist] adds what follows the last slash of the
    link to the list of failures and touches no track. *)
Theorem process_album_or_playlist_reports_a_lost_album (link : str)
    (s : State) (e : exn) :
  let link_type :=
    if contains (lit "release") link then lit "releases" else lit "playlists" in
  let url := base_url ++ link_type in
  let params := [(lit "ids", JStr (last_segment link))] in
  http_get env (clock s) url params = Raise e ->
  is_Exception e = true ->
  process_album_or_playlist env config link s
  = (Ret tt,
     {| failed_tracks := failed_tracks s ++ [JStr (last_segment link)];
        clock := S (clock s);
        events := events s ++ [HttpGet url params] |}).
Proof.
  intros link_type url params Hget He.
  unfold process_album_or_playlist. fold link_type. cbv zeta.
  fold url. fold params.
  unfold try_except, requests_get, bind, tick, emit, modify, lift.
  cbn [clock events failed_tracks]. rewrite Hget, He. reflexivity.
Qed.

(** X21. [process_links] never takes a failure off the list: whatever
    happens to the links, the failures recorded before are still there,
    in their order, followed by the new ones. *)
Theorem process_links_only_adds_failures (links : list str) (s : State) :
  exists more,
    failed_tracks (snd (process_links env config links s))
    = failed_tracks s ++ more.
Proof.
  revert s. change (keeps_failures (process_links env config links)).
  unfold process_links, process_link, process_album_or_playlist,
    process_track, requests_get.
  cbv zeta.
  keeps_auto;
    first [ apply keeps_failures_get_track_info
          | apply keeps_failures_download_track ].
Qed.

End BatchFacts.

(** ** The file name of the synchronous downloader *)

Section LegacyNames.
Import SberZvukDownloader.

Lemma replace_slash_step (s : str) :
  replace_from (lit "/") (lit "_") s 0
  = List.map (fun c => if (c =? 47)%N then 95%N else c) s.
Proof.
  induction s as [|c s IH]; [reflexivity |].
  cbn [replace_from List.map]. change (length (lit "/") - 1)%nat with 0%nat.
  rewrite IH. change (starts_with (lit "/") (c :: s)) with ((47 =? c)%N && true).
  rewrite andb_true_r, N.eqb_sym. destruct (c =? 47)%N; reflexivity.
Qed.

(** X22. The file name the synchronous downloader writes to holds no
    slash: [file_name.replace('/', '_')] turns every slash into an
    underscore and changes nothing else, so the name keeps its length
    and a name without slashes is kept as it is. *)
Theorem replace_slash_leaves_no_slash (file_name : str) :
  let name := replace (lit "/") (lit "_") file_name in
  ~ In 47%N name
  /\ length name = length file_name
  /\ (~ In 47%N file_name -> name = file_name).
Proof.
  cbv zeta. unfold replace. rewrite replace_slash_step.
  split; [| split].
  - intros Hin. apply in_map_iff in Hin as (c & Hc & _).
    destruct (N.eqb_spec c 47); [discriminate | congruence].
  - apply length_map.
  - intros Hno. induction file_name as [|c l IH]; [reflexivity |].
    cbn [List.map]. rewrite IH by (intros H; apply Hno; now right).
    destruct (N.eqb_spec c 47) as [->|]; [| reflexivity].
    exfalso. apply Hno. now left.
Qed.

End LegacyNames.

Lemma process_album_or_playlist_reports_a_lost_album_witness :
  SberZvukBatch.process_album_or_playlist Examples.legacy_env
    (JObj (Examples.legacy_config true))
    (lit "https://zvuk.com/release/777") Examples.legacy_start
  = (Ret tt,
     {| SberZvukDownloader.failed_tracks := [] ++ [JStr (lit "777")];
        SberZvukDownloader.clock := 1;
        SberZvukDownloader.events :=
          [] ++ [ SberZvukDownloader.HttpGet
                    (lit "https://zvuk.com/api/tiny/releases")
                    [(lit "ids", JStr (lit "777"))] ] |}).
Proof.
  apply (process_album_or_playlist_reports_a_lost_album Examples.legacy_env
           (JObj (Examples.legacy_config true))
           (lit "https://zvuk.com/release/777") Examples.legacy_start
           (Exception "ConnectionError")).
  - vm_compute. reflexivity.
  - reflexivity.
Defined.

(** ** Streams that break, tracks without a record *)

Section StreamEdges.
Context {U : UnicodeData} (env : ZvukMultiBot.Env)
        (config : ZvukMultiBot.ZvukConfig).
Import ZvukMultiBot.

(** X23. When the audio stream breaks after some chunks, the [with]
    block of [download_track] raises what the stream raised and counts
    no success; the chunks received so far were written, and the
    partial file is left where it is: nothing removes it. *)
Theorem store_stream_leaves_the_partial_file (response : response)
    (filepath : str) (track_data track_id : json)
    (embed_metadata_ download_cover save_lyrics save_subtitles : bool)
    (w : World) (e : exn) :
  status response = 200 ->
  fs_error env (clock w) filepath = None ->
  chunks_error response = Some e ->
  exists w',
    store_stream env config response filepath track_data track_id
      embed_metadata_ download_cover save_lyrics save_subtitles w
    = (Raise e, w')
    /\ files w' !! filepath = Some (Audio (concat (chunks response)))
    /\ events w' =
       events w ++ OpenWrite filepath
                   :: List.map (WriteChunk filepath) (chunks response)
    /\ successful_downloads (stats w') = successful_downloads (stats w)
    /\ failed_downloads (stats w') = failed_downloads (stats w).
Proof.
  intros Hstatus Hopen Hbroken. unfold store_stream. rewrite Hstatus.
  cbn [Z.eqb Pos.eqb]. unfold bind at 1.
  unfold open_wb, fs_check, bind at 1 2 3, tick, emit, set_file, modify, ret.
  cbn [clock]. rewrite Hopen. cbn [stats clock events files].
  unfold bind at 1.
  match goal with |- context [write_chunks filepath _ ?w1] =>
    destruct (write_chunks_run filepath (chunks response) w1 [])
      as (w' & Hrun & Hfile & Hev & Hs & Hf & _)
  end.
  { cbn. apply lookup_insert_eq. }
  exists w'. rewrite Hrun, Hbroken.
  split; [reflexivity |]. split; [exact Hfile |].
  split; [rewrite Hev; cbn; now rewrite <- app_assoc |].
  split; [rewrite Hs | rewrite Hf]; reflexivity.
Qed.

(** X24. [download_release] starts one download per track id that has
    a record among the track records of the answer, in the order of the
    ids; an id without a record is passed over, and is counted neither
    as downloaded nor as failed. *)
Theorem release_tasks_passes_over_missing_records (ids : list json)
    (tracks_data : json) (quality release_folder : str)
    (save_lyrics save_subtitles : bool) (tasks : list (M World bool)) :
  release_tasks env config ids tracks_data quality release_folder save_lyrics
    save_subtitles = Ret tasks ->
  length tasks
  = length (List.filter (Props.has_record (repr env) tracks_data) ids)
  /\ (length tasks <= length ids)%nat.
Proof.
  intros Htasks.
  assert (Hlen : length tasks
                 = length (List.filter
                             (Props.has_record (repr env) tracks_data) ids)).
  { revert tasks Htasks. induction ids as [|i ids IH]; intros tasks.
    - intros [= <-]. reflexivity.
    - cbn [release_tasks List.filter]. unfold Props.has_record at 1.
      destruct (get_default tracks_data (py_str (repr env) i) (JObj []))
        as [track_info|]; [| discriminate].
      cbn [obind].
      destruct (release_tasks env config ids tracks_data quality
                  release_folder save_lyrics save_subtitles) as [more|].
      + specialize (IH more eq_refl). destruct (truthy track_info).
        * destruct (get_default track_info (lit "position") (JInt 0));
            [| discriminate].
          cbn [obind]. intros [= <-]. cbn. now rewrite IH.
        * cbn [obind]. intros [= <-]. exact IH.
      + destruct (truthy track_info); [| discriminate].
        destruct (get_default track_info (lit "position") (JInt 0));
          discriminate. }
  split; [exact Hlen |]. rewrite Hlen. apply filter_length_le.
Qed.

End StreamEdges.

Lemma store_stream_leaves_the_partial_file_witness :
  exists w',
    ZvukMultiBot.store_stream Examples.trio_env ZvukMultiBot.default_config
      Samples.broken_stream (lit "a.mp3") JNull (JInt 1) false false false
      false Examples.fresh
    = (Raise (Exception "ClientPayloadError"), w')
    /\ ZvukMultiBot.files w' !! lit "a.mp3"
       = Some (ZvukMultiBot.Audio
                 (concat (ZvukMultiBot.chunks Samples.broken_stream)))
    /\ ZvukMultiBot.events w' =
       ZvukMultiBot.events Examples.fresh
       ++ ZvukMultiBot.OpenWrite (lit "a.mp3")
          :: List.map (ZvukMultiBot.WriteChunk (lit "a.mp3"))
               (ZvukMultiBot.chunks Samples.broken_stream)
    /\ ZvukMultiBot.successful_downloads (ZvukMultiBot.stats w')
       = ZvukMultiBot.successful_downloads (ZvukMultiBot.stats Examples.fresh)
    /\ ZvukMultiBot.failed_downloads (ZvukMultiBot.stats w')
       = ZvukMultiBot.failed_downloads (ZvukMultiBot.stats Examples.fresh).
Proof.
  apply (store_stream_leaves_the_partial_file Examples.trio_env
           ZvukMultiBot.default_config Samples.broken_stream (lit "a.mp3")
           JNull (JInt 1) false false false false Examples.fresh
           (Exception "ClientPayloadError"));
    reflexivity.
Defined.

Lemma release_tasks_passes_over_missing_records_witness :
  let task (i : Z) :=
    ZvukMultiBot.download_track Examples.trio_env ZvukMultiBot.default_config
      (JInt i) (lit "high") None true true (Some (lit "out")) (JInt i)
      false false in
  length [task 1%Z; task 3%Z]
  = length (List.filter
              (Props.has_record (ZvukMultiBot.repr Examples.trio_env)
                 Examples.trio_tracks)
              [JInt 1; JInt 9; JInt 3])
  /\ (length [task 1%Z; task 3%Z] <= length [JInt 1; JInt 9; JInt 3])%nat.
Proof.
  cbn zeta.
  apply (release_tasks_passes_over_missing_records (U := ascii_table)
           Examples.trio_env ZvukMultiBot.default_config
           [JInt 1; JInt 9; JInt 3] Examples.trio_tracks (lit "high")
           (lit "out") false false).
  reflexivity.
Defined.

(** ** The command line: parser and dispatch *)

Section CommandFacts.
Import ZvukMultiBotCommands.

Lemma member_In (c : str) (words : list str) :
  existsb (str_eqb c) words = true -> In c words.
Proof.
  intros H. apply existsb_exists in H as (x & Hx & Heq).
  unfold str_eqb in Heq. apply bool_decide_eq_true_1 in Heq. now subst.
Qed.

(** X25. Every name and every alias the parser accepts reaches the
    method of its command, which reads only arguments that the
    subparser of that command defines; two commands never share a
    method; a word the parser does not know, or no command at all,
    reaches nothing but the help text. *)
Theorem every_parsed_command_is_dispatched :
  (forall sp c,
     In sp subparsers -> In c (name sp :: aliases sp) ->
     fst (execute_command (Some c)) <> print_help
     /\ execute_command (Some c) = execute_command (Some (name sp))
     /\ incl (snd (execute_command (Some c))) (arguments sp))
  /\ (forall sp1 sp2,
        In sp1 subparsers -> In sp2 subparsers ->
        fst (execute_command (Some (name sp1)))
        = fst (execute_command (Some (name sp2))) ->
        sp1 = sp2)
  /\ (forall c,
        fst (execute_command (Some c)) <> print_help ->
        exists sp, In sp subparsers /\ In c (name sp :: aliases sp))
  /\ execute_command None = (print_help, []).
Proof.
  split; [| split; [| split]].
  - intros sp c Hsp Hc. unfold subparsers in Hsp. simpl In in Hsp.
    destruct_or!; try contradiction; subst sp;
      cbn [name aliases arguments] in *; simpl In in Hc;
      destruct_or!; try contradiction; subst c;
      (split; [vm_compute; discriminate |]);
      (split; [vm_compute; reflexivity |]);
      vm_compute; intros a Ha; intuition.
  - intros sp1 sp2 H1 H2. unfold subparsers in H1, H2. simpl In in H1, H2.
    destruct_or!; try contradiction; subst sp1 sp2; cbn [name];
      vm_compute; intros Heq; first [reflexivity | discriminate Heq].
  - intros c. unfold execute_command, member.

    destruct (existsb (str_eqb c) [lit "profile"; lit "prof"; lit "p"]) eqn:E0.
    { intros _. exists (nth 0 subparsers (Build_subparser [] [] [])).
      split; [unfold subparsers; cbn [nth]; simpl In; auto 20 |].
      apply member_In in E0. exact E0. }
    destruct (existsb (str_eqb c) [lit "download-track"; lit "dl"; lit "download"]) eqn:E1.
    { intros _. exists (nth 1 subparsers (Build_subparser [] [] [])).
      split; [unfold subparsers; cbn [nth]; simpl In; auto 20 |].
      apply member_In in E1. exact E1. }
    destruct (existsb (str_eqb c) [lit "check-quality"; lit "chk"; lit "quality"]) eqn:E2.
    { intros _. exists (nth 2 subparsers (Build_subparser [] [] [])).
      split; [unfold subparsers; cbn [nth]; simpl In; auto 20 |].
      apply member_In in E2. exact E2. }
    destruct (existsb (str_eqb c) [lit "track-info-extended"; lit "info"; lit "ti"]) eqn:E3.
    { intros _. exists (nth 3 subparsers (Build_subparser [] [] [])).
      split; [unfold subparsers; cbn [nth]; simpl In; auto 20 |].
      apply member_In in E3. exact E3. }
    destruct (existsb (str_eqb c) [lit "download-release"; lit "dlr"; lit "album"]) eqn:E4.
    { intros _. exists (nth 4 subparsers (Build_subparser [] [] [])).
      split; [unfold subparsers; cbn [nth]; simpl In; auto 20 |].
      apply member_In in E4. exact E4. }
    destruct (existsb (str_eqb c) [lit "track-info"; lit "tinfo"]) eqn:E5.
    { intros _. exists (nth 5 subparsers (Build_subparser [] [] [])).
      split; [unfold subparsers; cbn [nth]; simpl In; auto 20 |].
      apply member_In in E5. exact E5. }
    destruct (existsb (str_eqb c) [lit "release-info"; lit "rinfo"]) eqn:E6.
    { intros _. exists (nth 6 subparsers (Build_subparser [] [] [])).
      split; [unfold subparsers; cbn [nth]; simpl In; auto 20 |].
      apply member_In in E6. exact E6. }
    destruct (existsb (str_eqb c) [lit "release-info-extended"; lit "rext"; lit "album-info"]) eqn:E7.
    { intros _. exists (nth 7 subparsers (Build_subparser [] [] [])).
      split; [unfold subparsers; cbn [nth]; simpl In; auto 20 |].
      apply member_In in E7. exact E7. }
    destruct (existsb (str_eqb c) [lit "check-release-quality"; lit "chkr"; lit "album-quality"]) eqn:E8.
    { intros _. exists (nth 8 subparsers (Build_subparser [] [] [])).
      split; [unfold subparsers; cbn [nth]; simpl In; auto 20 |].
      apply member_In in E8. exact E8. }
    destruct (existsb (str_eqb c) [lit "lyrics"; lit "txt"; lit "text"]) eqn:E9.
    { intros _. exists (nth 9 subparsers (Build_subparser [] [] [])).
      split; [unfold subparsers; cbn [nth]; simpl In; auto 20 |].
      apply member_In in E9. exact E9. }
    destruct (existsb (str_eqb c) [lit "artist-releases"; lit "art"; lit "artist"]) eqn:E10.
    { intros _. exists (nth 10 subparsers (Build_subparser [] [] [])).
      split; [unfold subparsers; cbn [nth]; simpl In; auto 20 |].
      apply member_In in E10. exact E10. }
    destruct (existsb (str_eqb c) [lit "artist-info"; lit "ainfo"; lit "artist-detail"]) eqn:E11.
    { intros _. exists (nth 11 subparsers (Build_subparser [] [] [])).
      split; [unfold subparsers; cbn [nth]; simpl In; auto 20 |].
      apply member_In in E11. exact E11. }
    destruct (existsb (str_eqb c) [lit "download-artist"; lit "dla"; lit "artist-download"]) eqn:E12.
    { intros _. exists (nth 12 subparsers (Build_subparser [] [] [])).
      split; [unfold subparsers; cbn [nth]; simpl In; auto 20 |].
      apply member_In in E12. exact E12. }
    destruct (existsb (str_eqb c) [lit "artist-browser"; lit "browse"; lit "ab"]) eqn:E13.
    { intros _. exists (nth 13 subparsers (Build_subparser [] [] [])).
      split; [unfold subparsers; cbn [nth]; simpl In; auto 20 |].
      apply member_In in E13. exact E13. }
    cbn [fst]. congruence.
  - reflexivity.
Qed.

End CommandFacts.

(** ** The cover the synchronous downloader asks for *)

Section CoverFacts.
Context {U : UnicodeData} (env : SberZvukDownloader.Env).
Import SberZvukDownloader SberZvukSetup Logic.

Lemma first_start_config_cover
    (token format lyrics download_path fallback cover_resolution : str) :
  getitem (first_start_config token format lyrics download_path fallback
             cover_resolution) (lit "cover_resolution")
  = Ret (JBool (str_eqb cover_resolution (lit "1"))).
Proof. vm_compute. reflexivity. Qed.

Lemma try_get_first {A} (url : str) (params : dict)
    (k : response -> M State A) (h : exn -> M State A) (s : State) :
  (forall r, grows (k r)) -> (forall e, grows (h e)) ->
  exists later,
    events (snd (try_except (bind (requests_get env url params) k)
                   is_Exception h s))
    = events s ++ HttpGet url params :: later.
Proof.
  intros Hk Hh. rewrite try_except_bind.
  unfold requests_get, bind, tick, emit, modify, lift.
  destruct (http_get env (clock s) url params) as [r|e].
  - match goal with
    | |- context [try_except (k r) ?c h ?s1] =>
        destruct (grows_try (k r) c h (Hk r) Hh s1) as (evs & Hev)
    end.
    rewrite Hev. cbn [events]. exists evs. now rewrite <- app_assoc.
  - destruct (is_Exception e).
    + match goal with
      | |- context [h e ?s1] => destruct (Hh e s1) as (evs & Hev)
      end.
      rewrite Hev. cbn [events]. exists evs. now rewrite <- app_assoc.
    + exists []. reflexivity.
Qed.

(** X26. With a configuration made by [first_start_config], whatever
    was answered at its prompts, [add_metadata] asks for the cover of
    500x500 and never for the largest one: the configuration holds the
    answer about the resolution as a boolean, and [add_metadata]
    compares it with the string ['1']. *)
Theorem add_metadata_never_asks_for_the_largest_cover
    (token format lyrics download_path fallback cover_resolution : str)
    (file_path : str) (track_info image : json) (src : str)
    (audio_format : str) (s : State) :
  getitem track_info (lit "image") = Ret image ->
  getitem image (lit "src") = Ret (JStr src) ->
  let config :=
    first_start_config token format lyrics download_path fallback
      cover_resolution in
  exists later,
    events (snd (add_metadata env config file_path track_info audio_format s))
    = events s
      ++ HttpGet (replace (lit "&size={size}&ext=jpg")
                    (lit "&size=500x500&ext=jpg") src) []
         :: later.
Proof.
  intros Himage Hsrc config. unfold add_metadata.
  rewrite try_except_bind. unfold lift at 1.
  unfold config. rewrite first_start_config_cover.
  rewrite try_except_bind. unfold lift at 1. rewrite Himage.
  rewrite try_except_bind. unfold lift at 1. rewrite Hsrc.
  rewrite try_except_bind. unfold lift at 1.
  change (eq_str (JBool (str_eqb cover_resolution (lit "1"))) (lit "1"))
    with false.
  cbv beta iota.
  apply try_get_first.
  - intros r. unfold tag_check. grows_auto.
  - intros e. grows_auto.
Qed.

End CoverFacts.

Lemma add_metadata_never_asks_for_the_largest_cover_witness :
  exists later,
    SberZvukDownloader.events
      (snd (SberZvukDownloader.add_metadata Examples.legacy_env
              (SberZvukSetup.first_start_config (lit "secret") (lit "1")
                 (lit "2") [] (lit "1") (lit "1"))
              (lit "a.flac") (JObj Examples.lossy_track_with_cover)
              (lit "flac") Examples.legacy_start))
    = SberZvukDownloader.events Examples.legacy_start
      ++ SberZvukDownloader.HttpGet
           (SberZvukDownloader.replace (lit "&size={size}&ext=jpg")
              (lit "&size=500x500&ext=jpg")
              (lit "https://cdn.zvuk.com/pic?x=1&size={size}&ext=jpg")) []
         :: later.
Proof.
  apply (add_metadata_never_asks_for_the_largest_cover Examples.legacy_env
           (lit "secret") (lit "1") (lit "2") [] (lit "1") (lit "1")
           (lit "a.flac") (JObj Examples.lossy_track_with_cover)
           (JObj [ (lit "src",
                    JStr (lit "https://cdn.zvuk.com/pic?x=1&size={size}&ext=jpg")) ])
           (lit "https://cdn.zvuk.com/pic?x=1&size={size}&ext=jpg")
           (lit "flac") Examples.legacy_start).
  - vm_compute. reflexivity.
  - vm_compute. reflexivity.
Defined.
